(** * nonlinear-mor: parameter sampling, the neural-network reductor and
      the models

    A shallow embedding of [nonlinear_mor/utils/parameters.py],
    [nonlinear_mor/reductors/neural_network.py] and
    [nonlinear_mor/models/models.py], and of the parts of
    [examples/test_registration.py] that choose the restriction and project
    onto the reduced basis.

    Conventions of the embedding.
    - A Python call that can raise returns a [Py.result]; code with side
      effects (logging, calls to the full-order model, the registration,
      the trainer, attribute updates on [self]) runs in the monad [M] over
      an explicit state.
    - Array arithmetic is written against the interface [Num].  Two
      instances are given: exact rationals [Q], the idealisation used for
      algebraic facts, and IEEE 754 binary64 numbers [float], used wherever
      a fact depends on the special values (zero divisors, NaN).
    - External collaborators (full-order model and its parameters, geodesic
      shooting, the files of intermediate results, the process pool, POD,
      trainer, random shuffling, pickle files) are the fields of the
      interface [Collaborators]. *)

From Stdlib Require Import String ZArith QArith Qround Qminmax List Bool Lia Lqa.
From Stdlib Require Import Floats Permutation.
Import ListNotations.

Set Implicit Arguments.
Open Scope nat_scope.

(* ===================================================================== *)
(** ** Python runtime: exceptions, results, dynamically typed arguments *)
(* ===================================================================== *)

Module Py.

Inductive exn : Type :=
| AssertionError
| ValueError
| ZeroDivisionError
| OverflowError
| IndexError
| AttributeError
| UnboundLocalError
| ExternalError (origin : string).

Inductive result (A : Type) : Type :=
| Ok (a : A)
| Raise (e : exn).

Arguments Ok {A} a.
Arguments Raise {A} e.

(** The argument values that reach the configuration checks. *)
Inductive value : Type :=
| PyInt (z : Z)
| PyBool (b : bool)
| PyFloat (q : Q)
| PyStr (s : string)
| PyNone.

(** [isinstance(v, int)]: [bool] is a subclass of [int]. *)
Definition isinstance_int (v : value) : bool :=
  match v with
  | PyInt _ | PyBool _ => true
  | _ => false
  end.

(** The integer a value denotes once [isinstance_int] holds. *)
Definition as_int (v : value) : Z :=
  match v with
  | PyInt z => z
  | PyBool true => 1%Z
  | _ => 0%Z
  end.

(** The number a numeric value denotes. *)
Definition as_number (v : value) : option Q :=
  match v with
  | PyInt z => Some (inject_Z z)
  | PyBool b => Some (if b then 1%Q else 0%Q)
  | PyFloat q => Some q
  | _ => None
  end.

(** [a == b]. *)
Definition py_eq (a b : value) : bool :=
  match a, b with
  | PyStr s, PyStr t => String.eqb s t
  | PyNone, PyNone => true
  | _, _ =>
      match as_number a, as_number b with
      | Some x, Some y => Qeq_bool x y
      | _, _ => false
      end
  end.

(** [a in l]. *)
Definition contains (l : list value) (a : value) : bool :=
  existsb (py_eq a) l.

(** The file name behind [if full_solutions_file:]; [None] and the empty
    string are falsy. *)
Definition given_path (p : option string) : option string :=
  match p with
  | Some s => if String.eqb s "" then None else Some s
  | None => None
  end.

End Py.

Import Py.

(* ===================================================================== *)
(** ** State-and-exception monad *)
(* ===================================================================== *)

Definition M (S A : Type) : Type := S -> result A * S.

Definition ret {S A : Type} (a : A) : M S A := fun s => (Ok a, s).

Definition raise {S A : Type} (e : exn) : M S A := fun s => (Raise e, s).

Definition bind {S A B : Type} (m : M S A) (f : A -> M S B) : M S B :=
  fun s =>
    match m s with
    | (Ok a, s') => f a s'
    | (Raise e, s') => (Raise e, s')
    end.

Definition lift {S A : Type} (r : result A) : M S A := fun s => (r, s).

Definition update {S : Type} (f : S -> S) : M S unit := fun s => (Ok tt, f s).

Definition read {S A : Type} (f : S -> A) : M S A := fun s => (Ok (f s), s).

(** [assert b]. *)
Definition assert_ {S : Type} (b : bool) : M S unit :=
  if b then ret tt else raise AssertionError.

Declare Scope monad_scope.
Delimit Scope monad_scope with monad.
Notation "x <- m ;; k" := (bind m (fun x => k))
  (at level 61, m at next level, right associativity) : monad_scope.
Notation "' p <- m ;; k" := (bind m (fun x => let p := x in k))
  (at level 61, p pattern, m at next level, right associativity) : monad_scope.
Notation "m ;; k" := (bind m (fun _ => k))
  (at level 61, right associativity) : monad_scope.
Open Scope monad_scope.

(** A list comprehension whose body has effects, run left to right. *)
Fixpoint mapM {S A B : Type} (f : A -> M S B) (l : list A) : M S (list B) :=
  match l with
  | [] => ret []
  | a :: l' =>
      b <- f a ;;
      bs <- mapM f l' ;;
      ret (b :: bs)
  end.

(* ===================================================================== *)
(** ** Numbers *)
(* ===================================================================== *)

(** The arithmetic the arrays and tensors of the program are built on. *)
Class Num (T : Type) : Type := {
  zero : T;
  add : T -> T -> T;
  sub : T -> T -> T;
  mul : T -> T -> T;
  div : T -> T -> T;
  (** [ltb a b] is [a < b] *)
  ltb : T -> T -> bool;
  (** [np.minimum], [np.maximum] *)
  minimum : T -> T -> T;
  maximum : T -> T -> T
}.

(** Exact rationals.  [div] by zero has no rational value: this instance
    is only meaningful where divisors are non-zero. *)
#[global] Instance Num_Q : Num Q := {|
  zero := 0%Q;
  add := Qplus;
  sub := Qminus;
  mul := Qmult;
  div := Qdiv;
  ltb := fun a b => negb (Qle_bool b a);
  minimum := Qmin;
  maximum := Qmax
|}.

(** numpy's minimum and maximum propagate NaN. *)
Definition float_minimum (a b : float) : float :=
  if PrimFloat.is_nan a then a
  else if PrimFloat.is_nan b then b
  else if PrimFloat.ltb b a then b else a.

Definition float_maximum (a b : float) : float :=
  if PrimFloat.is_nan a then a
  else if PrimFloat.is_nan b then b
  else if PrimFloat.ltb a b then b else a.

(** IEEE 754 binary64.  The tensors of the program are binary32; the
    rules for zero divisors and NaN used below are the same in both
    formats. *)
#[global] Instance Num_float : Num float := {|
  zero := PrimFloat.zero;
  add := PrimFloat.add;
  sub := PrimFloat.sub;
  mul := PrimFloat.mul;
  div := PrimFloat.div;
  ltb := PrimFloat.ltb;
  minimum := float_minimum;
  maximum := float_maximum
|}.

(** A float that is NaN or an infinity. *)
Definition non_finite (f : float) : bool :=
  match Prim2SF f with
  | S754_nan | S754_infinity _ => true
  | _ => false
  end.

Definition sf_zero_or_nan (x : spec_float) : Prop :=
  match x with
  | S754_zero _ | S754_nan => True
  | _ => False
  end.

Definition sf_non_finite (x : spec_float) : Prop :=
  match x with
  | S754_nan | S754_infinity _ => True
  | _ => False
  end.

(** The rational number that a finite float is. *)
Definition SF2Q (x : spec_float) : option Q :=
  match x with
  | S754_zero _ => Some 0%Q
  | S754_finite s m e =>
      Some ((if s then - inject_Z (Zpos m) else inject_Z (Zpos m)) * 2 ^ e)%Q
  | _ => None
  end.

(* ===================================================================== *)
(** ** numpy arrays *)
(* ===================================================================== *)

Module Np.

(** An n-dimensional array: its shape and its buffer in row-major
    (C) order. *)
Record ndarray (A : Type) : Type := mk_ndarray {
  shape : list nat;
  data : list A
}.

Arguments mk_ndarray {A} shape data.

(** Number of elements of an array of shape [sh]. *)
Definition size (sh : list nat) : nat := fold_right Nat.mul 1 sh.

(** Offset of a multi-index in the row-major buffer. *)
Fixpoint ravel (sh idx : list nat) : nat :=
  match sh, idx with
  | _ :: sh', i :: idx' => i * size sh' + ravel sh' idx'
  | _, _ => 0
  end.

(** Multi-index of an offset of the row-major buffer. *)
Fixpoint unravel (sh : list nat) (r : nat) : list nat :=
  match sh with
  | [] => []
  | _ :: sh' => (r / size sh') :: unravel sh' (r mod size sh')
  end.

Section Elements.
Context {A : Type} (dflt : A).

(** [a[idx]] *)
Definition get (a : ndarray A) (idx : list nat) : A :=
  nth (ravel (shape a) idx) (data a) dflt.

(** The array of shape [sh] whose entry at [idx] is [f idx]. *)
Definition build (sh : list nat) (f : list nat -> A) : ndarray A :=
  mk_ndarray sh (map (fun r => f (unravel sh r)) (seq 0 (size sh))).

(** [a.T]: the axes in reverse order. *)
Definition transpose (a : ndarray A) : ndarray A :=
  build (rev (shape a)) (fun idx => get a (rev idx)).

(** [np.meshgrid] on the unpacked list [xi], with the default
    [indexing='xy']: for two or
    more inputs the first two axes of the grid are exchanged. *)
Definition meshgrid_shape (xi : list (list A)) : list nat :=
  match map (@length A) xi with
  | n0 :: n1 :: rest => n1 :: n0 :: rest
  | lens => lens
  end.

Definition meshgrid_axis (ndim i : nat) : nat :=
  if 1 <? ndim then
    match i with
    | 0 => 1
    | 1 => 0
    | _ => i
    end
  else i.

Definition meshgrid (xi : list (list A)) : list (ndarray A) :=
  map (fun i =>
         build (meshgrid_shape xi)
           (fun idx => nth (nth (meshgrid_axis (length xi) i) idx 0)
                           (nth i xi []) dflt))
      (seq 0 (length xi)).

Definition shape_eqb (s t : list nat) : bool :=
  if list_eq_dec Nat.eq_dec s t then true else false.

(** [np.stack(arrays, axis=-1)] *)
Definition stack_last (arrays : list (ndarray A)) : result (ndarray A) :=
  match arrays with
  | [] => Raise ValueError
  | a0 :: _ =>
      if forallb (fun a => shape_eqb (shape a) (shape a0)) arrays then
        Ok (build (shape a0 ++ [length arrays])
              (fun idx => get (nth (last idx 0) arrays a0) (removelast idx)))
      else Raise ValueError
  end.

(** [a.reshape(-1, ncols)] *)
Definition reshape_rows (a : ndarray A) (ncols : nat) : result (ndarray A) :=
  if (ncols =? 0) || negb (size (shape a) mod ncols =? 0) then Raise ValueError
  else Ok (mk_ndarray [size (shape a) / ncols; ncols] (data a)).

(** [a.squeeze()]: every axis of length one is removed; the buffer is
    unchanged. *)
Definition squeeze (a : ndarray A) : ndarray A :=
  mk_ndarray (filter (fun n => negb (n =? 1)) (shape a)) (data a).

(** [np.stack(rows)] of one-dimensional arrays. *)
Definition stack_rows (rows : list (list A)) : result (ndarray A) :=
  match rows with
  | [] => Raise ValueError
  | r0 :: _ =>
      if forallb (fun r => length r =? length r0) rows then
        Ok (mk_ndarray [length rows; length r0] (concat rows))
      else Raise ValueError
  end.

(** Row [i] of a two-dimensional array (iteration over the array). *)
Definition row (a : ndarray A) (i : nat) : list A :=
  let ncols := nth 1 (shape a) 0 in
  firstn ncols (skipn (i * ncols) (data a)).

Definition rows (a : ndarray A) : list (list A) :=
  map (row a) (seq 0 (nth 0 (shape a) 0)).

End Elements.

(** [np.linspace(start, stop, num)] in exact arithmetic, following
    numpy's implementation: [arange(num) * step + start], the last
    entry overwritten by [stop]. *)
Definition set_last {A : Type} (l : list A) (v : A) : list A :=
  removelast l ++ [v].

Definition linspace (start stop : Q) (num : Z) : result (list Q) :=
  if (num <? 0)%Z then Raise ValueError
  else
    let n := Z.to_nat num in
    let dv := (n - 1)%nat in
    let delta := (stop - start)%Q in
    let y := map (fun i => inject_Z (Z.of_nat i)) (seq 0 n) in
    let y :=
      if (0 <? dv)%nat then
        let step := (delta / inject_Z (Z.of_nat dv))%Q in
        if Qeq_bool step 0
        then map (fun v => (v / inject_Z (Z.of_nat dv) * delta)%Q) y
        else map (fun v => (v * step)%Q) y
      else map (fun v => (v * delta)%Q) y in
    let y := map (fun v => (v + start)%Q) y in
    Ok (if (1 <? n)%nat then set_last y stop else y).

Section Products.
Context {T : Type} `{Num T}.

Definition sum_upto (n : nat) (f : nat -> T) : T :=
  fold_left (fun acc k => add acc (f k)) (seq 0 n) zero.

(** Euclidean dot product of two vectors. *)
Definition vdot (u v : list T) : T :=
  sum_upto (length u) (fun k => mul (nth k u zero) (nth k v zero)).

(** [a.dot(b)] for two-dimensional arrays. *)
Definition dot (a b : ndarray T) : result (ndarray T) :=
  match shape a, shape b with
  | [m; n], [n'; p] =>
      if n =? n' then
        Ok (build [m; p]
              (fun idx =>
                 let i := nth 0 idx 0 in
                 let j := nth 1 idx 0 in
                 sum_upto n (fun k => mul (get zero a [i; k]) (get zero b [k; j]))))
      else Raise ValueError
  | _, _ => Raise ValueError
  end.

End Products.

End Np.

(* ===================================================================== *)
(** ** Logging *)
(* ===================================================================== *)

(** What a logger receives: the text of the message and the integers
    formatted into it. *)
Inductive log_record : Type :=
| LogInfo (msg : string) (args : list Z)
| LogWarning (msg : string) (args : list Z)
| LogBlock (msg : string) (args : list Z).

(* ===================================================================== *)
(** ** nonlinear_mor/utils/parameters.py *)
(* ===================================================================== *)

Module Parameters.

Record CubicParameterSpace : Type := {
  extends : list (Q * Q);
  dim : nat
}.

(** [CubicParameterSpace.__init__] *)
Definition init (extends : list (Q * Q)) : CubicParameterSpace :=
  {| extends := extends; dim := length extends |}.

Definition shape_is (sh : list nat) (expected : list Z) : bool :=
  if list_eq_dec Z.eq_dec (map Z.of_nat sh) expected then true else false.

Section Sample.

(** [float_root n d] is the binary64 value of [n ** (1 / d)] for [d >= 1];
    the power is computed by the platform's [pow], which is not part of the
    repository.  It raises when [n] does not fit a float. *)
Variable float_root : Z -> nat -> result Q.

(** [CubicParameterSpace.sample]; the state is what the logger received. *)
Definition sample (self : CubicParameterSpace) (num_samples mode : value)
  : M (list log_record) (Np.ndarray Q) :=
  assert_ (contains [PyStr "uniform"] mode) ;;
  assert_ (isinstance_int num_samples && (1 <=? as_int num_samples)%Z) ;;
  if py_eq mode (PyStr "uniform") then
    (if dim self =? 0 then raise ZeroDivisionError else ret tt) ;;
    root <- lift (float_root (as_int num_samples) (dim self)) ;;
    let number_of_parameters_per_dimension := Qceiling root in
    update (fun log =>
              log ++ [LogInfo "Sampling parameters uniformly ..."
                        [(number_of_parameters_per_dimension ^ Z.of_nat (dim self))%Z]]) ;;
    linspace_list <-
      mapM (fun '(p_min, p_max) =>
              lift (Np.linspace p_min p_max number_of_parameters_per_dimension))
           (extends self) ;;
    let temp := Np.meshgrid 0%Q linspace_list in
    stacked <- lift (Np.stack_last 0%Q (map (Np.transpose 0%Q) temp)) ;;
    parameters <- lift (Np.reshape_rows stacked (dim self)) ;;
    assert_ (shape_is (Np.shape parameters)
               [(number_of_parameters_per_dimension ^ Z.of_nat (dim self))%Z;
                Z.of_nat (dim self)]) ;;
    ret (Np.squeeze parameters)
  else raise UnboundLocalError.

End Sample.

(** [k] is the ceiling of the exact real [d]-th root of [n]. *)
Definition is_ceil_root (n : Z) (d : nat) (k : Z) : Prop :=
  (0 < k /\ (k - 1) ^ Z.of_nat d < n <= k ^ Z.of_nat d)%Z.

(** Coordinate [c] of point [r] in the row-major buffer of the result:
    squeezing changes the shape of the array and not its buffer. *)
Definition coordinate (a : Np.ndarray Q) (d r c : nat) : Q :=
  nth (r * d + c) (Np.data a) 0%Q.

(** The number of points of dimension [d] held by the buffer. *)
Definition number_of_points (a : Np.ndarray Q) (d : nat) : nat :=
  length (Np.data a) / d.

(** The root of a one-dimensional space: the exponent is [1.0] and the
    power is the number itself. *)
Definition float_root_dim1 (n : Z) (d : nat) : result Q := Ok (inject_Z n).

(** An idealised platform, on which the computed root is the exact
    ceiling of the real root: the least [k >= 1] with [n <= k ^ d]. *)
Definition ideal_root (n : Z) (d : nat) : result Q :=
  match find (fun k => (n <=? k ^ Z.of_nat d)%Z)
             (map (fun i => Z.of_nat (S i)) (seq 0 (Z.to_nat n))) with
  | Some k => Ok (inject_Z k)
  | None => Ok 1%Q
  end.

(** A platform with IEEE 754 binary64 numbers whose [pow] rounds to the
    nearest float, as CPython on x86-64 is.  The float nearest to [1 / 5]
    lies above one fifth, so the exact value of [3125 ** (1 / 5)] lies
    above [5], and the float returned is the next one after [5]: it is
    printed [5.000000000000001] and equals [5 + 2^-50].  Only this root is
    taken from the platform; at every other argument the stand-in takes the
    ceiling of the exact root. *)
Definition rounding_root (n : Z) (d : nat) : result Q :=
  if (n =? 3125)%Z && (d =? 5) then Ok (5 + 1 / inject_Z (2 ^ 50))%Q
  else ideal_root n d.

End Parameters.

(* ===================================================================== *)
(** ** nonlinear_mor/reductors/neural_network.py *)
(* ===================================================================== *)

Module Reductor.

(** The collaborators of the reductor, none of which is defined in the
    repository's sources: the full-order model with its parameters,
    geodesic shooting, the files of intermediate results, the pool of worker
    processes, the POD routine, pickle files, the random generator and the
    trainer. *)
Class Collaborators (T : Type) : Type := {
  (** the parameters [mu] of the full-order model: numbers, or points of a
      parameter space of several dimensions *)
  ParameterValue : Type;
  Solution : Type;
  VelocityField : Type;
  Network : Type;
  (** the entries of [torch.Tensor([mu, ])]: the components of [mu], one
      for a number and [d] for a point of [d] coordinates *)
  components : ParameterValue -> list T;
  (** [fom.solve(mu)] *)
  fom_solve : ParameterValue -> result Solution;
  (** [geodesic_shooter.register(reference, u, initial_vector_field=v,
      ...)['initial_vector_field']] *)
  gs_register : Solution -> Solution -> option VelocityField -> result VelocityField;
  (** the block under [if save_intermediate_results:] for the registration
      of [input_] against [reference] started from [initial]: the lookup of
      the transformed input, the three [save] calls, the quotient of the
      norms and the line appended to the file of mapping errors.  It raises
      when one of them does, as when the directory [intermediate_results/]
      is missing. *)
  save_results : Solution -> ParameterValue * Solution -> option VelocityField ->
                 result unit;
  (** [multiprocessing.Pool(num_workers)] and the dispatch of [pool.map]:
      the task (the bound method with its reductor) and the full solutions
      are pickled for the worker processes *)
  start_pool : Z -> list (ParameterValue * Solution) -> result unit;
  (** [a.to_numpy().flatten()] *)
  to_numpy_flatten : VelocityField -> list T;
  (** [geodesic_shooter.regularizer.cauchy_navier] *)
  cauchy_navier : VelocityField -> VelocityField;
  (** [pod(fields, modes=m, product_operator=p, return_singular_values=True)]:
      the array of the basis, one row for each mode, and the singular
      values *)
  pod : list VelocityField -> Z -> (VelocityField -> VelocityField) ->
        result (Np.ndarray T * list T);
  (** [pickle.load] of the two cache files *)
  load_full_solutions : string -> result (list (ParameterValue * Solution));
  load_full_velocity_fields : string -> result (list VelocityField);
  (** [random.shuffle] *)
  shuffle : forall X : Type, list X -> list X;
  shuffle_permutation : forall (X : Type) (l : list X), Permutation l (shuffle l);
  (** [FullyConnectedNetwork(layers_sizes)] trained by [Trainer.train] in
      the restart of the given number: the network and its best loss *)
  train : nat -> list nat -> list (list T * list T) -> list (list T * list T) ->
          result (Network * T)
}.

Section Model.

Context {T : Type} {NumT : Num T} {C : Collaborators T}.

(** A training pair: the input tensor and the output tensor. *)
Definition pair_ : Type := (list T * list T)%type.

Inductive event : Type :=
| EvLog (r : log_record)
| EvLoad (path : string)
| EvSolve (mu : ParameterValue)
| EvRegister (input : ParameterValue * Solution) (initial : option VelocityField)
    (outcome : result VelocityField)
| EvSave (mu : ParameterValue)
| EvPod (modes : Z)
| EvShuffle
| EvTrain (restart : nat) (layers_sizes : list nat) (training validation : list pair_).

(** The reductor object: its attributes and the trace of what it did. *)
Record reductor : Type := {
  training_set : list ParameterValue;
  reference_parameter : ParameterValue;
  reference_solution : Solution;
  min_input : option T;
  max_input : option T;
  min_output : option T;
  max_output : option T;
  trace : list event
}.

Definition emit (e : event) : M reductor unit :=
  update (fun self =>
    {| training_set := training_set self;
       reference_parameter := reference_parameter self;
       reference_solution := reference_solution self;
       min_input := min_input self;
       max_input := max_input self;
       min_output := min_output self;
       max_output := max_output self;
       trace := trace self ++ [e] |}).

Definition set_min_input (v : T) : M reductor unit :=
  update (fun self =>
    {| training_set := training_set self;
       reference_parameter := reference_parameter self;
       reference_solution := reference_solution self;
       min_input := Some v;
       max_input := max_input self;
       min_output := min_output self;
       max_output := max_output self;
       trace := trace self |}).

Definition set_max_input (v : T) : M reductor unit :=
  update (fun self =>
    {| training_set := training_set self;
       reference_parameter := reference_parameter self;
       reference_solution := reference_solution self;
       min_input := min_input self;
       max_input := Some v;
       min_output := min_output self;
       max_output := max_output self;
       trace := trace self |}).

Definition set_min_output (v : T) : M reductor unit :=
  update (fun self =>
    {| training_set := training_set self;
       reference_parameter := reference_parameter self;
       reference_solution := reference_solution self;
       min_input := min_input self;
       max_input := max_input self;
       min_output := Some v;
       max_output := max_output self;
       trace := trace self |}).

Definition set_max_output (v : T) : M reductor unit :=
  update (fun self =>
    {| training_set := training_set self;
       reference_parameter := reference_parameter self;
       reference_solution := reference_solution self;
       min_input := min_input self;
       max_input := max_input self;
       min_output := min_output self;
       max_output := Some v;
       trace := trace self |}).

(** Reading an attribute that may not have been set yet. *)
Definition attr (field : reductor -> option T) : M reductor T :=
  fun self =>
    match field self with
    | Some v => (Ok v, self)
    | None => (Raise AttributeError, self)
    end.

Definition hasattr (field : reductor -> option T) : M reductor bool :=
  read (fun self => match field self with Some _ => true | None => false end).

(** [NonlinearNeuralNetworkReductor.__init__] *)
Definition init (training_set : list ParameterValue) (reference_parameter : ParameterValue)
  : result reductor :=
  match fom_solve reference_parameter with
  | Ok u =>
      Ok {| training_set := training_set;
            reference_parameter := reference_parameter;
            reference_solution := u;
            min_input := None; max_input := None;
            min_output := None; max_output := None;
            trace := [EvSolve reference_parameter] |}
  | Raise e => Raise e
  end.

Definition solve (mu : ParameterValue) : M reductor Solution :=
  emit (EvSolve mu) ;; lift (fom_solve mu).

Definition compute_full_solutions (full_solutions_file : option string)
  : M reductor (list (ParameterValue * Solution)) :=
  match given_path full_solutions_file with
  | Some path => emit (EvLoad path) ;; lift (load_full_solutions path)
  | None =>
      training_set <- read training_set ;;
      mapM (fun mu => u <- solve mu ;; ret (mu, u)) training_set
  end.

(** The dictionaries of hyperparameters ([registration_params],
    [trainer_params], [training_params]) are handed to the collaborators
    untouched and are left out.  The event [EvSave] records that the block
    of [save_intermediate_results] is entered; the block can raise, and
    then no field is returned. *)
Definition perform_single_registration (input_ : ParameterValue * Solution)
    (initial_velocity_field : option VelocityField)
    (save_intermediate_results : bool) : M reductor VelocityField :=
  let '(mu, u) := input_ in
  reference <- read reference_solution ;;
  let result_ := gs_register reference u initial_velocity_field in
  emit (EvRegister input_ initial_velocity_field result_) ;;
  v0 <- lift result_ ;;
  (if save_intermediate_results then
     emit (EvSave mu) ;;
     lift (save_results reference input_ initial_velocity_field)
   else ret tt) ;;
  ret v0.

(** [full_velocity_fields[-1]] *)
Definition last_item {X : Type} (l : list X) : M reductor X :=
  match rev l with
  | x :: _ => ret x
  | [] => raise IndexError
  end.

(** The sequential loop of [register_full_solutions]; [i] is the index of
    [enumerate], [full_velocity_fields] the list built so far. *)
Fixpoint register_sequentially (reuse_vector_fields save_intermediate_results : bool)
    (full_solutions : list (ParameterValue * Solution)) (i : nat)
    (full_velocity_fields : list VelocityField) : M reductor (list VelocityField) :=
  match full_solutions with
  | [] => ret full_velocity_fields
  | input_ :: rest =>
      initial_velocity_field <-
        (if reuse_vector_fields && (0 <? i) then
           v <- last_item full_velocity_fields ;;
           emit (EvLog (LogInfo "Reusing velocity field from previous registration ..." [])) ;;
           ret (Some v)
         else ret None) ;;
      v0 <- perform_single_registration input_ initial_velocity_field
              save_intermediate_results ;;
      register_sequentially reuse_vector_fields save_intermediate_results rest (S i)
        (full_velocity_fields ++ [v0])
  end.

(** [register_full_solutions].  [pool.map] first dispatches the tasks,
    which can fail, and re-raises what a task raises; the tasks are taken
    in input order, and how the worker processes interleave is not
    modelled. *)
Definition register_full_solutions (full_solutions : list (ParameterValue * Solution))
    (save_intermediate_results : bool) (num_workers : Z)
    (full_velocity_fields_file : option string) (reuse_vector_fields : bool)
  : M reductor (list VelocityField) :=
  match given_path full_velocity_fields_file with
  | Some path => emit (EvLoad path) ;; lift (load_full_velocity_fields path)
  | None =>
      emit (EvLog (LogBlock "Computing mappings and vector fields ..." [])) ;;
      if (1 <? num_workers)%Z then
        (if reuse_vector_fields then
           emit (EvLog (LogWarning "Reusing velocity fields not possible with workers ..."
                          [num_workers]))
         else ret tt) ;;
        lift (start_pool num_workers full_solutions) ;;
        mapM (fun input_ =>
                perform_single_registration input_ None save_intermediate_results)
             full_solutions
      else
        register_sequentially reuse_vector_fields save_intermediate_results
          full_solutions 0 []
  end.

(** [np.min] and [np.max] of a list of arrays: the extremum over all
    entries; an empty reduction raises. *)
Definition np_min (arrays : list (list T)) : result T :=
  match concat arrays with
  | [] => Raise ValueError
  | x :: xs => Ok (fold_left minimum xs x)
  end.

Definition np_max (arrays : list (list T)) : result T :=
  match concat arrays with
  | [] => Raise ValueError
  | x :: xs => Ok (fold_left maximum xs x)
  end.

Definition compute_normalization (training_data validation_data : list pair_)
  : M reductor unit :=
  lo <- lift (np_min (map fst (training_data ++ validation_data))) ;;
  set_min_input lo ;;
  hi <- lift (np_max (map fst (training_data ++ validation_data))) ;;
  set_max_input hi ;;
  lo' <- lift (np_min (map snd (training_data ++ validation_data))) ;;
  set_min_output lo' ;;
  hi' <- lift (np_max (map snd (training_data ++ validation_data))) ;;
  set_max_output hi'.

(** [(data - lo) / (hi - lo)] and [data * (hi - lo) + lo], elementwise. *)
Definition scale (lo hi : T) (data : list T) : list T :=
  map (fun x => div (sub x lo) (sub hi lo)) data.

Definition unscale (lo hi : T) (data : list T) : list T :=
  map (fun x => add (mul x (sub hi lo)) lo) data.

Definition normalize_input (data : list T) : M reductor (list T) :=
  lo <- attr min_input ;;
  hi <- attr max_input ;;
  ret (scale lo hi data).

Definition normalize_output (data : list T) : M reductor (list T) :=
  lo <- attr min_output ;;
  hi <- attr max_output ;;
  ret (scale lo hi data).

Definition denormalize_output (data : list T) : M reductor (list T) :=
  hi <- attr max_output ;;
  lo <- attr min_output ;;
  ret (unscale lo hi data).

Definition normalize (data : list pair_) : M reductor (list pair_) :=
  a <- hasattr min_input ;; b <- hasattr max_input ;;
  assert_ (a && b) ;;
  c <- hasattr min_output ;; d <- hasattr max_output ;;
  assert_ (c && d) ;;
  mapM (fun elem =>
          x <- normalize_input (fst elem) ;;
          y <- normalize_output (snd elem) ;;
          ret (x, y))
       data.

Definition train_neural_network (restart : nat) (layers_sizes : list nat)
    (training_data validation_data : list pair_) : M reductor (Network * T) :=
  emit (EvTrain restart layers_sizes training_data validation_data) ;;
  lift (train restart layers_sizes training_data validation_data).

(** [best_loss is None or best_loss > loss] *)
Definition improves (best_loss : option T) (loss : T) : bool :=
  match best_loss with
  | None => true
  | Some b => ltb loss b
  end.

(** The loop of [multiple_restarts_training]: [remaining] iterations are
    left and [restart] have been run. *)
Fixpoint restarts_loop (layers_sizes : list nat) (training_data validation_data : list pair_)
    (remaining restart : nat) (best_neural_network : option Network) (best_loss : option T)
  : M reductor (option Network * option T) :=
  match remaining with
  | 0 => ret (best_neural_network, best_loss)
  | S remaining' =>
      '(neural_network, loss) <-
        train_neural_network restart layers_sizes training_data validation_data ;;
      if improves best_loss loss then
        restarts_loop layers_sizes training_data validation_data remaining' (S restart)
          (Some neural_network) (Some loss)
      else
        restarts_loop layers_sizes training_data validation_data remaining' (S restart)
          best_neural_network best_loss
  end.

Definition multiple_restarts_training (training_data validation_data : list pair_)
    (layers_sizes : list nat) (restarts : Z) : M reductor (option Network * option T) :=
  emit (EvLog (LogBlock "Performing restarts of neural network training ..." [restarts])) ;;
  best <- restarts_loop layers_sizes training_data validation_data
            (Z.to_nat restarts) 0 None None ;;
  emit (EvLog (LogInfo "Trained neural network with loss ..." [])) ;;
  ret best.

(** The reduced model assembled by [build_rom].  Its two normalisation
    callbacks are the bound methods of the reductor and read the
    reductor's attributes when called. *)
Record ReducedSpacetimeModel : Type := {
  rom_reference_solution : Solution;
  rom_velocity_fields : Np.ndarray T;
  rom_neural_network : option Network
}.

Definition build_rom (velocity_fields : Np.ndarray T) (neural_network : option Network)
  : M reductor ReducedSpacetimeModel :=
  reference <- read reference_solution ;;
  ret {| rom_reference_solution := reference;
         rom_velocity_fields := velocity_fields;
         rom_neural_network := neural_network |}.

(** [int(0.1 * n)] *)
Definition int_tenth (n : nat) : nat :=
  Z.to_nat (Qfloor ((1 # 10) * inject_Z (Z.of_nat n))).

(** The validation and training slices of the shuffled pairs. *)
Definition validation_slice {X : Type} (training_data : list X) : list X :=
  firstn (int_tenth (length training_data) + 1) training_data.

Definition training_slice {X : Type} (training_data : list X) : list X :=
  skipn (int_tenth (length training_data) + 2) training_data.

(** [np.stack([a.to_numpy().flatten() for a in full_velocity_fields])]
    and [snapshot_matrix.dot(reduced_velocity_fields.T)], where
    [reduced_velocity_fields] is the array that [pod] returned. *)
Definition reduced_coefficients_of (full_velocity_fields : list VelocityField)
    (reduced_velocity_fields : Np.ndarray T) : result (Np.ndarray T) :=
  match Np.stack_rows (map to_numpy_flatten full_velocity_fields) with
  | Ok snapshot_matrix =>
      Np.dot snapshot_matrix (Np.transpose zero reduced_velocity_fields)
  | Raise e => Raise e
  end.

(** [torch.Tensor([mu, ])] paired with [torch.Tensor(coeff)], for the
    parameters zipped with the rows of the coefficients. *)
Definition training_pairs (full_solutions : list (ParameterValue * Solution))
    (reduced_coefficients : Np.ndarray T) : list pair_ :=
  map (fun p => (components (fst (fst p)), snd p))
      (combine full_solutions (Np.rows reduced_coefficients)).

(** [[1] + hidden_layers + [reduced_coefficients.shape[1]]] *)
Definition layers_sizes_of (hidden_layers : list nat) (reduced_coefficients : Np.ndarray T)
  : list nat :=
  [1] ++ hidden_layers ++ [nth 1 (Np.shape reduced_coefficients) 0].

Record outputs : Type := {
  out_reduced_velocity_fields : Np.ndarray T;
  out_singular_values : list T;
  out_full_velocity_fields : list VelocityField;
  out_training_data : list pair_;
  out_validation_data : list pair_;
  out_best_loss : option T
}.

Definition reduce (max_basis_size : value) (return_all : bool) (restarts : value)
    (save_intermediate_results : bool) (hidden_layers : list nat) (num_workers : Z)
    (full_solutions_file full_velocity_fields_file : option string)
    (reuse_vector_fields : bool)
  : M reductor (ReducedSpacetimeModel * option outputs) :=
  assert_ (isinstance_int max_basis_size && (0 <? as_int max_basis_size)%Z) ;;
  assert_ (isinstance_int restarts && (0 <? as_int restarts)%Z) ;;
  emit (EvLog (LogBlock "Computing full solutions ..." [])) ;;
  full_solutions <- compute_full_solutions full_solutions_file ;;
  full_velocity_fields <-
    register_full_solutions full_solutions save_intermediate_results num_workers
      full_velocity_fields_file reuse_vector_fields ;;
  emit (EvLog (LogBlock "Reducing vector fields using POD ..." [])) ;;
  let product_operator := cauchy_navier in
  emit (EvPod (as_int max_basis_size)) ;;
  '(reduced_velocity_fields, singular_values) <-
    lift (pod full_velocity_fields (as_int max_basis_size) product_operator) ;;
  emit (EvLog (LogInfo "Computing reduced coefficients ..." [])) ;;
  reduced_coefficients <-
    lift (reduced_coefficients_of full_velocity_fields reduced_velocity_fields) ;;
  emit (EvLog (LogInfo "Approximating mapping from parameters to reduced coefficients ..." [])) ;;
  let training_data := training_pairs full_solutions reduced_coefficients in
  emit EvShuffle ;;
  let training_data := shuffle training_data in
  let validation_data := validation_slice training_data in
  let training_data := training_slice training_data in
  compute_normalization training_data validation_data ;;
  training_data <- normalize training_data ;;
  validation_data <- normalize validation_data ;;
  let layers_sizes := layers_sizes_of hidden_layers reduced_coefficients in
  '(best_ann, best_loss) <-
    multiple_restarts_training training_data validation_data layers_sizes (as_int restarts) ;;
  emit (EvLog (LogInfo "Building reduced model ..." [])) ;;
  rom <- build_rom reduced_velocity_fields best_ann ;;
  if return_all then
    ret (rom, Some {| out_reduced_velocity_fields := reduced_velocity_fields;
                      out_singular_values := singular_values;
                      out_full_velocity_fields := full_velocity_fields;
                      out_training_data := training_data;
                      out_validation_data := validation_data;
                      out_best_loss := best_loss |})
  else ret (rom, None).

(** The registrations recorded in a trace, in call order. *)
Definition registrations (tr : list event)
  : list ((ParameterValue * Solution) * option VelocityField * result VelocityField) :=
  flat_map (fun e =>
              match e with
              | EvRegister input_ initial outcome => [(input_, initial, outcome)]
              | _ => []
              end) tr.

(** The inner product of a velocity field with a basis vector under the
    product operator, as the projection of [examples/test_registration.py]
    computes it: the basis vector against the operator applied to the
    field. *)
Definition product_inner (v : VelocityField) (b : list T) : T :=
  Np.vdot b (to_numpy_flatten (cauchy_navier v)).

(** The calls of a run in which each registration after the first gets
    the field of the one before it when [reuse] holds, and the first gets
    [first]. *)
Definition chained (reuse : bool) (first : option VelocityField)
    (regs : list ((ParameterValue * Solution) * option VelocityField * result VelocityField)) : Prop :=
  forall k input_ initial outcome,
    nth_error regs k = Some (input_, initial, outcome) ->
    match k with
    | 0 => initial = first
    | S k' =>
        exists prev_input prev_initial v,
          nth_error regs k' = Some (prev_input, prev_initial, Ok v) /\
          initial = if reuse then Some v else None
    end.

(** Registration [k] of a run is the one of the [k]-th full solution. *)
Definition aligned (sols : list (ParameterValue * Solution))
    (regs : list ((ParameterValue * Solution) * option VelocityField * result VelocityField)) : Prop :=
  forall k input_ initial outcome,
    nth_error regs k = Some (input_, initial, outcome) -> nth_error sols k = Some input_.

(** A training run whose network has an input layer of width one and
    whose input tensors, for training and validation, have [d] entries
    each. *)
Definition training_of_width (d : nat) (e : event) : Prop :=
  match e with
  | EvTrain _ layers_sizes training validation =>
      hd 0 layers_sizes = 1 /\
      Forall (fun p => length (fst p) = d) training /\
      Forall (fun p => length (fst p) = d) validation
  | _ => True
  end.

End Model.

(** The loss of restart [j] is a number, the lowest among the losses of
    the first [n] restarts that are numbers and not NaN, and restart [j] is
    the first to reach it. *)
Definition first_lowest (loss : nat -> float) (j n : nat) : Prop :=
  j < n /\
  PrimFloat.is_nan (loss j) = false /\
  (forall i, i < n -> PrimFloat.is_nan (loss i) = false ->
             PrimFloat.leb (loss j) (loss i) = true) /\
  (forall i, i < j -> PrimFloat.is_nan (loss i) = false ->
             PrimFloat.ltb (loss j) (loss i) = true).

End Reductor.

(* ===================================================================== *)
(** ** Stand-ins for the collaborators, used to run the model *)
(* ===================================================================== *)

Module Toy.

Import Reductor.

(** Collaborators over exact rationals.  Solutions are numbers, velocity
    fields are vectors, networks are numbered by the restart that trained
    them.  The product operator is four times the identity, so a
    one-component basis vector of norm one under it is [1/2]; shuffling
    keeps the order. *)
Definition collaborators_Q : Collaborators Q := {|
  ParameterValue := Q;
  Solution := Q;
  VelocityField := list Q;
  Network := nat;
  components := fun mu => [mu];
  fom_solve := fun mu => Ok mu;
  gs_register := fun reference u initial =>
    Ok [match initial with
        | Some v => (u - reference + nth 0 v 0)%Q
        | None => (u - reference)%Q
        end];
  save_results := fun reference input_ initial => Ok tt;
  start_pool := fun num_workers full_solutions => Ok tt;
  to_numpy_flatten := fun v => v;
  cauchy_navier := fun v => map (Qmult 4) v;
  pod := fun fields modes product => Ok (Np.mk_ndarray [1; 1] [(1 # 2)%Q], [2%Q]);
  load_full_solutions := fun path => Raise (ExternalError "pickle");
  load_full_velocity_fields := fun path => Raise (ExternalError "pickle");
  shuffle := fun X l => l;
  shuffle_permutation := fun X l => Permutation_refl l;
  train := fun restart layers training validation =>
    Ok (restart, inject_Z (Z.of_nat restart))
|}.

(** The same collaborators where nothing can be written: the block that
    saves the intermediate results raises. *)
Definition collaborators_read_only : Collaborators Q := {|
  ParameterValue := Q;
  Solution := Q;
  VelocityField := list Q;
  Network := nat;
  components := fun mu => [mu];
  fom_solve := fun mu => Ok mu;
  gs_register := fun reference u initial => Ok [(u - reference)%Q];
  save_results := fun reference input_ initial =>
    Raise (ExternalError "intermediate_results");
  start_pool := fun num_workers full_solutions => Ok tt;
  to_numpy_flatten := fun v => v;
  cauchy_navier := fun v => map (Qmult 4) v;
  pod := fun fields modes product => Ok (Np.mk_ndarray [1; 1] [(1 # 2)%Q], [2%Q]);
  load_full_solutions := fun path => Raise (ExternalError "pickle");
  load_full_velocity_fields := fun path => Raise (ExternalError "pickle");
  shuffle := fun X l => l;
  shuffle_permutation := fun X l => Permutation_refl l;
  train := fun restart layers training validation =>
    Ok (restart, inject_Z (Z.of_nat restart))
|}.

(** Collaborators whose parameters are points of the plane: the
    full-order model adds the two coordinates. *)
Definition collaborators_plane : Collaborators Q := {|
  ParameterValue := Q * Q;
  Solution := Q;
  VelocityField := list Q;
  Network := nat;
  components := fun mu => [fst mu; snd mu];
  fom_solve := fun mu => Ok (fst mu + snd mu)%Q;
  gs_register := fun reference u initial => Ok [(u - reference)%Q];
  save_results := fun reference input_ initial => Ok tt;
  start_pool := fun num_workers full_solutions => Ok tt;
  to_numpy_flatten := fun v => v;
  cauchy_navier := fun v => v;
  pod := fun fields modes product => Ok (Np.mk_ndarray [1; 1] [1%Q], [1%Q]);
  load_full_solutions := fun path => Raise (ExternalError "pickle");
  load_full_velocity_fields := fun path => Raise (ExternalError "pickle");
  shuffle := fun X l => l;
  shuffle_permutation := fun X l => Permutation_refl l;
  train := fun restart layers training validation =>
    Ok (restart, inject_Z (Z.of_nat restart))
|}.

(** Collaborators over floats, with the outcome of each restart's
    training given by [outcomes]. *)
Definition collaborators_float (outcomes : nat -> result (nat * float))
  : Collaborators float := {|
  ParameterValue := float;
  Solution := float;
  VelocityField := list float;
  Network := nat;
  components := fun mu => [mu];
  fom_solve := fun mu => Ok mu;
  gs_register := fun reference u initial => Ok [PrimFloat.sub u reference];
  save_results := fun reference input_ initial => Ok tt;
  start_pool := fun num_workers full_solutions => Ok tt;
  to_numpy_flatten := fun v => v;
  cauchy_navier := fun v => v;
  pod := fun fields modes product =>
    Ok (Np.mk_ndarray [1; 1] [PrimFloat.one], [PrimFloat.one]);
  load_full_solutions := fun path => Raise (ExternalError "pickle");
  load_full_velocity_fields := fun path => Raise (ExternalError "pickle");
  shuffle := fun X l => l;
  shuffle_permutation := fun X l => Permutation_refl l;
  train := fun restart layers training validation => outcomes restart
|}.

(** A reductor object whose attributes are given. *)
Definition reductor_with {T : Type} {C : Collaborators T} (reference : @Solution T C)
    (mu : @ParameterValue T C) (lo_in hi_in lo_out hi_out : option T) : @reductor T C :=
  {| training_set := [];
     reference_parameter := mu;
     reference_solution := reference;
     min_input := lo_in;
     max_input := hi_in;
     min_output := lo_out;
     max_output := hi_out;
     trace := [] |}.

(** A reductor over rationals with reference solution one. *)
Definition reductor_Q : @reductor Q collaborators_Q :=
  reductor_with (C := collaborators_Q) 1%Q 1%Q None None None None.

(** A reductor over rationals that cannot write, with reference solution
    one. *)
Definition reductor_read_only : @reductor Q collaborators_read_only :=
  reductor_with (C := collaborators_read_only) 1%Q 1%Q None None None None.

(** A reductor whose training set holds three points of the plane. *)
Definition reductor_plane : @reductor Q collaborators_plane :=
  @Build_reductor Q collaborators_plane [(0%Q, 1%Q); (2%Q, 3%Q); (4%Q, 6%Q)]
    (0%Q, 0%Q) 0%Q None None None None [].

(** The same reductor with three training parameters. *)
Definition reductor_three : @reductor Q collaborators_Q :=
  @Build_reductor Q collaborators_Q [(1 # 2)%Q; 1%Q; (3 # 2)%Q]
    (reference_parameter reductor_Q) (reference_solution reductor_Q)
    None None None None [].

Definition two_solutions : list (Q * Q) := [((1 # 2)%Q, (1 # 2)%Q); ((3 # 2)%Q, (3 # 2)%Q)].

(** Training outcomes: the first restart diverges and raises; the first
    restart ends with a NaN loss; the second restart ends with a NaN loss;
    three restarts with three losses. *)
Definition diverging_first (restart : nat) : result (nat * float) :=
  match restart with
  | 0 => Raise (ExternalError "diverged")
  | _ => Ok (restart, 0.5%float)
  end.

Definition nan_first (restart : nat) : result (nat * float) :=
  match restart with
  | 0 => Ok (restart, PrimFloat.nan)
  | _ => Ok (restart, 0.5%float)
  end.

Definition nan_first_of (restart : nat) : float :=
  match restart with
  | 0 => PrimFloat.nan
  | _ => 0.5%float
  end.

Definition nan_second_of (restart : nat) : float :=
  match restart with
  | 0 => 0.5%float
  | 1 => PrimFloat.nan
  | _ => 0.25%float
  end.

Definition nan_second (restart : nat) : result (nat * float) :=
  Ok (restart, nan_second_of restart).

Definition three_losses_of (restart : nat) : float :=
  match restart with
  | 0 => 0.5%float
  | 1 => 0.25%float
  | _ => 0.75%float
  end.

Definition three_losses (restart : nat) : result (nat * float) :=
  Ok (restart, three_losses_of restart).

(** A reductor over floats whose two input bounds are both one. *)
Definition reductor_unit_range (outcomes : nat -> result (nat * float))
  : @reductor float (collaborators_float outcomes) :=
  reductor_with (C := collaborators_float outcomes) PrimFloat.zero PrimFloat.one
    (Some PrimFloat.one) (Some PrimFloat.one) None None.

(** One training pair and one validation pair, with outputs between two
    and five. *)
Definition training_pair : list (list Q * list Q) := [([1%Q], [2%Q; 5%Q])].
Definition validation_pair : list (list Q * list Q) := [([3%Q], [4%Q; 3%Q])].

End Toy.

(* ===================================================================== *)
(** ** numpy arrays as the callers use them: iteration, [len], [reshape] *)
(* ===================================================================== *)

Module NpViews.

Import Np.

Section Views.
Context {A : Type}.

(** [a[i]] for an array whose first axis is followed by the axes [rest]:
    the sub-array at index [i] of the first axis. *)
Definition item (rest : list nat) (buffer : list A) (i : nat) : ndarray A :=
  mk_ndarray rest (firstn (size rest) (skipn (i * size rest) buffer)).

(** [for x in a]: the items along the first axis.  A 0-dimensional array
    cannot be iterated; [None] is the [TypeError] raised then. *)
Definition iterate (a : ndarray A) : option (list (ndarray A)) :=
  match shape a with
  | [] => None
  | n :: rest => Some (map (item rest (data a)) (seq 0 n))
  end.

(** [len(a)]; [None] is the [TypeError] of a 0-dimensional array. *)
Definition len (a : ndarray A) : option nat :=
  match shape a with
  | [] => None
  | n :: _ => Some n
  end.

(** [a.shape[0]] *)
Definition shape0 (a : ndarray A) : result nat :=
  match shape a with
  | [] => Raise IndexError
  | n :: _ => Ok n
  end.

(** [a.reshape(new_shape)] with every length given. *)
Definition reshape (a : ndarray A) (new_shape : list nat) : result (ndarray A) :=
  if size (shape a) =? size new_shape then Ok (mk_ndarray new_shape (data a))
  else Raise ValueError.

(** [a.reshape(n, -1)] *)
Definition reshape_first (a : ndarray A) (n : nat) : result (ndarray A) :=
  if (n =? 0) || negb (size (shape a) mod n =? 0) then Raise ValueError
  else Ok (mk_ndarray [n; size (shape a) / n] (data a)).

End Views.

End NpViews.

(* ===================================================================== *)
(** ** The order of the sampled grid *)
(* ===================================================================== *)

Module SampleGrid.

(** The position, within the one-dimensional grid of dimension [c], of
    coordinate [c] of point [r], for a grid of [k] values in each of [d]
    dimensions. *)
Definition grid_index (d k r c : nat) : nat :=
  (r / k ^ Np.meshgrid_axis d c) mod k.

(** A 0-dimensional array holding [x]. *)
Definition scalar (x : Q) : Np.ndarray Q := Np.mk_ndarray [] [x].

(** The one-dimensional array of the coordinates of point [r]. *)
Definition point (a : Np.ndarray Q) (d r : nat) : Np.ndarray Q :=
  Np.mk_ndarray [d] (map (Parameters.coordinate a d r) (seq 0 d)).

End SampleGrid.

(* ===================================================================== *)
(** ** What a run of the reductor is observed to do *)
(* ===================================================================== *)

Module ReductorRuns.

Import Reductor.

Section Runs.

Context {T : Type} {NumT : Num T} {C : Collaborators T}.

(** Started in a state satisfying [Pre], [m] only appends events
    satisfying [P] to the trace, and when it returns [a] in state [s'],
    [Post a s'] holds. *)
Definition triple {A : Type} (Pre : reductor -> Prop) (m : M reductor A)
    (P : event -> Prop) (Post : A -> reductor -> Prop) : Prop :=
  forall s r s', Pre s -> m s = (r, s') ->
    (exists added, trace s' = trace s ++ added /\ Forall P added) /\
    (forall a, r = Ok a -> Post a s').

(** The training runs recorded in a trace, in call order. *)
Definition trainings (tr : list event)
  : list (nat * list nat * list pair_ * list pair_) :=
  flat_map (fun e =>
              match e with
              | EvTrain restart layers_sizes training validation =>
                  [(restart, layers_sizes, training, validation)]
              | _ => []
              end) tr.

(** The initial guess handed to registration [k] when the registrations
    return [fields]: the field of registration [k - 1] in the sequential
    loop with reuse, nothing otherwise. *)
Definition initial_guess (reuse_vector_fields : bool) (num_workers : Z)
    (fields : list VelocityField) (k : nat) : option VelocityField :=
  if reuse_vector_fields && negb (1 <? num_workers)%Z && (0 <? k)
  then nth_error fields (k - 1)
  else None.

(** What [perform_single_registration] hands back for [input_] and the
    guess [initial]: the field of the registration, unless the
    registration raises or, with [save_intermediate_results], the block
    that saves its results does. *)
Definition registration_value (reference : Solution) (save_intermediate_results : bool)
    (input_ : ParameterValue * Solution) (initial : option VelocityField)
  : result VelocityField :=
  match gs_register reference (snd input_) initial with
  | Ok v0 =>
      if save_intermediate_results then
        match save_results reference input_ initial with
        | Ok _ => Ok v0
        | Raise e => Raise e
        end
      else Ok v0
  | Raise e => Raise e
  end.

(** [fields] are what the registrations of [full_solutions] hand back, in
    order. *)
Definition registered (reference : Solution)
    (save_intermediate_results reuse_vector_fields : bool) (num_workers : Z)
    (full_solutions : list (ParameterValue * Solution)) (fields : list VelocityField) : Prop :=
  length fields = length full_solutions /\
  forall k input_ v,
    nth_error full_solutions k = Some input_ ->
    nth_error fields k = Some v ->
    registration_value reference save_intermediate_results input_
      (initial_guess reuse_vector_fields num_workers fields k) = Ok v.

(** The events a run may record when the full solutions or velocity
    fields come from the given cache files: no solve with a solutions file,
    no registration and no intermediate result with a fields file. *)
Definition respects_caches (full_solutions_file full_velocity_fields_file : option string)
    (e : event) : Prop :=
  match e with
  | EvSolve _ => given_path full_solutions_file = None
  | EvRegister _ _ _ | EvSave _ => given_path full_velocity_fields_file = None
  | _ => True
  end.

(** A training run on [n_training] training pairs and [n_validation]
    validation pairs. *)
Definition sized_training (n_training n_validation : nat) (e : event) : Prop :=
  match e with
  | EvTrain _ _ training validation =>
      length training = n_training /\ length validation = n_validation
  | _ => True
  end.

(** An event that is no call of the full-order model, of the
    registration or of the trainer, and no file of intermediate results. *)
Definition no_work (e : event) : Prop :=
  match e with
  | EvSolve _ | EvRegister _ _ _ | EvSave _ | EvTrain _ _ _ _ => False
  | _ => True
  end.

(** The best network and loss belong to one and the same restart among
    the first [n], or nothing has been trained yet. *)
Definition of_one_restart (layers : list nat) (training validation : list pair_) (n : nat)
    (best_nn : option Network) (best_loss : option T) : Prop :=
  (n = 0 /\ best_nn = None /\ best_loss = None) \/
  (exists j nn loss,
     j < n /\ train j layers training validation = Ok (nn, loss) /\
     best_nn = Some nn /\ best_loss = Some loss).

(** Every parameter of the training set has [d] components. *)
Definition parameters_of_width (d : nat) (self : reductor) : Prop :=
  Forall (fun mu => length (components mu) = d) (training_set self).

(** The events [added] include a first training run, on a validation set
    that is not empty. *)
Definition trained_once (added : list event) : Prop :=
  exists layers_sizes training validation,
    In (EvTrain 0 layers_sizes training validation) added /\ validation <> [].

(** The trace of [self] is [before] followed by events that satisfy
    [Q]. *)
Definition extends_by (before : list event) (Q : list event -> Prop) (self : reductor)
  : Prop :=
  exists added, trace self = before ++ added /\ Q added.

(** All four normalisation attributes are set. *)
Definition normalization_set (self : reductor) : Prop :=
  exists li hi lo ho,
    min_input self = Some li /\ max_input self = Some hi /\
    min_output self = Some lo /\ max_output self = Some ho.

End Runs.

End ReductorRuns.

(* ===================================================================== *)
(** ** Further stand-ins: collaborators with cache files *)
(* ===================================================================== *)

Module ToyCaches.

Import Reductor.

(** Collaborators over rationals whose two cache files hold two
    solutions and two velocity fields; the full-order model and the
    registration are not available. *)
Definition collaborators_cached : Collaborators Q := {|
  ParameterValue := Q;
  Solution := Q;
  VelocityField := list Q;
  Network := nat;
  components := fun mu => [mu];
  fom_solve := fun mu => Raise (ExternalError "fom");
  gs_register := fun reference u initial => Raise (ExternalError "registration");
  save_results := fun reference input_ initial => Raise (ExternalError "save");
  start_pool := fun num_workers full_solutions => Raise (ExternalError "pool");
  to_numpy_flatten := fun v => v;
  cauchy_navier := fun v => v;
  pod := fun fields modes product => Ok (Np.mk_ndarray [1; 1] [1%Q], [1%Q]);
  load_full_solutions := fun path => Ok [(0%Q, 0%Q); (1%Q, 1%Q); (2%Q, 2%Q)];
  load_full_velocity_fields := fun path => Ok [[0%Q]; [1%Q]; [2%Q]];
  shuffle := fun X l => l;
  shuffle_permutation := fun X l => Permutation_refl l;
  train := fun restart layers training validation =>
    Ok (restart, inject_Z (Z.of_nat restart))
|}.

(** A reductor that was unpickled: its reference solution is given. *)
Definition reductor_cached : @reductor Q collaborators_cached :=
  Toy.reductor_with (C := collaborators_cached) 0%Q 0%Q None None None None.

End ToyCaches.

(* ===================================================================== *)
(** ** nonlinear_mor/models/models.py *)
(* ===================================================================== *)

Module Models.

Import Np NpViews.

(** [isinstance(n, int) and n > 0] *)
Definition positive_int (n : value) : bool :=
  isinstance_int n && (0 <? as_int n)%Z.

Section Analytical.

(** The parameters, and what the exact solution returns. *)
Variables (Mu U : Type).

Record AnalyticalModel : Type := {
  exact_solution : ndarray Q -> Mu -> result U;
  n_x : value;
  n_t : value;
  x_min : Q;
  x_max : Q;
  t_min : Q;
  t_max : Q;
  name : string
}.

(** [AnalyticalModel.__init__] *)
Definition analytical_init (exact_solution : ndarray Q -> Mu -> result U)
    (n_x n_t : value) (x_min x_max t_min t_max : Q) (name : string)
  : result AnalyticalModel :=
  if positive_int n_x then
    if positive_int n_t then
      Ok {| exact_solution := exact_solution;
            n_x := n_x; n_t := n_t;
            x_min := x_min; x_max := x_max;
            t_min := t_min; t_max := t_max;
            name := name |}
    else Raise AssertionError
  else Raise AssertionError.

(** The array [XY] of [AnalyticalModel.solve]: the two grids, meshed,
    transposed and stacked along a new last axis. *)
Definition space_time_grid (self : AnalyticalModel) : result (ndarray Q) :=
  match linspace (x_min self) (x_max self) (as_int (n_x self)) with
  | Ok xs =>
      match linspace (t_min self) (t_max self) (as_int (n_t self)) with
      | Ok ts =>
          match meshgrid 0%Q [xs; ts] with
          | [XX; YY] => stack_last 0%Q [transpose 0%Q XX; transpose 0%Q YY]
          | _ => Raise ValueError
          end
      | Raise e => Raise e
      end
  | Raise e => Raise e
  end.

(** [AnalyticalModel.solve]; the state is what the logger received. *)
Definition analytical_solve (self : AnalyticalModel) (mu : Mu) : M (list log_record) U :=
  XY <- lift (space_time_grid self) ;;
  update (fun log => log ++ [LogBlock "Sampling analytical solution for mu=..." []]) ;;
  lift (exact_solution self XY mu).

End Analytical.

Section Wrapped.

(** The parameters and the entries of the arrays. *)
Variables (Mu A : Type).

(** [geodesic_shooting.core.ScalarFunction]: a wrapper of its data. *)
Record ScalarFunction : Type := {
  to_numpy : ndarray A
}.

(** The wrapped pyMOR model: [model.solve(mu).to_numpy()] and the
    spatial shape. *)
Record WrappedpyMORModel : Type := {
  model_solve : Mu -> result (ndarray A);
  spatial_shape : list nat;
  wrapped_name : string
}.

(** What the logger and pyMOR's [model.visualize] receive. *)
Inductive wrapped_event : Type :=
| WrappedLog (r : log_record)
| WrappedVisualize (U : ndarray A).

(** [WrappedpyMORModel.solve] *)
Definition wrapped_solve (self : WrappedpyMORModel) (mu : Mu)
  : M (list wrapped_event) ScalarFunction :=
  update (fun tr => tr ++ [WrappedLog (LogBlock "Calling pyMOR to solve for mu=..." [])]) ;;
  u <- lift (model_solve self mu) ;;
  n <- lift (shape0 u) ;;
  u <- lift (reshape u (n :: spatial_shape self)) ;;
  ret {| to_numpy := u |}.

(** [WrappedpyMORModel.visualize] *)
Definition wrapped_visualize (self : WrappedpyMORModel) (u : ScalarFunction)
  : M (list wrapped_event) unit :=
  let u := to_numpy u in
  n <- lift (shape0 u) ;;
  U <- lift (reshape_first u n) ;;
  update (fun tr => tr ++ [WrappedVisualize U]).

End Wrapped.

End Models.

(* ===================================================================== *)
(** ** examples/test_registration.py: the projection onto the basis *)
(* ===================================================================== *)

Module RegistrationTest.

Import Reductor.

Section Projection.

Context {T : Type} {NumT : Num T} {C : Collaborators T}.

(** [a.flatten()] of the fields the coefficients are taken of: the
    fields themselves for the L2 product, the product operator applied to
    them otherwise. *)
Definition prod_field (l2_prod : bool) (a : VelocityField) : list T :=
  if l2_prod then to_numpy_flatten a else to_numpy_flatten (cauchy_navier a).

(** [snapshot_matrix.dot(prod_reduced_vector_fields.T).T] for one basis
    size. *)
Definition reduced_coefficients (l2_prod : bool)
    (reduced_vector_fields full_vector_fields : list VelocityField)
  : result (Np.ndarray T) :=
  match Np.stack_rows (map to_numpy_flatten reduced_vector_fields) with
  | Ok snapshot_matrix =>
      match Np.stack_rows (map (prod_field l2_prod) full_vector_fields) with
      | Ok prod_reduced_vector_fields =>
          match Np.dot snapshot_matrix (Np.transpose zero prod_reduced_vector_fields) with
          | Ok c => Ok (Np.transpose zero c)
          | Raise e => Raise e
          end
      | Raise e => Raise e
      end
  | Raise e => Raise e
  end.

(** [(snapshot_matrix.T.dot(reduced_coefficients.T)).T] *)
Definition projected_vector_fields (reduced_vector_fields : list VelocityField)
    (reduced_coefficients : Np.ndarray T) : result (Np.ndarray T) :=
  match Np.stack_rows (map to_numpy_flatten reduced_vector_fields) with
  | Ok snapshot_matrix =>
      match Np.dot (Np.transpose zero snapshot_matrix)
              (Np.transpose zero reduced_coefficients) with
      | Ok p => Ok (Np.transpose zero p)
      | Raise e => Raise e
      end
  | Raise e => Raise e
  end.

End Projection.







End RegistrationTest.

(* ===================================================================== *)
(** * Verification *)
(* ===================================================================== *)
(* ===================================================================== *)
(** ** Facts about arrays *)
(* ===================================================================== *)

Module NpFacts.

Import Np.

Lemma size_app (a b : list nat) : size (a ++ b) = size a * size b.
Proof.
  induction a as [|x a IH]; simpl; [lia|]. rewrite IH. lia.
Qed.

Lemma size_repeat (k d : nat) : size (repeat k d) = k ^ d.
Proof.
  induction d as [|d IH]; simpl; [reflexivity|]. now rewrite IH.
Qed.

Lemma unravel_length (sh : list nat) (r : nat) : length (unravel sh r) = length sh.
Proof.
  revert r. induction sh as [|s sh IH]; intro r; simpl; [reflexivity|].
  now rewrite IH.
Qed.

(** Every digit of an unravelled offset is below its axis length. *)
Lemma unravel_lt (sh : list nat) (r : nat) :
  r < size sh -> Forall2 lt (unravel sh r) sh.
Proof.
  revert r. induction sh as [|s sh IH]; intros r Hr; simpl in *.
  - constructor.
  - assert (Hpos : size sh <> 0) by (intro E; rewrite E in Hr; lia).
    constructor.
    + apply Nat.Div0.div_lt_upper_bound. lia.
    + apply IH. now apply Nat.mod_upper_bound.
Qed.

Lemma ravel_lt (sh idx : list nat) :
  Forall2 lt idx sh -> ravel sh idx < size sh.
Proof.
  intro H. induction H as [|i s idx sh Hi _ IH]; simpl; [lia|]. nia.
Qed.

Lemma ravel_unravel (sh : list nat) (r : nat) :
  r < size sh -> ravel sh (unravel sh r) = r.
Proof.
  revert r. induction sh as [|s sh IH]; intros r Hr; simpl in *.
  - lia.
  - assert (Hpos : size sh <> 0) by (intro E; rewrite E in Hr; lia).
    rewrite IH by now apply Nat.mod_upper_bound.
    pose proof (Nat.div_mod_eq r (size sh)). lia.
Qed.

Lemma unravel_ravel (sh idx : list nat) :
  Forall2 lt idx sh -> unravel sh (ravel sh idx) = idx.
Proof.
  intro H. induction H as [|i s idx sh Hi Hrest IH]; simpl; [reflexivity|].
  pose proof (ravel_lt Hrest) as Hlt.
  assert (Hpos : size sh <> 0) by lia.
  f_equal.
  - rewrite Nat.div_add_l by assumption.
    rewrite Nat.div_small by assumption. lia.
  - rewrite Nat.add_comm, Nat.Div0.mod_add.
    rewrite Nat.mod_small by assumption. exact IH.
Qed.

(** The offset [r * m + c] of an array with a last axis of length [m]
    has last digit [c]; the other digits are those of [r]. *)
Lemma unravel_snoc (sh : list nat) (m r c : nat) :
  c < m -> r < size sh -> unravel (sh ++ [m]) (r * m + c) = unravel sh r ++ [c].
Proof.
  intro Hc. revert r. induction sh as [|s sh IH]; intros r Hr.
  - cbn [app unravel size fold_right] in *.
    assert (r = 0) by lia. subst r.
    rewrite Nat.div_1_r, Nat.mul_0_l, Nat.add_0_l. reflexivity.
  - cbn [app unravel] in *.
    change (size (s :: sh)) with (s * size sh) in Hr.
    assert (Hpos : size sh <> 0) by (intro E; rewrite E in Hr; lia).
    rewrite size_app.
    change (size [m]) with (m * 1). rewrite Nat.mul_1_r.
    assert (Hm : m <> 0) by lia.
    assert (Hq : (r * m + c) / (size sh * m) = r / size sh).
    { rewrite (Nat.mul_comm (size sh) m), <- Nat.Div0.div_div.
      rewrite Nat.div_add_l by assumption.
      rewrite (Nat.div_small c m) by assumption. now rewrite Nat.add_0_r. }
    assert (Hrem : (r * m + c) mod (size sh * m) = (r mod size sh) * m + c).
    { pose proof (Nat.div_mod_eq (r * m + c) (size sh * m)) as E1.
      pose proof (Nat.div_mod_eq r (size sh)) as E2.
      rewrite Hq in E1. nia. }
    rewrite Hq, Hrem. f_equal.
    apply IH. now apply Nat.mod_upper_bound.
Qed.

Section Elements.

Context {A : Type} (dflt : A).

Lemma data_build_length (sh : list nat) (f : list nat -> A) :
  length (data (build sh f)) = size sh.
Proof.
  unfold build. simpl. now rewrite length_map, length_seq.
Qed.

(** Entry [p] of the buffer of [build sh f]. *)
Lemma data_build_nth (sh : list nat) (f : list nat -> A) (p : nat) :
  p < size sh -> nth p (data (build sh f)) dflt = f (unravel sh p).
Proof.
  intro Hp. unfold build. simpl.
  rewrite (nth_indep _ dflt (f (unravel sh 0))) by now rewrite length_map, length_seq.
  rewrite (map_nth (fun r => f (unravel sh r)) (seq 0 (size sh)) 0 p).
  now rewrite seq_nth.
Qed.

Lemma get_build (sh : list nat) (f : list nat -> A) (idx : list nat) :
  Forall2 lt idx sh -> get dflt (build sh f) idx = f idx.
Proof.
  intro H. unfold get. change (shape (build sh f)) with sh.
  rewrite data_build_nth by now apply ravel_lt.
  now rewrite unravel_ravel.
Qed.

Lemma get_transpose (a : ndarray A) (idx : list nat) :
  Forall2 lt idx (rev (shape a)) ->
  get dflt (transpose dflt a) idx = get dflt a (rev idx).
Proof.
  intro H. unfold transpose. now rewrite get_build.
Qed.

End Elements.

End NpFacts.

(* ===================================================================== *)
(** ** Facts about [linspace] *)
(* ===================================================================== *)

Module LinspaceFacts.

Import Np.

Lemma Forall_removelast {A : Type} (P : A -> Prop) (l : list A) :
  Forall P l -> Forall P (removelast l).
Proof.
  induction 1 as [|x l Hx Hl IH]; simpl; [constructor|].
  destruct l; [constructor|]. constructor; assumption.
Qed.

Lemma Forall_set_last {A : Type} (P : A -> Prop) (l : list A) (v : A) :
  Forall P l -> P v -> Forall P (set_last l v).
Proof.
  intros Hl Hv. unfold set_last. apply Forall_app. split.
  - now apply Forall_removelast.
  - now constructor.
Qed.

Lemma set_last_length {A : Type} (l : list A) (v : A) :
  l <> [] -> length (set_last l v) = length l.
Proof.
  intro Hne. unfold set_last.
  destruct (exists_last Hne) as [l' [x ->]].
  rewrite removelast_last, !length_app. reflexivity.
Qed.

Lemma linspace_defined (start stop : Q) (num : Z) :
  (0 <= num)%Z ->
  exists l, linspace start stop num = Ok l /\ length l = Z.to_nat num.
Proof.
  intro Hnum. unfold linspace.
  destruct (Z.ltb_spec num 0) as [Hneg|_]; [lia|].
  eexists. split; [reflexivity|].
  set (n := Z.to_nat num).
  assert (Hlen : forall (f g : Q -> Q) (h : nat -> Q),
             length (map f (map g (map h (seq 0 n)))) = n)
    by (intros; now rewrite !length_map, length_seq).
  destruct (Nat.ltb_spec 1 n) as [Hn|Hn].
  - rewrite set_last_length.
    + destruct (0 <? n - 1); [destruct (Qeq_bool _ _)|]; apply Hlen.
    + intro E. apply (f_equal (@length Q)) in E. simpl in E.
      destruct (0 <? n - 1); [destruct (Qeq_bool _ _)|];
        rewrite Hlen in E; lia.
  - destruct (0 <? n - 1); [destruct (Qeq_bool _ _)|]; apply Hlen.
Qed.

(** Every grid point lies between the two ends of the interval. *)
Lemma linspace_bounds (start stop : Q) (num : Z) (l : list Q) :
  (start <= stop)%Q ->
  linspace start stop num = Ok l ->
  Forall (fun x => (start <= x <= stop)%Q) l.
Proof.
  intros Hle. unfold linspace.
  destruct (Z.ltb_spec num 0) as [Hneg|Hnum]; [discriminate|].
  intro E. injection E as <-.
  set (n := Z.to_nat num).
  assert (Hdelta : (0 <= stop - start)%Q) by lra.
  assert (Hy : Forall (fun x => (start <= x <= stop)%Q)
                 (map (fun v => (v + start)%Q)
                    (if 0 <? n - 1
                     then
                       if Qeq_bool ((stop - start) / inject_Z (Z.of_nat (n - 1))) 0
                       then map (fun v => (v / inject_Z (Z.of_nat (n - 1)) * (stop - start))%Q)
                              (map (fun i => inject_Z (Z.of_nat i)) (seq 0 n))
                       else map (fun v => (v * ((stop - start) / inject_Z (Z.of_nat (n - 1))))%Q)
                              (map (fun i => inject_Z (Z.of_nat i)) (seq 0 n))
                     else map (fun v => (v * (stop - start))%Q)
                            (map (fun i => inject_Z (Z.of_nat i)) (seq 0 n))))).
  { destruct (Nat.ltb_spec 0 (n - 1)) as [Hdv|Hdv].
    - assert (Hdvq : (0 < inject_Z (Z.of_nat (n - 1)))%Q).
      { change 0%Q with (inject_Z 0). rewrite <- Zlt_Qlt. lia. }
      destruct (Qeq_bool _ _) eqn:Hstep.
      + apply Qeq_bool_eq in Hstep.
        assert (Hz : (stop - start == 0)%Q).
        { assert (H0 : (stop - start ==
                        (stop - start) / inject_Z (Z.of_nat (n - 1)) *
                        inject_Z (Z.of_nat (n - 1)))%Q) by (field; lra).
          rewrite H0, Hstep. ring. }
        rewrite !Forall_map. apply Forall_forall. intros i _.
        rewrite Hz. split.
        * ring_simplify. lra.
        * ring_simplify. lra.
      + rewrite !Forall_map. apply Forall_forall. intros i Hi.
        apply in_seq in Hi.
        set (dv := inject_Z (Z.of_nat (n - 1))) in *.
        set (q := inject_Z (Z.of_nat i)).
        assert (Hq0 : (0 <= q)%Q).
        { unfold q. change 0%Q with (inject_Z 0). rewrite <- Zle_Qle. lia. }
        assert (Hqdv : (q <= dv)%Q).
        { unfold q, dv. rewrite <- Zle_Qle. lia. }
        assert (Hs0 : (0 <= (stop - start) / dv)%Q).
        { apply Qle_shift_div_l; [assumption|]. lra. }
        assert (Hprod0 : (0 <= q * ((stop - start) / dv))%Q)
          by now apply Qmult_le_0_compat.
        assert (Hprod1 : (q * ((stop - start) / dv) <= dv * ((stop - start) / dv))%Q)
          by now apply Qmult_le_compat_r.
        assert (Hfull : (dv * ((stop - start) / dv) == stop - start)%Q)
          by (field; lra).
        split; lra.
    - assert (Hn : n <= 1) by lia.
      rewrite !Forall_map. apply Forall_forall. intros i Hi.
      apply in_seq in Hi.
      assert (i = 0) by lia. subst i.
      change (inject_Z (Z.of_nat 0)) with 0%Q. split; lra. }
  destruct (1 <? n); [|exact Hy].
  apply Forall_set_last; [exact Hy|]. split; lra.
Qed.

End LinspaceFacts.

(* ===================================================================== *)
(** ** Facts about the monad *)
(* ===================================================================== *)

Lemma bind_ok {S A B : Type} (m : M S A) (f : A -> M S B) (s s' : S) (a : A) :
  m s = (Ok a, s') -> bind m f s = f a s'.
Proof. intro E. unfold bind. now rewrite E. Qed.

Lemma bind_raise {S A B : Type} (m : M S A) (f : A -> M S B) (s s' : S) (e : exn) :
  m s = (Raise e, s') -> bind m f s = (Raise e, s').
Proof. intro E. unfold bind. now rewrite E. Qed.

(* ===================================================================== *)
(** ** CubicParameterSpace.sample *)
(* ===================================================================== *)

Module SampleFacts.

Import Np NpFacts LinspaceFacts Parameters.

Lemma Forall2_rev {A B : Type} (R : A -> B -> Prop) (l : list A) (l' : list B) :
  Forall2 R l l' -> Forall2 R (rev l) (rev l').
Proof.
  induction 1 as [|x y l l' Hxy _ IH]; simpl; [constructor|].
  apply Forall2_app; [exact IH|]. constructor; [exact Hxy|constructor].
Qed.

Lemma Forall2_nth_lt (idx sh : list nat) (a bound : nat) :
  Forall2 lt idx sh -> Forall (fun s => s = bound) sh -> 0 < bound ->
  nth a idx 0 < bound.
Proof.
  intros H. revert a. induction H as [|i s idx sh Hi _ IH]; intros a Hall Hb.
  - destruct a; simpl; lia.
  - inversion Hall; subst. destruct a; simpl; [lia|]. now apply IH.
Qed.

(** The list comprehension over the extents: one grid per dimension. *)
Lemma linspace_list_defined (extents : list (Q * Q)) (k : Z) (log : list log_record) :
  (0 <= k)%Z ->
  exists ls,
    mapM (fun '(p_min, p_max) => lift (linspace p_min p_max k)) extents log = (Ok ls, log) /\
    Forall2 (fun e l => linspace (fst e) (snd e) k = Ok l) extents ls.
Proof.
  intro Hk. induction extents as [|[lo hi] extents [ls [Hrun Hall]]].
  - exists []. split; [reflexivity|constructor].
  - destruct (linspace_defined lo hi Hk) as [l [Hl _]].
    exists (l :: ls). split.
    + cbn [mapM]. erewrite bind_ok by (unfold lift; now rewrite Hl).
      erewrite bind_ok by exact Hrun. reflexivity.
    + constructor; assumption.
Qed.

Lemma meshgrid_shape_uniform {A : Type} (ls : list (list A)) (K : nat) :
  Forall (fun l => length l = K) ls ->
  meshgrid_shape ls = repeat K (length ls).
Proof.
  intro H. unfold meshgrid_shape.
  assert (E : map (@length A) ls = repeat K (length ls)).
  { induction H as [|l ls Hl _ IH]; simpl; [reflexivity|]. now rewrite Hl, IH. }
  rewrite E. destruct ls as [|a [|b rest]]; reflexivity.
Qed.

(** The stacked grid: its shape, and where each of its entries comes
    from. *)
Lemma stacked_grid (ls : list (list Q)) (K : nat) :
  ls <> [] ->
  Forall (fun l => length l = K) ls ->
  exists stacked,
    stack_last 0%Q (map (transpose 0%Q) (meshgrid 0%Q ls)) = Ok stacked /\
    shape stacked = repeat K (length ls) ++ [length ls] /\
    length (data stacked) = K ^ length ls * length ls /\
    forall r c, r < K ^ length ls -> c < length ls ->
      exists j, j < K /\
        nth (r * length ls + c) (data stacked) 0%Q = nth j (nth c ls []) 0%Q.
Proof.
  intros Hne Hlen.
  pose proof (meshgrid_shape_uniform Hlen) as Hmsh.
  set (d := length ls) in *.
  assert (Hd : 0 < d) by (destruct ls; [congruence|simpl in d; lia]).
  set (G := fun i : nat =>
              build (meshgrid_shape ls)
                (fun idx => nth (nth (meshgrid_axis d i) idx 0) (nth i ls []) 0%Q)).
  assert (Hmesh : meshgrid 0%Q ls = map G (seq 0 d)) by reflexivity.
  set (arrays := map (transpose 0%Q) (meshgrid 0%Q ls)).
  assert (Hshape : forall a, In a arrays -> shape a = repeat K d).
  { intros a Ha. unfold arrays in Ha. rewrite Hmesh, map_map in Ha.
    apply in_map_iff in Ha. destruct Ha as [i [<- _]].
    unfold transpose, G. simpl. now rewrite Hmsh, rev_repeat. }
  assert (Harr_len : length arrays = d).
  { unfold arrays. now rewrite Hmesh, !length_map, length_seq. }
  assert (Hnth : forall c a0, c < d -> nth c arrays a0 = transpose 0%Q (G c)).
  { intros c a0 Hc. unfold arrays. rewrite Hmesh, map_map.
    rewrite (nth_indep _ a0 (transpose 0%Q (G 0)))
      by (rewrite length_map, length_seq; exact Hc).
    rewrite (map_nth (fun i => transpose 0%Q (G i)) (seq 0 d) 0 c).
    now rewrite seq_nth. }
  destruct arrays as [|a0 rest] eqn:Earr; [simpl in Harr_len; lia|].
  unfold stack_last.
  assert (Hall : forallb (fun a => shape_eqb (shape a) (shape a0)) (a0 :: rest) = true).
  { apply forallb_forall. intros a Ha. unfold shape_eqb.
    rewrite (Hshape a Ha), (Hshape a0 (or_introl eq_refl)).
    destruct (list_eq_dec Nat.eq_dec (repeat K d) (repeat K d)); congruence. }
  rewrite Hall. eexists. split; [reflexivity|].
  rewrite (Hshape a0 (or_introl eq_refl)), Harr_len.
  split; [reflexivity|]. split.
  { rewrite data_build_length, size_app, size_repeat. simpl. lia. }
  intros r c Hr Hc.
  assert (HK : 0 < K).
  { destruct K; [|lia]. rewrite Nat.pow_0_l in Hr by lia. lia. }
  rewrite data_build_nth
    by (rewrite size_app, size_repeat; simpl; nia).
  rewrite unravel_snoc by (rewrite ?size_repeat; assumption).
  rewrite last_last, removelast_last, Hnth by assumption.
  pose proof (@unravel_lt (repeat K d) r) as Hidx.
  rewrite size_repeat in Hidx. specialize (Hidx Hr).
  rewrite get_transpose
    by (unfold G; simpl; rewrite Hmsh, rev_repeat; exact Hidx).
  assert (Hrev : Forall2 lt (rev (unravel (repeat K d) r)) (repeat K d)).
  { rewrite <- (rev_repeat d K) at 2. now apply Forall2_rev. }
  unfold G at 1. rewrite Hmsh. rewrite get_build by exact Hrev.
  eexists. split; [|reflexivity].
  apply Forall2_nth_lt with (sh := repeat K d); [exact Hrev| |exact HK].
  apply Forall_forall. intros x Hx. now apply repeat_spec in Hx.
Qed.

Lemma Forall2_nth_rel {A B : Type} (R : A -> B -> Prop) (l : list A) (l' : list B)
    (c : nat) (da : A) (db : B) :
  Forall2 R l l' -> c < length l -> R (nth c l da) (nth c l' db).
Proof.
  intro H. revert c. induction H as [|x y l l' Hxy _ IH]; intros c Hc; simpl in *.
  - lia.
  - destruct c; [exact Hxy|]. apply IH. lia.
Qed.

Lemma linspace_length (start stop : Q) (num : Z) (l : list Q) :
  linspace start stop num = Ok l -> length l = Z.to_nat num.
Proof.
  intro E. destruct (Z.ltb_spec num 0) as [Hneg|Hnum].
  - unfold linspace in E. apply Z.ltb_lt in Hneg. rewrite Hneg in E. discriminate.
  - destruct (linspace_defined start stop Hnum) as [l' [E' Hlen]]. congruence.
Qed.

Section Run.

Variable float_root : Z -> nat -> result Q.

(** What a valid call computes, given the per-dimension count. *)
Lemma sample_run (extents : list (Q * Q)) (num_samples : value) (root : Q)
    (log : list log_record) :
  1 <= length extents ->
  isinstance_int num_samples = true ->
  (1 <= as_int num_samples)%Z ->
  float_root (as_int num_samples) (length extents) = Ok root ->
  (0 <= Qceiling root)%Z ->
  let d := length extents in
  let K := Z.to_nat (Qceiling root) in
  exists a,
    sample float_root (init extents) num_samples (PyStr "uniform") log =
      (Ok a, log ++ [LogInfo "Sampling parameters uniformly ..."
                       [(Qceiling root ^ Z.of_nat d)%Z]]) /\
    shape a = filter (fun n => negb (n =? 1)) [K ^ d; d] /\
    length (data a) = K ^ d * d /\
    forall r c, r < K ^ d -> c < d ->
      exists j l, j < length l /\
        linspace (fst (nth c extents (0, 0)%Q)) (snd (nth c extents (0, 0)%Q))
          (Qceiling root) = Ok l /\
        nth (r * d + c) (data a) 0%Q = nth j l 0%Q.
Proof.
  intros Hd Hint Hn Hroot Hk d K.
  destruct (linspace_list_defined extents (log ++ [LogInfo "Sampling parameters uniformly ..."
                       [(Qceiling root ^ Z.of_nat d)%Z]]) Hk) as [ls [Hrun Hall]].
  assert (Hls_len : length ls = d) by (symmetry; exact (Forall2_length Hall)).
  assert (Hlens : Forall (fun l => length l = K) ls).
  { clear - Hall. induction Hall as [|e l es ls He _ IH]; constructor; [|exact IH].
    exact (linspace_length _ _ _ He). }
  assert (Hne : ls <> []) by (intro E; rewrite E in Hls_len; simpl in Hls_len; lia).
  destruct (stacked_grid Hne Hlens) as [stacked [Hstack [Hsh [Hdata Hentries]]]].
  rewrite Hls_len in *.
  exists (squeeze {| shape := [K ^ d; d]; data := data stacked |}).
  split; [|split; [reflexivity|split; [exact Hdata|]]].
  - unfold sample. cbn [init dim Parameters.extends].
    fold d.
    assert (Hmode : contains [PyStr "uniform"] (PyStr "uniform") = true) by reflexivity.
    rewrite Hmode, Hint. apply Z.leb_le in Hn. rewrite Hn.
    change (py_eq (PyStr "uniform") (PyStr "uniform")) with true.
    cbn [andb assert_]. unfold bind at 1. cbn [ret].
    unfold bind at 1. cbn [ret].
    cbv iota.
    destruct (Nat.eqb_spec d 0) as [E|_]; [lia|].
    unfold bind at 1. cbn [ret].
    fold d in Hroot.
    erewrite bind_ok by (unfold lift; rewrite Hroot; reflexivity).
    erewrite bind_ok by reflexivity.
    erewrite bind_ok by exact Hrun.
    erewrite bind_ok by (unfold lift; rewrite Hstack; reflexivity).
    assert (Hreshape : reshape_rows stacked d =
                       Ok {| shape := [K ^ d; d]; data := data stacked |}).
    { unfold reshape_rows. rewrite Hsh, size_app, size_repeat.
      change (size [d]) with (d * 1). rewrite Nat.mul_1_r.
      rewrite Nat.Div0.mod_mul, Nat.div_mul by lia.
      destruct (Nat.eqb_spec d 0) as [E|_]; [lia|]. reflexivity. }
    erewrite bind_ok by (unfold lift; rewrite Hreshape; reflexivity).
    assert (Hassert : shape_is [K ^ d; d] [(Qceiling root ^ Z.of_nat d)%Z; Z.of_nat d] = true).
    { unfold shape_is. cbn [map].
      replace (Z.of_nat (K ^ d)) with (Qceiling root ^ Z.of_nat d)%Z.
      - destruct (list_eq_dec Z.eq_dec _ _); congruence.
      - unfold K. rewrite Nat2Z.inj_pow, Z2Nat.id by exact Hk. reflexivity. }
    cbn [shape]. rewrite Hassert. reflexivity.
  - intros r c Hr Hc.
    destruct (Hentries r c Hr Hc) as [j [Hj Hval]].
    exists j, (nth c ls []).
    assert (Hrel := @Forall2_nth_rel _ _ _ _ _ c (0, 0)%Q [] Hall Hc).
    cbv beta in Hrel.
    split; [|split; [exact Hrel|exact Hval]].
    rewrite (linspace_length _ _ _ Hrel). exact Hj.
Qed.

End Run.

End SampleFacts.

Module SampleSpec.

Import Np NpFacts LinspaceFacts Parameters SampleFacts.

Lemma Qceiling_pos (q : Q) : (0 < q)%Q -> (1 <= Qceiling q)%Z.
Proof.
  intro Hq. pose proof (Qle_ceiling q) as Hc.
  assert (H0 : (inject_Z 0 < inject_Z (Qceiling q))%Q) by (change (inject_Z 0) with 0%Q; lra).
  rewrite <- Zlt_Qlt in H0. lia.
Qed.

(** The grid that the code returns: a call with [d >= 1] dimensions,
    every extent given as [min <= max], and [n >= 1] returns [k ^ d] points,
    the squeezed array of shape [(k ^ d, d)], where [k] is the ceiling of
    the root the platform computed for [n ** (1 / d)]; every coordinate lies
    within its extent; and whenever [k] is the ceiling of the exact real
    root, the number of points is at least [n]. *)
Lemma sample_uniform_grid (float_root : Z -> nat -> result Q)
    (extents : list (Q * Q)) (num_samples : value) (root : Q) (log : list log_record) :
  1 <= length extents ->
  isinstance_int num_samples = true ->
  (1 <= as_int num_samples)%Z ->
  float_root (as_int num_samples) (length extents) = Ok root ->
  (0 < root)%Q ->
  Forall (fun e => (fst e <= snd e)%Q) extents ->
  let d := length extents in
  let k := Z.to_nat (Qceiling root) in
  exists a log',
    sample float_root (init extents) num_samples (PyStr "uniform") log = (Ok a, log') /\
    shape a = shape (squeeze (mk_ndarray [k ^ d; d] (data a))) /\
    number_of_points a d = k ^ d /\
    (forall r c, r < k ^ d -> c < d ->
       (fst (nth c extents (0, 0)) <= coordinate a d r c <= snd (nth c extents (0, 0)))%Q) /\
    (is_ceil_root (as_int num_samples) d (Qceiling root) ->
       (as_int num_samples <= Z.of_nat (number_of_points a d))%Z).
Proof.
  intros Hd Hint Hn Hroot Hpos Hext d k.
  pose proof (Qceiling_pos Hpos) as Hk.
  destruct (@sample_run float_root extents num_samples root log Hd Hint Hn Hroot
              ltac:(lia)) as [a [Hrun [Hshape [Hlen Hentries]]]].
  fold d in Hshape, Hlen, Hentries. fold k in Hshape, Hlen, Hentries.
  assert (Hcount : number_of_points a d = k ^ d).
  { unfold number_of_points. rewrite Hlen. apply Nat.div_mul. unfold d. lia. }
  exists a. eexists. split; [exact Hrun|]. split; [exact Hshape|].
  split; [exact Hcount|]. split.
  - intros r c Hr Hc.
    destruct (Hentries r c Hr Hc) as [j [l [Hj [Hlin Hval]]]].
    unfold coordinate. rewrite Hval.
    assert (Hle : (fst (nth c extents (0, 0)) <= snd (nth c extents (0, 0)))%Q).
    { rewrite Forall_forall in Hext. apply Hext. now apply nth_In. }
    pose proof (linspace_bounds _ Hle Hlin) as Hall.
    rewrite Forall_forall in Hall. apply Hall. now apply nth_In.
  - intros [_ [_ Hup]]. rewrite Hcount. unfold k.
    rewrite Nat2Z.inj_pow, Z2Nat.id by lia. exact Hup.
Qed.

Lemma sample_uniform_grid_witness :
  exists a log',
    sample float_root_dim1 (init [(0, 1)%Q]) (PyInt 3) (PyStr "uniform") [] = (Ok a, log') /\
    shape a = shape (squeeze (mk_ndarray [3; 1] (data a))) /\
    number_of_points a 1 = 3 /\
    (forall r c, r < 3 -> c < 1 ->
       (fst (nth c [(0, 1)%Q] (0, 0)) <= coordinate a 1 r c <=
        snd (nth c [(0, 1)%Q] (0, 0)))%Q) /\
    (is_ceil_root 3 1 3 -> (3 <= Z.of_nat (number_of_points a 1))%Z).
Proof.
  apply (@sample_uniform_grid float_root_dim1 [(0, 1)%Q] (PyInt 3) 3%Q []).
  - simpl; lia.
  - reflexivity.
  - simpl; lia.
  - reflexivity.
  - reflexivity.
  - repeat constructor; simpl; discriminate.
Defined.

(** On a platform whose [pow] returns the float next above [5] for
    [3125 ** (1 / 5)] -- the value binary64 arithmetic gives, because the
    float nearest to [1 / 5] is larger than [1 / 5] -- the grid has [6]
    points per dimension although the exact fifth root of [3125] is [5]. *)
Lemma sample_rounded_root_overshoots (float_root : Z -> nat -> result Q)
    (extents : list (Q * Q)) (log : list log_record) :
  length extents = 5 ->
  float_root 3125%Z 5 = Ok (5 + 1 / inject_Z (2 ^ 50))%Q ->
  is_ceil_root 3125 5 5 /\
  exists a log',
    sample float_root (init extents) (PyInt 3125) (PyStr "uniform") log = (Ok a, log') /\
    number_of_points a 5 = 6 ^ 5.
Proof.
  intros Hd Hroot. split.
  - unfold is_ceil_root. simpl. lia.
  - assert (Hceil : Qceiling (5 + 1 / inject_Z (2 ^ 50)) = 6%Z) by (vm_compute; reflexivity).
    destruct (@sample_run float_root extents (PyInt 3125) _ log
                ltac:(lia) eq_refl ltac:(simpl; lia)
                ltac:(rewrite Hd; exact Hroot) ltac:(rewrite Hceil; lia))
      as [a [Hrun [_ [Hlen _]]]].
    exists a. eexists. split; [exact Hrun|].
    unfold number_of_points. rewrite Hlen, Hd, Hceil.
    apply Nat.div_mul. lia.
Qed.

(** The binary64 numbers behind [rounding_root]: the float that [1 / 5]
    is evaluates to lies above one fifth, and the float
    [0x1.4000000000001p+2], the one after [5], is [5 + 2^-50]. *)
Lemma fifth_rounded_up :
  exists q, SF2Q (Prim2SF (PrimFloat.div 1 5)) = Some q /\ (1 # 5 < q)%Q.
Proof. eexists. split; [vm_compute; reflexivity|vm_compute; reflexivity]. Qed.

Lemma float_after_five :
  Prim2SF 0x1.4000000000001p+2%float = Prim2SF (PrimFloat.next_up 5) /\
  exists q, SF2Q (Prim2SF 0x1.4000000000001p+2%float) = Some q /\
            (q == 5 + 1 / inject_Z (2 ^ 50))%Q /\
            rounding_root 3125 5 = Ok (5 + 1 / inject_Z (2 ^ 50))%Q.
Proof.
  split; [vm_compute; reflexivity|].
  eexists. split; [vm_compute; reflexivity|]. split; [vm_compute; reflexivity|reflexivity].
Qed.

(** C4, at the failing input: [3125] samples in five dimensions.  The
    exact fifth root of [3125] is [5], so the grid should have [5] points
    per dimension and [5 ^ 5 = 3125] points in all.  With the root as
    binary64 arithmetic computes it, [5.000000000000001], the code takes the
    ceiling [6] and returns [6 ^ 5 = 7776] points. *)
Theorem sample_root_rounded_up (extents : list (Q * Q)) (log : list log_record) :
  length extents = 5 ->
  is_ceil_root 3125 5 5 /\
  exists a log',
    sample rounding_root (init extents) (PyInt 3125) (PyStr "uniform") log = (Ok a, log') /\
    number_of_points a 5 = 6 ^ 5 /\
    Z.of_nat (number_of_points a 5) = 7776%Z /\
    Z.of_nat (5 ^ 5) = 3125%Z.
Proof.
  intro Hd.
  destruct (@sample_rounded_root_overshoots rounding_root extents log Hd eq_refl)
    as [Hroot [a [log' [Hrun Hcount]]]].
  split; [exact Hroot|].
  exists a, log'. split; [exact Hrun|]. split; [exact Hcount|].
  rewrite Hcount. split; vm_compute; reflexivity.
Qed.

Lemma sample_root_rounded_up_witness :
  is_ceil_root 3125 5 5 /\
  exists a log',
    sample rounding_root
      (init [(0, 1)%Q; (0, 1)%Q; (0, 1)%Q; (0, 1)%Q; (0, 1)%Q])
      (PyInt 3125) (PyStr "uniform") [] = (Ok a, log') /\
    number_of_points a 5 = 6 ^ 5 /\
    Z.of_nat (number_of_points a 5) = 7776%Z /\
    Z.of_nat (5 ^ 5) = 3125%Z.
Proof.
  apply (@sample_root_rounded_up [(0, 1)%Q; (0, 1)%Q; (0, 1)%Q; (0, 1)%Q; (0, 1)%Q] []).
  reflexivity.
Defined.



(** Both checks of [sample] fail before anything is logged or computed. *)
Lemma sample_rejects (float_root : Z -> nat -> result Q) (self : CubicParameterSpace)
    (num_samples mode : value) (log : list log_record) :
  py_eq mode (PyStr "uniform") = false \/
  isinstance_int num_samples = false \/
  (as_int num_samples < 1)%Z ->
  sample float_root self num_samples mode log = (Raise AssertionError, log).
Proof.
  intro H. unfold sample, contains. cbn [existsb]. rewrite orb_false_r.
  destruct (py_eq mode (PyStr "uniform")) eqn:Hmode.
  - destruct H as [H|[H|H]]; [discriminate| |].
    + rewrite H. reflexivity.
    + apply Z.leb_gt in H. rewrite H, andb_false_r. reflexivity.
  - reflexivity.
Qed.

End SampleSpec.

(* ===================================================================== *)
(** ** Facts about binary64 arithmetic *)
(* ===================================================================== *)

Module FloatFacts.

(** The comparison of mantissas, written with [Pos.compare]. *)
Ltac fold_compare :=
  repeat match goal with
         | |- context [PosDef.Pos.compare_cont Eq ?p ?q] =>
             change (PosDef.Pos.compare_cont Eq p q) with (Pos.compare p q)
         end.

(** The difference of two equal numbers is a zero, or NaN for equal
    infinities. *)
Lemma SFsub_equal (x y : spec_float) :
  SFeqb x y = true -> sf_zero_or_nan (SF64sub x y).
Proof.
  unfold SFeqb. destruct x as [sx|sx| |sx mx ex], y as [sy|sy| |sy my ey];
    cbn [SFcompare]; try discriminate;
    try (destruct sx; discriminate); try (destruct sy; discriminate).
  - intros _. destruct sx, sy; exact I.
  - destruct sx, sy; try discriminate; intros _; exact I.
  - fold_compare.
    destruct sx, sy; try discriminate;
      destruct (Z.compare_spec ex ey) as [He|He|He]; try discriminate;
      destruct (Pos.compare_spec mx my) as [Hm|Hm|Hm]; try discriminate;
      intros _; subst;
      unfold SF64sub, SFsub;
      change (IntDef.Z.min ey ey) with (Z.min ey ey);
      rewrite Z.min_id; unfold shl_align; rewrite Z.sub_diag; cbn [fst cond_Zopp];
      rewrite ?Z.sub_diag; exact I.
Qed.

(** Dividing by a zero or by NaN never gives a finite number. *)
Lemma SFdiv_zero_or_nan (x d : spec_float) :
  sf_zero_or_nan d -> sf_non_finite (SF64div x d).
Proof.
  destruct d; cbn; try contradiction; intros _; destruct x; exact I.
Qed.

Lemma non_finite_div (x lo hi : float) :
  PrimFloat.eqb hi lo = true ->
  non_finite (PrimFloat.div (PrimFloat.sub x lo) (PrimFloat.sub hi lo)) = true.
Proof.
  intro E. rewrite eqb_spec in E.
  pose proof (SFsub_equal _ _ E) as Hd. rewrite <- sub_spec in Hd.
  pose proof (SFdiv_zero_or_nan (Prim2SF (PrimFloat.sub x lo)) _ Hd) as Hq.
  rewrite <- div_spec in Hq. unfold non_finite.
  destruct (Prim2SF (PrimFloat.div _ _)); try contradiction; reflexivity.
Qed.

(** *** The order of floats *)

Lemma SFcompare_lt_le_trans (x y z : spec_float) :
  SFltb x y = true -> SFleb y z = true -> SFltb x z = true.
Proof.
  unfold SFltb, SFleb.
  destruct x as [sx|sx| |sx mx ex], y as [sy|sy| |sy my ey], z as [sz|sz| |sz mz ez];
    cbn [SFcompare]; fold_compare;
    try discriminate;
    try (destruct sx; discriminate);
    try (destruct sx, sy; discriminate);
    try (destruct sy; discriminate);
    try (destruct sx, sy, sz; try discriminate; reflexivity);
    try (destruct sy, sz; try discriminate; reflexivity);
    try (destruct sx, sz; try discriminate; reflexivity).
  all: destruct sx, sy, sz; try discriminate; try reflexivity.
  all: try (destruct (Z.compare_spec ex ey); try discriminate;
            destruct (Pos.compare_spec mx my); discriminate).
  all: try (intros _; destruct (Z.compare_spec ey ez); try discriminate;
            destruct (Pos.compare_spec my mz); discriminate).
  all: destruct (Z.compare_spec ex ey) as [H1|H1|H1]; try discriminate;
       destruct (Z.compare_spec ey ez) as [H2|H2|H2]; try discriminate;
       destruct (Z.compare_spec ex ez) as [H3|H3|H3]; try lia; try reflexivity;
       try discriminate;
       destruct (Pos.compare_spec mx my) as [K1|K1|K1]; try discriminate;
       destruct (Pos.compare_spec my mz) as [K2|K2|K2]; try discriminate;
       destruct (Pos.compare_spec mx mz) as [K3|K3|K3]; try lia; try reflexivity;
       try discriminate.
Qed.

Lemma SFcompare_not_lt (x y : spec_float) :
  x <> S754_nan -> y <> S754_nan -> SFltb x y = false -> SFleb y x = true.
Proof.
  unfold SFltb, SFleb.
  destruct x as [sx|sx| |sx mx ex], y as [sy|sy| |sy my ey];
    cbn [SFcompare]; fold_compare; intros Hx Hy; try congruence;
    try (destruct sx; (discriminate || reflexivity));
    try (destruct sy; (discriminate || reflexivity)).
  - destruct sx, sy; (discriminate || reflexivity).
  - destruct sx, sy; try (discriminate || reflexivity);
      destruct (Z.compare_spec ex ey) as [H1|H1|H1];
      destruct (Z.compare_spec ey ex) as [H2|H2|H2]; try lia;
      try (discriminate || reflexivity);
      destruct (Pos.compare_spec mx my) as [K1|K1|K1];
      destruct (Pos.compare_spec my mx) as [K2|K2|K2]; try lia;
      (discriminate || reflexivity).
Qed.

Lemma SFleb_refl (x : spec_float) : x <> S754_nan -> SFleb x x = true.
Proof.
  unfold SFleb. destruct x as [sx|sx| |sx mx ex]; cbn [SFcompare]; fold_compare;
    intro Hx; try congruence.
  - destruct sx; reflexivity.
  - rewrite Z.compare_refl, Pos.compare_refl. destruct sx; reflexivity.
Qed.

Lemma is_nan_false (a : float) : PrimFloat.is_nan a = false -> Prim2SF a <> S754_nan.
Proof.
  unfold PrimFloat.is_nan. rewrite eqb_spec. intros H E. rewrite E in H. discriminate.
Qed.

Lemma ltb_leb_trans (a b c : float) :
  PrimFloat.ltb a b = true -> PrimFloat.leb b c = true -> PrimFloat.ltb a c = true.
Proof. rewrite !ltb_spec, leb_spec. apply SFcompare_lt_le_trans. Qed.

Lemma not_ltb_leb (a b : float) :
  PrimFloat.is_nan a = false -> PrimFloat.is_nan b = false ->
  PrimFloat.ltb a b = false -> PrimFloat.leb b a = true.
Proof.
  intros Ha Hb. rewrite ltb_spec, leb_spec.
  apply SFcompare_not_lt; now apply is_nan_false.
Qed.

Lemma leb_refl (a : float) : PrimFloat.is_nan a = false -> PrimFloat.leb a a = true.
Proof. intro Ha. rewrite leb_spec. now apply SFleb_refl, is_nan_false. Qed.

Lemma ltb_leb (a b : float) : PrimFloat.ltb a b = true -> PrimFloat.leb a b = true.
Proof.
  rewrite ltb_spec, leb_spec. unfold SFltb, SFleb.
  destruct (SFcompare _ _) as [[| |]|]; congruence.
Qed.

Lemma is_nan_true (a : float) : PrimFloat.is_nan a = true -> Prim2SF a = S754_nan.
Proof.
  unfold PrimFloat.is_nan. rewrite eqb_spec. unfold SFeqb.
  destruct (Prim2SF a) as [s|s| |s m e]; cbn [SFcompare]; fold_compare;
    try reflexivity; try (destruct s; discriminate).
  rewrite Z.compare_refl, Pos.compare_refl. destruct s; discriminate.
Qed.

(** Nothing is below NaN, and NaN is below nothing. *)
Lemma ltb_nan_r (a b : float) : PrimFloat.is_nan b = true -> PrimFloat.ltb a b = false.
Proof.
  intro H. apply is_nan_true in H. rewrite ltb_spec, H. unfold SFltb.
  destruct (Prim2SF a); reflexivity.
Qed.

Lemma ltb_number (a b : float) : PrimFloat.ltb a b = true -> PrimFloat.is_nan a = false.
Proof.
  intro H. destruct (PrimFloat.is_nan a) eqn:E; [|reflexivity].
  apply is_nan_true in E. rewrite ltb_spec, E in H. discriminate.
Qed.

End FloatFacts.

Lemma bind_inv {S A B : Type} (m : M S A) (f : A -> M S B) (s s' : S) (r : result B) :
  bind m f s = (r, s') ->
  (exists a s1, m s = (Ok a, s1) /\ f a s1 = (r, s')) \/
  (exists e, m s = (Raise e, s') /\ r = Raise e).
Proof.
  unfold bind. destruct (m s) as [[a|e] s1]; intro E.
  - left. now exists a, s1.
  - right. exists e. now inversion E.
Qed.

(* ===================================================================== *)
(** ** NonlinearNeuralNetworkReductor: tensors *)
(* ===================================================================== *)

Module ReductorFacts.

Import Reductor.

Section Tensors.

Context {T : Type} {NumT : Num T} {C : Collaborators T}.

(** Scaling keeps the number of entries of a tensor. *)
Lemma scale_length (lo hi : T) (data : list T) : length (scale lo hi data) = length data.
Proof. apply length_map. Qed.

End Tensors.

End ReductorFacts.

Module ReductorSpec.

Import Reductor ReductorFacts.

(** A run on the stand-ins: three restarts are trained, each on a network
    with layers [1, 20, 20, 1]. *)
Example reduce_trains_three_restarts :
  map (fun e => match e with
                | EvTrain restart layers _ _ => Some (restart, layers)
                | _ => None
                end)
      (filter (fun e => match e with EvTrain _ _ _ _ => true | _ => false end)
         (trace (snd (@reduce Q Num_Q Toy.collaborators_Q (PyInt 1) true (PyInt 3) false
                        [20; 20] 1%Z None None true Toy.reductor_three)))) =
  [Some (0, [1; 20; 20; 1]); Some (1, [1; 20; 20; 1]); Some (2, [1; 20; 20; 1])].
Proof. vm_compute. reflexivity. Qed.

(** The configuration checks of [reduce] fail before anything is recorded
    or computed: the reductor is returned unchanged. *)
Lemma reduce_rejects {T : Type} {NumT : Num T} {C : Collaborators T}
    (max_basis_size : value) (return_all : bool) (restarts : value)
    (save : bool) (hidden_layers : list nat) (num_workers : Z)
    (full_solutions_file full_velocity_fields_file : option string) (reuse : bool)
    (self : reductor) :
  isinstance_int max_basis_size = false \/ (as_int max_basis_size <= 0)%Z \/
  isinstance_int restarts = false \/ (as_int restarts <= 0)%Z ->
  reduce max_basis_size return_all restarts save hidden_layers num_workers
    full_solutions_file full_velocity_fields_file reuse self = (Raise AssertionError, self).
Proof.
  intro H. unfold reduce.
  destruct (isinstance_int max_basis_size && (0 <? as_int max_basis_size)%Z) eqn:E1;
    [|reflexivity].
  destruct (isinstance_int restarts && (0 <? as_int restarts)%Z) eqn:E2;
    [|reflexivity].
  apply andb_prop in E1, E2. destruct E1 as [I1 P1], E2 as [I2 P2].
  apply Z.ltb_lt in P1, P2.
  destruct H as [H|[H|[H|H]]]; try congruence; lia.
Qed.

(** C8: configuration errors fail fast.  [sample] raises for a mode other
    than ['uniform'] and for a number of samples that is not an integer or
    is below one, before it logs or computes anything; [reduce] raises for
    a [max_basis_size] or [restarts] that is not an integer or is not
    positive, before any full solution, registration or training: its trace
    is unchanged. *)
Theorem configuration_errors_fail_fast {T : Type} {NumT : Num T} {C : Collaborators T}
    (float_root : Z -> nat -> result Q) (space : Parameters.CubicParameterSpace)
    (num_samples mode : value) (log : list log_record)
    (max_basis_size : value) (return_all : bool) (restarts : value)
    (save : bool) (hidden_layers : list nat) (num_workers : Z)
    (full_solutions_file full_velocity_fields_file : option string) (reuse : bool)
    (self : reductor) :
  (py_eq mode (PyStr "uniform") = false \/
   isinstance_int num_samples = false \/ (as_int num_samples < 1)%Z ->
   Parameters.sample float_root space num_samples mode log = (Raise AssertionError, log)) /\
  (isinstance_int max_basis_size = false \/ (as_int max_basis_size <= 0)%Z \/
   isinstance_int restarts = false \/ (as_int restarts <= 0)%Z ->
   reduce max_basis_size return_all restarts save hidden_layers num_workers
     full_solutions_file full_velocity_fields_file reuse self = (Raise AssertionError, self)).
Proof.
  split.
  - apply SampleSpec.sample_rejects.
  - apply reduce_rejects.
Qed.

Lemma configuration_errors_fail_fast_witness :
  Parameters.sample Parameters.float_root_dim1 (Parameters.init [(0, 1)%Q])
    (PyInt 0) (PyStr "uniform") [] = (Raise AssertionError, []) /\
  @reduce Q Num_Q Toy.collaborators_Q (PyInt 0) true (PyInt 3) false [20; 20] 1%Z
    None None true Toy.reductor_Q =
    (Raise AssertionError,
     Toy.reductor_Q).
Proof.
  split.
  - apply (proj1 (@configuration_errors_fail_fast Q Num_Q Toy.collaborators_Q
                    Parameters.float_root_dim1 (Parameters.init [(0, 1)%Q])
                    (PyInt 0) (PyStr "uniform") []
                    (PyInt 0) true (PyInt 3) false [20; 20] 1%Z None None true
                    Toy.reductor_Q)).
    right. right. simpl. lia.
  - apply (proj2 (@configuration_errors_fail_fast Q Num_Q Toy.collaborators_Q
                    Parameters.float_root_dim1 (Parameters.init [(0, 1)%Q])
                    (PyInt 0) (PyStr "uniform") []
                    (PyInt 0) true (PyInt 3) false [20; 20] 1%Z None None true
                    Toy.reductor_Q)).
    right. left. simpl. lia.
Defined.

(** [int(0.1 * n)] is the integer quotient of [n] by ten. *)
Lemma int_tenth_div (n : nat) : int_tenth n = n / 10.
Proof.
  unfold int_tenth, Qfloor. cbn [Qmult Qnum Qden inject_Z].
  rewrite Z.mul_1_l. change (Z.pos (10 * 1)) with (Z.of_nat 10).
  rewrite <- Nat2Z.inj_div. apply Nat2Z.id.
Qed.

(** C5, as the code has it: the validation set is the first
    [int(0.1 * n) + 1] elements of the shuffled list and the training set
    is what follows index [int(0.1 * n) + 1]; for [n >= 2] exactly the
    element at that index is in neither set, and for [n <= 1] no element is
    left out: the validation set is the whole list and the training set is
    empty. *)
Theorem validation_split {X : Type} (l : list X) :
  let v := int_tenth (length l) in
  validation_slice l = firstn (v + 1) l /\
  training_slice l = skipn (v + 2) l /\
  (2 <= length l ->
     length (validation_slice l) = v + 1 /\
     exists x, nth_error l (v + 1) = Some x /\
               l = validation_slice l ++ [x] ++ training_slice l) /\
  (length l <= 1 -> validation_slice l = l /\ training_slice l = []).
Proof.
  intro v. split; [reflexivity|]. split; [reflexivity|].
  assert (Hv : v = length l / 10) by apply int_tenth_div.
  unfold validation_slice, training_slice. fold v.
  split.
  - intro Hn.
    assert (Hlt : v + 1 < length l).
    { rewrite Hv. pose proof (Nat.Div0.mul_div_le (length l) 10). lia. }
    split; [rewrite length_firstn; lia|].
    destruct (nth_error l (v + 1)) as [x|] eqn:Ex;
      [|apply nth_error_None in Ex; lia].
    exists x. split; [reflexivity|].
    replace (v + 2) with (S (v + 1)) by lia.
    symmetry. apply firstn_skipn_middle. exact Ex.
  - intro Hn. split.
    + apply firstn_all2. lia.
    + apply skipn_all2. lia.
Qed.

Lemma validation_split_witness :
  validation_slice [1; 2; 3] = firstn (int_tenth 3 + 1) [1; 2; 3] /\
  training_slice [1; 2; 3] = skipn (int_tenth 3 + 2) [1; 2; 3] /\
  (2 <= 3 ->
     length (validation_slice [1; 2; 3]) = int_tenth 3 + 1 /\
     exists x, nth_error [1; 2; 3] (int_tenth 3 + 1) = Some x /\
               [1; 2; 3] = validation_slice [1; 2; 3] ++ [x] ++ training_slice [1; 2; 3]) /\
  (3 <= 1 -> validation_slice [1; 2; 3] = [1; 2; 3] /\ training_slice [1; 2; 3] = []).
Proof.
  exact (validation_split [1; 2; 3]).
Defined.

(** C5, counterexample: with a single training pair the validation set is
    that pair, the training set is empty, index [int(0.1 * 1) + 1 = 1] does
    not exist, and no pair is left out. *)
Lemma validation_split_single_pair_counterexample :
  nth_error Toy.training_pair (int_tenth (length Toy.training_pair) + 1) = None /\
  validation_slice Toy.training_pair ++ training_slice Toy.training_pair = Toy.training_pair /\
  ~ (exists x, Toy.training_pair =
               validation_slice Toy.training_pair ++ [x] ++ training_slice Toy.training_pair).
Proof.
  split; [reflexivity|]. split; [reflexivity|].
  intros [x Hx]. apply (f_equal (@length _)) in Hx.
  vm_compute in Hx. discriminate.
Qed.

(** What [compute_normalization] leaves behind when it returns. *)
Lemma compute_normalization_sets {T : Type} {NumT : Num T} {C : Collaborators T}
    (training validation : list pair_) (self0 self : reductor) :
  compute_normalization training validation self0 = (Ok tt, self) ->
  exists li hi lo ho,
    np_min (map fst (training ++ validation)) = Ok li /\
    np_max (map fst (training ++ validation)) = Ok hi /\
    np_min (map snd (training ++ validation)) = Ok lo /\
    np_max (map snd (training ++ validation)) = Ok ho /\
    min_input self = Some li /\ max_input self = Some hi /\
    min_output self = Some lo /\ max_output self = Some ho /\
    trace self = trace self0.
Proof.
  unfold compute_normalization, bind, lift, set_min_input, set_max_input,
    set_min_output, set_max_output, update.
  destruct (np_min (map fst (training ++ validation))) as [li|]; [|discriminate].
  destruct (np_max (map fst (training ++ validation))) as [hi|]; [|discriminate].
  destruct (np_min (map snd (training ++ validation))) as [lo|]; [|discriminate].
  destruct (np_max (map snd (training ++ validation))) as [ho|]; [|discriminate].
  intro E. injection E as <-.
  exists li, hi, lo, ho. cbn. repeat split; reflexivity.
Qed.

Lemma attr_some {T : Type} {C : Collaborators T} (field : reductor -> option T)
    (self : reductor) (v : T) :
  field self = Some v -> attr field self = (Ok v, self).
Proof. intro E. unfold attr. now rewrite E. Qed.

(** Scaling back undoes scaling, in exact arithmetic, when the range is
    not empty. *)
Lemma unscale_scale (lo hi : Q) (x : list Q) :
  ~ (hi == lo)%Q -> Forall2 Qeq (unscale lo hi (scale lo hi x)) x.
Proof.
  intro Hne. unfold unscale, scale. rewrite map_map.
  induction x as [|a x IH]; cbn [map]; constructor; [|exact IH].
  cbn [mul add sub div Num_Q]. field. intro E. apply Hne. lra.
Qed.

(** C6: after [compute_normalization] has set output bounds with
    [max_output != min_output], [denormalize_output] undoes
    [normalize_output], in exact arithmetic. *)
Theorem denormalize_inverts_normalize {C : Collaborators Q}
    (training validation : list pair_) (self0 self : reductor) :
  compute_normalization training validation self0 = (Ok tt, self) ->
  exists lo hi,
    min_output self = Some lo /\ max_output self = Some hi /\
    (~ (hi == lo)%Q ->
     forall x, exists y x',
       normalize_output x self = (Ok y, self) /\
       denormalize_output y self = (Ok x', self) /\
       Forall2 Qeq x' x).
Proof.
  intro Hrun.
  destruct (compute_normalization_sets _ _ _ Hrun)
    as [li [hi [lo [ho [_ [_ [_ [_ [_ [_ [Hlo [Hho _]]]]]]]]]]]].
  exists lo, ho. split; [exact Hlo|]. split; [exact Hho|].
  intros Hne x. exists (scale lo ho x), (unscale lo ho (scale lo ho x)).
  split; [|split].
  - unfold normalize_output.
    erewrite bind_ok by (apply attr_some; exact Hlo).
    erewrite bind_ok by (apply attr_some; exact Hho). reflexivity.
  - unfold denormalize_output.
    erewrite bind_ok by (apply attr_some; exact Hho).
    erewrite bind_ok by (apply attr_some; exact Hlo). reflexivity.
  - now apply unscale_scale.
Qed.

Lemma denormalize_inverts_normalize_witness :
  exists lo hi,
    min_output (snd (compute_normalization Toy.training_pair Toy.validation_pair
                       Toy.reductor_Q)) = Some lo /\
    max_output (snd (compute_normalization Toy.training_pair Toy.validation_pair
                       Toy.reductor_Q)) = Some hi /\
    (~ (hi == lo)%Q ->
     forall x, exists y x',
       normalize_output x (snd (compute_normalization Toy.training_pair Toy.validation_pair
                                  Toy.reductor_Q)) =
         (Ok y, snd (compute_normalization Toy.training_pair Toy.validation_pair
                       Toy.reductor_Q)) /\
       denormalize_output y (snd (compute_normalization Toy.training_pair
                                    Toy.validation_pair Toy.reductor_Q)) =
         (Ok x', snd (compute_normalization Toy.training_pair Toy.validation_pair
                        Toy.reductor_Q)) /\
       Forall2 Qeq x' x).
Proof.
  apply (@denormalize_inverts_normalize Toy.collaborators_Q Toy.training_pair
           Toy.validation_pair Toy.reductor_Q).
  reflexivity.
Defined.

(** C7, as the code has it: when the stored input bounds are equal,
    [normalize_input] divides by zero without any guard, and no error is
    raised: the call returns, and every entry of the tensor it returns is
    NaN or an infinity, never a finite number. *)
Theorem normalize_input_zero_range {C : Collaborators float}
    (self : reductor) (lo hi : float) (data : list float) :
  min_input self = Some lo ->
  max_input self = Some hi ->
  PrimFloat.eqb hi lo = true ->
  exists out,
    normalize_input data self = (Ok out, self) /\
    length out = length data /\
    Forall (fun y => non_finite y = true) out.
Proof.
  intros Hlo Hhi Heq. exists (scale lo hi data). split; [|split].
  - unfold normalize_input.
    erewrite bind_ok by (apply attr_some; exact Hlo).
    erewrite bind_ok by (apply attr_some; exact Hhi). reflexivity.
  - apply scale_length.
  - unfold scale. rewrite Forall_map. apply Forall_forall. intros x _.
    cbn [div sub Num_float]. now apply FloatFacts.non_finite_div.
Qed.

Lemma normalize_input_zero_range_witness :
  exists out,
    normalize_input [PrimFloat.one; PrimFloat.two] (Toy.reductor_unit_range Toy.three_losses) =
      (Ok out, Toy.reductor_unit_range Toy.three_losses) /\
    length out = 2 /\
    Forall (fun y => non_finite y = true) out.
Proof.
  apply (@normalize_input_zero_range (Toy.collaborators_float Toy.three_losses)
           (Toy.reductor_unit_range Toy.three_losses) PrimFloat.one PrimFloat.one
           [PrimFloat.one; PrimFloat.two]).
  - reflexivity.
  - reflexivity.
  - vm_compute. reflexivity.
Defined.

(** C7, counterexample: with both input bounds equal to one, normalising
    the parameter one raises nothing; the call returns the tensor [[nan]]. *)
Lemma normalize_input_returns_nan_counterexample :
  normalize_input [PrimFloat.one] (Toy.reductor_unit_range Toy.three_losses) =
    (Ok [PrimFloat.nan], Toy.reductor_unit_range Toy.three_losses) /\
  ~ (exists e, fst (normalize_input [PrimFloat.one]
                      (Toy.reductor_unit_range Toy.three_losses)) = Raise e).
Proof.
  split.
  - vm_compute. reflexivity.
  - intros [e He]. vm_compute in He. discriminate.
Qed.

Section Registration.

Context {T : Type} {NumT : Num T} {C : Collaborators T}.

Lemma registrations_app (a b : list event) :
  registrations (a ++ b) = registrations a ++ registrations b.
Proof. unfold registrations. apply flat_map_app. Qed.

(** A single registration records exactly one call, with the initial
    guess it was given and its outcome; a field that the call returns is
    that outcome. *)
Lemma perform_single_registration_spec (input_ : ParameterValue * Solution)
    (initial : option VelocityField) (save : bool) (s s' : reductor)
    (r : result VelocityField) :
  perform_single_registration input_ initial save s = (r, s') ->
  exists added outcome,
    trace s' = trace s ++ added /\
    registrations added = [(input_, initial, outcome)] /\
    (forall v, r = Ok v -> outcome = Ok v).
Proof.
  unfold perform_single_registration. destruct input_ as [mu u].
  unfold bind, read, emit, update, lift. cbn [trace].
  destruct (gs_register (reference_solution s) u initial) as [v|e] eqn:E.
  - destruct save; cbn [reference_solution].
    + destruct (save_results (reference_solution s) (mu, u) initial) as [[]|e];
        intro H; injection H as <- <-; cbn [trace]; rewrite <- ?app_assoc;
        exists ([EvRegister (mu, u) initial (Ok v)] ++ [EvSave mu]), (Ok v);
        (split; [reflexivity|split; [reflexivity|]]); [trivial|discriminate].
    + intro H; injection H as <- <-; cbn [trace].
      exists [EvRegister (mu, u) initial (Ok v)], (Ok v).
      split; [reflexivity|split; [reflexivity|trivial]].
  - intro H. injection H as <- <-. cbn [trace].
    exists [EvRegister (mu, u) initial (Raise e)], (Raise e).
    split; [reflexivity|split; [reflexivity|discriminate]].
Qed.

Lemma register_sequentially_spec (reuse save : bool) (sols : list (ParameterValue * Solution))
    (i : nat) (fields : list VelocityField) (s s' : reductor)
    (r : result (list VelocityField)) :
  register_sequentially reuse save sols i fields s = (r, s') ->
  exists added,
    trace s' = trace s ++ added /\
    chained reuse (if reuse && (0 <? i) then hd_error (rev fields) else None)
      (registrations added) /\
    aligned sols (registrations added).
Proof.
  revert i fields s. induction sols as [|input_ rest IH]; intros i fields s;
    cbn [register_sequentially].
  - intro E. inversion E; subst. exists []. rewrite app_nil_r.
    split; [reflexivity|]. split; intros [|k] ? ? ? H; discriminate.
  - intro E.
    apply bind_inv in E. destruct E as [[initial [s1 [E1 E2]]]|[e [E1 ->]]].
    + (* the initial guess has been chosen *)
      assert (Hinit : exists log, trace s1 = trace s ++ log /\ registrations log = [] /\
                initial = if reuse && (0 <? i) then hd_error (rev fields) else None).
      { destruct (reuse && (0 <? i)).
        - unfold last_item in E1. destruct (rev fields) as [|x xs].
          + unfold bind, raise in E1. discriminate.
          + unfold bind, ret, emit, update in E1. injection E1 as <- <-.
            eexists. split; [reflexivity|]. split; reflexivity.
        - inversion E1; subst. exists []. rewrite app_nil_r. repeat split. }
      destruct Hinit as [log [Hlog [Hnoreg Hinitial]]].
      apply bind_inv in E2. destruct E2 as [[v0 [s2 [E2 E3]]]|[e [E2 ->]]].
      * destruct (perform_single_registration_spec _ _ _ _ E2) as [ad [out0 [Had [Hreg Hout]]]].
        rewrite (Hout v0 eq_refl) in Hreg.
        destruct (IH _ _ _ E3) as [ad' [Had' [Hchain Halign]]].
        exists (log ++ ad ++ ad'). split.
        { rewrite Had', Had, Hlog, !app_assoc. reflexivity. }
        rewrite !registrations_app, Hnoreg, Hreg. cbn [app].
        split.
        -- intros [|k] inp ini out H; cbn [nth_error] in H.
           ++ injection H as <- <- <-. exact Hinitial.
           ++ pose proof (Hchain _ _ _ _ H) as Hk. destruct k as [|k].
              ** exists input_, initial, v0. split; [reflexivity|].
                 rewrite Hk, rev_app_distr. cbn.
                 rewrite andb_true_r. reflexivity.
              ** destruct Hk as [pi [pin [v [Hp Hv]]]].
                 exists pi, pin, v. split; [exact Hp|exact Hv].
        -- intros [|k] inp ini out H; cbn [nth_error] in H.
           ++ injection H as <- <- <-. reflexivity.
           ++ cbn [nth_error]. exact (Halign _ _ _ _ H).
      * destruct (perform_single_registration_spec _ _ _ _ E2) as [ad [out0 [Had [Hreg _]]]].
        exists (log ++ ad). split.
        { rewrite Had, Hlog, app_assoc. reflexivity. }
        rewrite registrations_app, Hnoreg, Hreg. cbn [app].
        split.
        -- intros [|[|k]] inp ini out H; cbn [nth_error] in H; try discriminate.
           injection H as <- <- <-. exact Hinitial.
        -- intros [|[|k]] inp ini out H; cbn [nth_error] in H; try discriminate.
           injection H as <- <- <-. reflexivity.
    + (* [full_velocity_fields[-1]] raised *)
      exists []. rewrite app_nil_r.
      assert (Hs : trace s' = trace s).
      { destruct (reuse && (0 <? i)).
        - unfold last_item in E1. destruct (rev fields) as [|x xs].
          + inversion E1; subst. reflexivity.
          + unfold bind, ret, emit, update in E1. discriminate.
        - inversion E1. }
      split; [exact Hs|]. split; intros [|k] ? ? ? H; discriminate.
Qed.

Lemma register_in_parallel_spec (save : bool) (sols : list (ParameterValue * Solution))
    (s s' : reductor) (r : result (list VelocityField)) :
  mapM (fun input_ => perform_single_registration input_ None save) sols s = (r, s') ->
  exists added,
    trace s' = trace s ++ added /\
    (forall k input_ initial outcome,
       nth_error (registrations added) k = Some (input_, initial, outcome) ->
       initial = None) /\
    aligned sols (registrations added).
Proof.
  revert s r. induction sols as [|input_ rest IH]; intros s r; cbn [mapM].
  - intro E. inversion E; subst. exists []. rewrite app_nil_r.
    split; [reflexivity|]. split; intros [|k] ? ? ? H; discriminate.
  - intro E.
    apply bind_inv in E. destruct E as [[v0 [s1 [E1 E2]]]|[e [E1 ->]]].
    + destruct (perform_single_registration_spec _ _ _ _ E1) as [ad [out0 [Had [Hreg _]]]].
      apply bind_inv in E2. destruct E2 as [[vs [s2 [E2 E3]]]|[e [E2 ->]]].
      * inversion E3; subst.
        destruct (IH _ _ E2) as [ad' [Had' [Hnone Halign]]].
        exists (ad ++ ad'). split; [rewrite Had', Had, app_assoc; reflexivity|].
        rewrite registrations_app, Hreg. cbn [app].
        split; intros [|k] inp ini out H; cbn [nth_error] in H.
        -- now injection H as <- <- <-.
        -- exact (Hnone _ _ _ _ H).
        -- now injection H as <- <- <-.
        -- exact (Halign _ _ _ _ H).
      * destruct (IH _ _ E2) as [ad' [Had' [Hnone Halign]]].
        exists (ad ++ ad'). split; [rewrite Had', Had, app_assoc; reflexivity|].
        rewrite registrations_app, Hreg. cbn [app].
        split; intros [|k] inp ini out H; cbn [nth_error] in H.
        -- now injection H as <- <- <-.
        -- exact (Hnone _ _ _ _ H).
        -- now injection H as <- <- <-.
        -- exact (Halign _ _ _ _ H).
    + destruct (perform_single_registration_spec _ _ _ _ E1) as [ad [out0 [Had [Hreg _]]]].
      exists ad. split; [exact Had|]. rewrite Hreg.
      split; intros [|[|k]] inp ini out H; cbn [nth_error] in H; try discriminate.
      * now injection H as <- <- <-.
      * now injection H as <- <- <-.
Qed.

End Registration.

(** C3, as the code has it: without a cache file, registration [k] of the
    list gets the field produced by registration [k - 1] as its initial
    guess when [num_workers <= 1], [reuse_vector_fields] holds and
    [k >= 1], and no initial guess in every other case; the branch taken
    for [num_workers > 1] never supplies one. *)
Theorem registration_initial_guess {T : Type} {NumT : Num T} {C : Collaborators T}
    (full_solutions : list (ParameterValue * Solution)) (save : bool) (num_workers : Z)
    (file : option string) (reuse : bool) (self : reductor) :
  given_path file = None ->
  exists added,
    trace (snd (register_full_solutions full_solutions save num_workers file reuse self)) =
      trace self ++ added /\
    forall k input_ initial outcome,
      nth_error (registrations added) k = Some (input_, initial, outcome) ->
      nth_error full_solutions k = Some input_ /\
      if (num_workers <=? 1)%Z && reuse && (0 <? k) then
        exists prev_input prev_initial v,
          nth_error (registrations added) (k - 1) = Some (prev_input, prev_initial, Ok v) /\
          initial = Some v
      else initial = None.
Proof.
  intro Hfile. unfold register_full_solutions. rewrite Hfile.
  destruct (bind _ _ self) as [r s'] eqn:E. cbn [snd].
  apply bind_inv in E. destruct E as [[u [s1 [E1 E2]]]|[e [E1 _]]];
    [|unfold emit, update in E1; discriminate].
  unfold emit, update in E1. injection E1 as _ <-. cbn [trace] in *.
  destruct (Z.ltb_spec 1 num_workers) as [Hpar|Hseq].
  - assert (Hcond : (num_workers <=? 1)%Z = false) by (apply Z.leb_gt; lia).
    apply bind_inv in E2. destruct E2 as [[u' [s2 [E2 E3]]]|[e [E2 _]]].
    + assert (Hwarn : exists w, trace s2 =
                (trace self ++ [EvLog (LogBlock "Computing mappings and vector fields ..." [])]) ++ w
                /\ registrations w = []).
      { destruct reuse.
        - unfold emit, update in E2. injection E2 as _ <-. cbn [trace].
          eexists. split; reflexivity.
        - inversion E2; subst. exists []. now rewrite app_nil_r. }
      destruct Hwarn as [w [Hw Hwreg]].
      apply bind_inv in E3. destruct E3 as [[u'' [s3 [E3 E4]]]|[e [E3 _]]].
      * (* the tasks have been dispatched *)
        unfold lift in E3. injection E3 as _ <-.
        destruct (register_in_parallel_spec _ _ _ E4) as [ad [Had [Hnone Halign]]].
        exists ([EvLog (LogBlock "Computing mappings and vector fields ..." [])] ++ w ++ ad).
        split; [rewrite Had, Hw, !app_assoc; reflexivity|].
        rewrite !registrations_app, Hwreg. cbn [registrations flat_map app].
        intros k inp ini out H. rewrite Hcond. cbn [andb].
        split; [exact (Halign _ _ _ _ H)|exact (Hnone _ _ _ _ H)].
      * (* the dispatch raised: nothing is registered *)
        unfold lift in E3. injection E3 as _ <-.
        exists ([EvLog (LogBlock "Computing mappings and vector fields ..." [])] ++ w).
        split; [rewrite Hw, !app_assoc; reflexivity|].
        rewrite !registrations_app, Hwreg. cbn [registrations flat_map app].
        intros [|k] inp ini out H; discriminate.
    + destruct reuse; [unfold emit, update in E2; discriminate|inversion E2].
  - assert (Hcond : (num_workers <=? 1)%Z = true) by (apply Z.leb_le; lia).
    destruct (register_sequentially_spec _ _ _ _ _ _ E2) as [ad [Had [Hchain Halign]]].
    exists ([EvLog (LogBlock "Computing mappings and vector fields ..." [])] ++ ad).
    split; [rewrite Had, !app_assoc; reflexivity|].
    rewrite registrations_app. cbn [registrations flat_map app].
    intros k inp ini out H. rewrite Hcond. cbn [andb].
    split; [exact (Halign _ _ _ _ H)|].
    pose proof (Hchain _ _ _ _ H) as Hk. destruct k as [|k].
    + change (0 <? 0) with false in *. rewrite andb_false_r in *. exact Hk.
    + change (0 <? S k) with true. rewrite andb_true_r. destruct Hk as [pi [pin [v [Hp Hv]]]].
      replace (S k - 1) with k by lia.
      destruct reuse; [|exact Hv].
      exists pi, pin, v. split; assumption.
Qed.


Lemma registration_initial_guess_witness :
  exists added,
    trace (snd (@register_full_solutions Q Toy.collaborators_Q Toy.two_solutions false 1%Z
                  None true Toy.reductor_Q)) = trace Toy.reductor_Q ++ added /\
    forall k input_ initial outcome,
      nth_error (registrations added) k = Some (input_, initial, outcome) ->
      nth_error Toy.two_solutions k = Some input_ /\
      if (1 <=? 1)%Z && true && (0 <? k) then
        exists prev_input prev_initial v,
          nth_error (registrations added) (k - 1) = Some (prev_input, prev_initial, Ok v) /\
          initial = Some v
      else initial = None.
Proof.
  apply (@registration_initial_guess Q Num_Q Toy.collaborators_Q Toy.two_solutions false
           1%Z None true Toy.reductor_Q).
  reflexivity.
Defined.

(** C3, counterexample: with [num_workers = 0], which is not [1], and
    [reuse_vector_fields] set, the second registration is given the field
    of the first as its initial guess. *)
Lemma registration_zero_workers_counterexample :
  exists first_field outcome,
    registrations
      (trace (snd (@register_full_solutions Q Toy.collaborators_Q Toy.two_solutions false
                     0%Z None true Toy.reductor_Q))) =
      [(((1 # 2)%Q, (1 # 2)%Q), None, Ok first_field);
       (((3 # 2)%Q, (3 # 2)%Q), Some first_field, outcome)] /\
    Some first_field <>
      (if (0 =? 1)%Z && true && (0 <? 1) then Some first_field else None).
Proof.
  eexists. eexists. split; [vm_compute; reflexivity|discriminate].
Qed.

Section Restarts.

Context {T : Type} {NumT : Num T} {C : Collaborators T}.

Lemma train_neural_network_run (restart : nat) (layers : list nat)
    (training validation : list pair_) (s : reductor) :
  exists s1,
    train_neural_network restart layers training validation s =
      (train restart layers training validation, s1).
Proof. unfold train_neural_network, bind, emit, update, lift. eexists. reflexivity. Qed.

(** A restart whose training raises ends the loop with that exception. *)
Lemma restarts_loop_raise (layers : list nat) (training validation : list pair_)
    (remaining restart : nat) (best_nn : option Network) (best_loss : option T)
    (s : reductor) (j : nat) (e : exn) :
  restart <= j < restart + remaining ->
  (forall i, restart <= i < j -> exists p, train i layers training validation = Ok p) ->
  train j layers training validation = Raise e ->
  exists s',
    restarts_loop layers training validation remaining restart best_nn best_loss s =
      (Raise e, s').
Proof.
  revert restart best_nn best_loss s.
  induction remaining as [|remaining IH]; intros restart best_nn best_loss s Hj Hok Hraise;
    [lia|].
  cbn [restarts_loop].
  destruct (train_neural_network_run restart layers training validation s) as [s1 E1].
  destruct (Nat.eq_dec restart j) as [->|Hne].
  - rewrite Hraise in E1. exists s1. now apply bind_raise.
  - destruct (Hok restart ltac:(lia)) as [[nn loss] Hp]. rewrite Hp in E1.
    erewrite bind_ok by exact E1. cbv iota beta.
    destruct (improves best_loss loss); apply IH; try assumption; try lia;
      intros i Hi; apply Hok; lia.
Qed.

End Restarts.

Section Selection.

Context {C : Collaborators float}.

Variables (layers : list nat) (training validation : list (@pair_ float)).
Variables (nn : nat -> Network) (loss : nat -> float).

(** A best restart whose loss is a number is replaced by a later restart
    exactly when that one's loss is lower; a NaN loss never replaces it. *)
Lemma restarts_loop_best (remaining restart j : nat) (s : reductor) :
  (forall i, i < restart + remaining ->
     train i layers training validation = Ok (nn i, loss i)) ->
  first_lowest loss j restart ->
  exists j' s',
    restarts_loop layers training validation remaining restart
      (Some (nn j)) (Some (loss j)) s = (Ok (Some (nn j'), Some (loss j')), s') /\
    first_lowest loss j' (restart + remaining).
Proof.
  revert restart j s.
  induction remaining as [|remaining IH]; intros restart j s Hall Hbest.
  - exists j, s. rewrite Nat.add_0_r. split; [reflexivity|exact Hbest].
  - cbn [restarts_loop].
    destruct (train_neural_network_run restart layers training validation s) as [s1 E1].
    rewrite (Hall restart ltac:(lia)) in E1.
    erewrite bind_ok by exact E1. cbv iota beta.
    destruct Hbest as [Hj [Hnanj [Hle Hlt]]].
    unfold improves. cbn [ltb Num_float].
    replace (restart + S remaining) with (S restart + remaining) in * by lia.
    destruct (PrimFloat.ltb (loss restart) (loss j)) eqn:Hcmp.
    + apply IH; [exact Hall|]. split; [lia|].
      split; [exact (FloatFacts.ltb_number Hcmp)|]. split.
      * intros i Hi Hnan. destruct (Nat.eq_dec i restart) as [->|Hne].
        -- now apply FloatFacts.leb_refl.
        -- apply FloatFacts.ltb_leb.
           apply FloatFacts.ltb_leb_trans with (b := loss j); [exact Hcmp|].
           apply Hle; [lia|exact Hnan].
      * intros i Hi Hnan.
        apply FloatFacts.ltb_leb_trans with (b := loss j); [exact Hcmp|].
        apply Hle; assumption.
    + apply IH; [exact Hall|]. split; [lia|]. split; [exact Hnanj|]. split.
      * intros i Hi Hnan. destruct (Nat.eq_dec i restart) as [->|Hne].
        -- now apply FloatFacts.not_ltb_leb.
        -- apply Hle; [lia|exact Hnan].
      * exact Hlt.
Qed.

(** A best loss that is NaN is never replaced. *)
Lemma restarts_loop_nan (remaining restart : nat) (best_nn : option Network)
    (best_loss : float) (s : reductor) :
  (forall i, i < restart + remaining ->
     train i layers training validation = Ok (nn i, loss i)) ->
  PrimFloat.is_nan best_loss = true ->
  exists s',
    restarts_loop layers training validation remaining restart best_nn (Some best_loss) s =
      (Ok (best_nn, Some best_loss), s').
Proof.
  revert restart s.
  induction remaining as [|remaining IH]; intros restart s Hall Hnan.
  - exists s. reflexivity.
  - cbn [restarts_loop].
    destruct (train_neural_network_run restart layers training validation s) as [s1 E1].
    rewrite (Hall restart ltac:(lia)) in E1.
    erewrite bind_ok by exact E1. cbv iota beta.
    unfold improves. cbn [ltb Num_float].
    rewrite (@FloatFacts.ltb_nan_r (loss restart) best_loss Hnan).
    apply IH; [|exact Hnan]. intros i Hi. apply Hall. lia.
Qed.

Lemma restarts_loop_first (n : nat) (s : reductor) :
  (forall i, i < S n -> train i layers training validation = Ok (nn i, loss i)) ->
  (PrimFloat.is_nan (loss 0) = false ->
   exists j s',
     restarts_loop layers training validation (S n) 0 None None s =
       (Ok (Some (nn j), Some (loss j)), s') /\
     first_lowest loss j (S n)) /\
  (PrimFloat.is_nan (loss 0) = true ->
   exists s',
     restarts_loop layers training validation (S n) 0 None None s =
       (Ok (Some (nn 0), Some (loss 0)), s')).
Proof.
  intro Hall. cbn [restarts_loop].
  destruct (train_neural_network_run 0 layers training validation s) as [s1 E1].
  rewrite (Hall 0 ltac:(lia)) in E1.
  erewrite bind_ok by exact E1. cbv iota beta. cbn [improves].
  split; intro Hnan.
  - assert (Hfirst : first_lowest loss 0 1).
    { split; [lia|]. split; [exact Hnan|]. split.
      - intros i Hi _. assert (i = 0) by lia. subst i. now apply FloatFacts.leb_refl.
      - intros i Hi. lia. }
    exact (@restarts_loop_best n 1 0 s1 ltac:(intros i Hi; apply Hall; lia) Hfirst).
  - exact (@restarts_loop_nan n 1 (Some (nn 0)) (loss 0) s1
             ltac:(intros i Hi; apply Hall; lia) Hnan).
Qed.

End Selection.

(** C2, as the code has it: for [restarts >= 1], when the training of
    every restart returns, the call returns the network and loss of one
    restart.  If the loss of the first restart is a number, it is the first
    restart with the lowest loss among the restarts whose loss is a number:
    a restart that ends with a NaN loss after it is passed over.  If the
    loss of the first restart is NaN, the first restart is returned,
    whatever the later losses are.  And a restart whose training raises is
    not skipped: the exception ends the call. *)
Theorem multiple_restarts_training_selects {C : Collaborators float}
    (training validation : list (@pair_ float)) (layers : list nat)
    (restarts : Z) (self : reductor) :
  (1 <= restarts)%Z ->
  (forall (nn : nat -> Network) (loss : nat -> float),
     (forall i, i < Z.to_nat restarts ->
        train i layers training validation = Ok (nn i, loss i)) ->
     (PrimFloat.is_nan (loss 0) = false ->
      exists j self',
        multiple_restarts_training training validation layers restarts self =
          (Ok (Some (nn j), Some (loss j)), self') /\
        first_lowest loss j (Z.to_nat restarts)) /\
     (PrimFloat.is_nan (loss 0) = true ->
      exists self',
        multiple_restarts_training training validation layers restarts self =
          (Ok (Some (nn 0), Some (loss 0)), self'))) /\
  (forall j e,
     j < Z.to_nat restarts ->
     (forall i, i < j -> exists p, train i layers training validation = Ok p) ->
     train j layers training validation = Raise e ->
     exists self',
       multiple_restarts_training training validation layers restarts self =
         (Raise e, self')).
Proof.
  intro Hrestarts. unfold multiple_restarts_training.
  destruct (Z.to_nat restarts) as [|n] eqn:En; [lia|].
  set (s0 := snd (emit (EvLog (LogBlock "Performing restarts of neural network training ..."
                                 [restarts])) self)).
  assert (Hemit : emit (EvLog (LogBlock "Performing restarts of neural network training ..."
                                 [restarts])) self = (Ok tt, s0)) by reflexivity.
  split.
  - intros nn loss Hall.
    destruct (@restarts_loop_first C layers training validation nn loss n s0 Hall)
      as [Hnumber Hnan].
    split; intro H0.
    + destruct (Hnumber H0) as [j [s1 [Hloop Hbest]]].
      exists j. eexists. split; [|exact Hbest].
      erewrite bind_ok by exact Hemit.
      erewrite bind_ok by exact Hloop.
      erewrite bind_ok by reflexivity. reflexivity.
    + destruct (Hnan H0) as [s1 Hloop].
      eexists.
      erewrite bind_ok by exact Hemit.
      erewrite bind_ok by exact Hloop.
      erewrite bind_ok by reflexivity. reflexivity.
  - intros j e Hj Hok Hraise.
    destruct (@restarts_loop_raise float Num_float C layers training validation (S n) 0
                None None s0 j e ltac:(lia)
                ltac:(intros i Hi; apply Hok; lia) Hraise) as [s' Hloop].
    exists s'. erewrite bind_ok by exact Hemit. now apply bind_raise.
Qed.

Lemma multiple_restarts_training_selects_witness :
  (exists j self',
     @multiple_restarts_training float Num_float (Toy.collaborators_float Toy.nan_second)
       [] [] [1] 3%Z (Toy.reductor_unit_range Toy.nan_second) =
       (Ok (Some j, Some (Toy.nan_second_of j)), self') /\
     first_lowest Toy.nan_second_of j 3) /\
  fst (@multiple_restarts_training float Num_float (Toy.collaborators_float Toy.nan_second)
         [] [] [1] 3%Z (Toy.reductor_unit_range Toy.nan_second)) =
    Ok (Some 2, Some 0.25%float) /\
  (exists self',
     @multiple_restarts_training float Num_float (Toy.collaborators_float Toy.nan_first)
       [] [] [1] 3%Z (Toy.reductor_unit_range Toy.nan_first) =
       (Ok (Some 0, Some (Toy.nan_first_of 0)), self')) /\
  (exists self',
     @multiple_restarts_training float Num_float (Toy.collaborators_float Toy.diverging_first)
       [] [] [1] 3%Z (Toy.reductor_unit_range Toy.diverging_first) =
       (Raise (ExternalError "diverged"), self')).
Proof.
  split; [|split; [|split]].
  - apply (proj1 (proj1 (@multiple_restarts_training_selects
                           (Toy.collaborators_float Toy.nan_second) [] [] [1] 3%Z
                           (Toy.reductor_unit_range Toy.nan_second) ltac:(lia))
                    (fun i => i) Toy.nan_second_of
                    ltac:(intros [|[|[|i]]] Hi; reflexivity))).
    vm_compute. reflexivity.
  - vm_compute. reflexivity.
  - apply (proj2 (proj1 (@multiple_restarts_training_selects
                           (Toy.collaborators_float Toy.nan_first) [] [] [1] 3%Z
                           (Toy.reductor_unit_range Toy.nan_first) ltac:(lia))
                    (fun i => i) Toy.nan_first_of
                    ltac:(intros [|[|[|i]]] Hi; reflexivity))).
    vm_compute. reflexivity.
  - apply (proj2 (@multiple_restarts_training_selects
                    (Toy.collaborators_float Toy.diverging_first) [] [] [1] 3%Z
                    (Toy.reductor_unit_range Toy.diverging_first) ltac:(lia))
             0 (ExternalError "diverged")).
    + vm_compute. lia.
    + intros i Hi. lia.
    + reflexivity.
Defined.

(** C2, counterexample: when the first of two restarts raises, the call
    raises as well although the second restart would have trained a
    network with loss [0.5]; and when the first restart ends with a NaN loss,
    that restart is returned as the best one although the second restart
    ended with the loss [0.5]. *)
Lemma restart_failure_aborts_counterexample :
  fst (@multiple_restarts_training float Num_float (Toy.collaborators_float Toy.diverging_first)
         [] [] [1] 2%Z (Toy.reductor_unit_range Toy.diverging_first)) =
    Raise (ExternalError "diverged") /\
  Toy.diverging_first 1 = Ok (1, 0.5%float) /\
  fst (@multiple_restarts_training float Num_float (Toy.collaborators_float Toy.nan_first)
         [] [] [1] 2%Z (Toy.reductor_unit_range Toy.nan_first)) =
    Ok (Some 0, Some PrimFloat.nan) /\
  Toy.nan_first 1 = Ok (1, 0.5%float).
Proof.
  repeat split; vm_compute; reflexivity.
Qed.

Section Projection.

Context {T : Type} {NumT : Num T} {C : Collaborators T}.

Lemma nth_concat_uniform {A : Type} (rows : list (list A)) (D i k : nat) (d : A) :
  Forall (fun r => length r = D) rows -> i < length rows -> k < D ->
  nth (i * D + k) (concat rows) d = nth k (nth i rows []) d.
Proof.
  intro H. revert i. induction H as [|r rows Hr _ IH]; intros i Hi Hk; cbn in *; [lia|].
  destruct i as [|i].
  - cbn. apply app_nth1. lia.
  - rewrite app_nth2 by lia. rewrite Hr.
    replace (S i * D + k - D) with (i * D + k) by lia.
    apply IH; [lia|exact Hk].
Qed.

Lemma stack_rows_inv {A : Type} (rows : list (list A)) (a : Np.ndarray A) :
  Np.stack_rows rows = Ok a ->
  exists D,
    Forall (fun r => length r = D) rows /\
    a = Np.mk_ndarray [length rows; D] (concat rows).
Proof.
  unfold Np.stack_rows. destruct rows as [|r0 rest]; [discriminate|].
  destruct (forallb _ _) eqn:Hall; [|discriminate].
  intro E. injection E as <-. exists (length r0). split; [|reflexivity].
  apply Forall_forall. intros r Hr.
  rewrite forallb_forall in Hall. apply Nat.eqb_eq. now apply Hall.
Qed.

Lemma get_rows {A : Type} (d : A) (rows : list (list A)) (D i k : nat) :
  Forall (fun r => length r = D) rows -> i < length rows -> k < D ->
  Np.get d (Np.mk_ndarray [length rows; D] (concat rows)) [i; k] =
  nth k (nth i rows []) d.
Proof.
  intros H Hi Hk. unfold Np.get. cbn [Np.shape Np.data Np.ravel Np.size fold_right].
  replace (i * (D * 1) + (k * 1 + 0)) with (i * D + k) by lia.
  now apply nth_concat_uniform.
Qed.

Lemma fold_left_ext_in {A B : Type} (f g : A -> B -> A) (l : list B) (a : A) :
  (forall x y, In y l -> f x y = g x y) -> fold_left f l a = fold_left g l a.
Proof.
  revert a. induction l as [|y l IH]; intros a H; cbn; [reflexivity|].
  rewrite H by now left. apply IH. intros x z Hz. apply H. now right.
Qed.

Lemma sum_upto_ext (n : nat) (f g : nat -> T) :
  (forall k, k < n -> f k = g k) -> Np.sum_upto n f = Np.sum_upto n g.
Proof.
  intro H. unfold Np.sum_upto. apply fold_left_ext_in.
  intros x k Hk. apply in_seq in Hk. rewrite H by lia. reflexivity.
Qed.

(** The entries of a matrix product. *)
Lemma dot_inv (a b c : Np.ndarray T) :
  Np.dot a b = Ok c ->
  exists m n p,
    Np.shape a = [m; n] /\ Np.shape b = [n; p] /\ Np.shape c = [m; p] /\
    length (Np.data c) = m * p /\
    forall i j, i < m -> j < p ->
      Np.get zero c [i; j] =
      Np.sum_upto n (fun k => mul (Np.get zero a [i; k]) (Np.get zero b [k; j])).
Proof.
  unfold Np.dot.
  destruct (Np.shape a) as [|m [|n [|? ?]]]; try discriminate.
  destruct (Np.shape b) as [|n' [|p [|? ?]]]; try discriminate.
  destruct (Nat.eqb_spec n n') as [<-|]; [|discriminate].
  intro E. injection E as <-. exists m, n, p. repeat split.
  - rewrite NpFacts.data_build_length. cbn. lia.
  - intros i j Hi Hj. rewrite NpFacts.get_build by (repeat constructor; assumption).
    reflexivity.
Qed.

Lemma transpose_matrix (a : Np.ndarray T) (m n : nat) :
  Np.shape a = [m; n] ->
  Np.shape (Np.transpose zero a) = [n; m] /\
  forall i j, i < n -> j < m ->
    Np.get zero (Np.transpose zero a) [i; j] = Np.get zero a [j; i].
Proof.
  intro Hs. split; [unfold Np.transpose; cbn; now rewrite Hs|].
  intros i j Hi Hj. rewrite NpFacts.get_transpose; [reflexivity|].
  rewrite Hs. repeat constructor; assumption.
Qed.

(** A matrix whose transpose has two axes has two axes itself. *)
Lemma transpose_shape_inv (a : Np.ndarray T) (n p : nat) :
  Np.shape (Np.transpose zero a) = [n; p] -> Np.shape a = [p; n].
Proof.
  unfold Np.transpose. cbn [Np.shape Np.build]. intro H.
  apply (f_equal (@rev nat)) in H. rewrite rev_involutive in H. exact H.
Qed.

(** Entry [k] of row [j] of a matrix. *)
Lemma row_entry {A : Type} (d : A) (a : Np.ndarray A) (r D j k : nat) :
  Np.shape a = [r; D] -> k < D -> nth k (Np.row a j) d = Np.get d a [j; k].
Proof.
  intros Hs Hk. unfold Np.row, Np.get. rewrite Hs.
  cbn [nth Np.ravel Np.size fold_right].
  rewrite nth_firstn, nth_skipn.
  destruct (Nat.ltb_spec k D) as [_|]; [|lia].
  f_equal. lia.
Qed.

(** The product of a stack of rows with the transpose of another stack:
    its entries are the Euclidean dot products of the rows. *)
Lemma stacked_product (rows_a rows_b : list (list T)) (a b c : Np.ndarray T) :
  Np.stack_rows rows_a = Ok a -> Np.stack_rows rows_b = Ok b ->
  Np.dot a (Np.transpose zero b) = Ok c ->
  (exists D, Forall (fun r => length r = D) rows_a /\
             Forall (fun r => length r = D) rows_b) /\
  Np.shape c = [length rows_a; length rows_b] /\
  forall i j, i < length rows_a -> j < length rows_b ->
    Np.get zero c [i; j] = Np.vdot (nth i rows_a []) (nth j rows_b []).
Proof.
  intros Ea Eb Ec.
  destruct (stack_rows_inv _ Ea) as [D [Hrows ->]].
  destruct (stack_rows_inv _ Eb) as [D' [Hbasis ->]].
  destruct (dot_inv _ _ Ec) as [m [n [p [Ha [Hb [Hc [_ Hentries]]]]]]].
  cbn [Np.shape] in Ha. injection Ha as <- <-.
  apply transpose_shape_inv in Hb. cbn [Np.shape] in Hb. injection Hb as <- ->.
  split; [now exists D|]. split; [exact Hc|].
  intros i j Hi Hj. rewrite Hentries by assumption.
  assert (Hlen : length (nth i rows_a []) = D).
  { rewrite Forall_forall in Hrows. apply Hrows, nth_In, Hi. }
  unfold Np.vdot. rewrite Hlen. apply sum_upto_ext. intros k Hk.
  destruct (transpose_matrix
              (Np.mk_ndarray [length rows_b; D] (concat rows_b)) eq_refl) as [_ Hget].
  rewrite Hget by assumption.
  now rewrite !get_rows by assumption.
Qed.

(** What the code computes: entry [(i, j)] of the reduced coefficients is
    the Euclidean dot product of the flattened velocity field [i] with row
    [j] of the basis; the product operator does not occur. *)
Lemma reduced_coefficients_entry (full_velocity_fields : list VelocityField)
    (reduced_velocity_fields coefficients : Np.ndarray T)
    (i j : nat) (v : VelocityField) :
  reduced_coefficients_of full_velocity_fields reduced_velocity_fields = Ok coefficients ->
  nth_error full_velocity_fields i = Some v ->
  j < nth 0 (Np.shape reduced_velocity_fields) 0 ->
  Np.get zero coefficients [i; j] =
    Np.vdot (to_numpy_flatten v) (Np.row reduced_velocity_fields j).
Proof.
  unfold reduced_coefficients_of.
  destruct (Np.stack_rows (map to_numpy_flatten full_velocity_fields))
    as [snapshot_matrix|] eqn:Es; [|discriminate].
  destruct (stack_rows_inv _ Es) as [D [Hrows ->]].
  intros Ec Hv Hj.
  destruct (dot_inv _ _ Ec) as [m [n [p [Ha [Hb [Hc [_ Hentries]]]]]]].
  cbn [Np.shape] in Ha. injection Ha as <- <-.
  apply transpose_shape_inv in Hb.
  rewrite Hb in Hj. cbn [nth] in Hj.
  assert (Hi : i < length full_velocity_fields) by (apply nth_error_Some; congruence).
  rewrite Hentries by (rewrite ?length_map; assumption).
  assert (Hlen : length (to_numpy_flatten v) = D).
  { rewrite Forall_forall in Hrows. apply Hrows. apply in_map.
    eapply nth_error_In; exact Hv. }
  unfold Np.vdot. rewrite Hlen. apply sum_upto_ext. intros k Hk.
  destruct (transpose_matrix reduced_velocity_fields Hb) as [_ Hget].
  rewrite Hget by assumption.
  rewrite get_rows by (rewrite ?length_map; assumption).
  rewrite (row_entry zero reduced_velocity_fields j Hb Hk).
  f_equal.
  rewrite (nth_indep _ [] (to_numpy_flatten v)) by (rewrite length_map; exact Hi).
  rewrite map_nth. f_equal. f_equal. now apply nth_error_nth.
Qed.

End Projection.

(** C1, at the failing input: one velocity field [[1]] and the basis
    [[1/2]], which has norm one under the product operator [4 * identity].
    The code computes the coefficient [1/2], the Euclidean dot product; the
    inner product under the product operator is [2]. *)
Theorem projection_ignores_product_operator :
  exists coefficients,
    reduced_coefficients_of (C := Toy.collaborators_Q) [[1%Q]]
      (Np.mk_ndarray [1; 1] [(1 # 2)%Q]) = Ok coefficients /\
    (Np.get 0%Q coefficients [0%nat; 0%nat] == 1 # 2)%Q /\
    (product_inner (C := Toy.collaborators_Q) [1%Q] [(1 # 2)%Q] == 2)%Q /\
    ~ (Np.get 0%Q coefficients [0%nat; 0%nat] ==
       product_inner (C := Toy.collaborators_Q) [1%Q] [(1 # 2)%Q])%Q.
Proof.
  eexists. split; [vm_compute; reflexivity|]. split; [|split].
  - vm_compute. reflexivity.
  - vm_compute. reflexivity.
  - vm_compute. discriminate.
Qed.

End ReductorSpec.

(* ===================================================================== *)
(** ** CubicParameterSpace.sample: the points of the grid *)
(* ===================================================================== *)

Module SampleGridFacts.

Import Np NpFacts LinspaceFacts Parameters SampleFacts SampleGrid.

Lemma firstn_skipn_nths {A : Type} (dflt : A) (l : list A) (start n : nat) :
  start + n <= length l ->
  firstn n (skipn start l) = map (fun c => nth (start + c) l dflt) (seq 0 n).
Proof.
  intro H. apply (nth_ext _ _ dflt dflt).
  - rewrite length_firstn, length_skipn, length_map, length_seq. lia.
  - intros i Hi. rewrite length_firstn, length_skipn in Hi.
    rewrite nth_firstn. destruct (Nat.ltb_spec i n) as [Hin|]; [|lia].
    rewrite nth_skipn.
    set (g := fun c => nth (start + c) l dflt).
    rewrite (nth_indep (map g (seq 0 n)) dflt (g 0)) by (rewrite length_map, length_seq; lia).
    rewrite (map_nth g), seq_nth by lia. reflexivity.
Qed.

Lemma meshgrid_axis_lt (d c : nat) : c < d -> meshgrid_axis d c < d.
Proof.
  intro Hc. unfold meshgrid_axis.
  destruct (Nat.ltb_spec 1 d); [|exact Hc].
  destruct c as [|[|c]]; lia.
Qed.

Lemma meshgrid_axis_involutive (d c : nat) :
  c < d -> meshgrid_axis d (meshgrid_axis d c) = c.
Proof.
  intro Hc. unfold meshgrid_axis.
  destruct (Nat.ltb_spec 1 d); [|reflexivity].
  destruct c as [|[|c]]; reflexivity.
Qed.

(** The quotient by [a] of a remainder modulo [a * b]. *)
Lemma div_of_mod_mul (r a b : nat) : a <> 0 -> (r mod (a * b)) / a = (r / a) mod b.
Proof.
  intro Ha. rewrite Nat.Div0.mod_mul_r.
  rewrite (Nat.mul_comm a), Nat.div_add by exact Ha.
  rewrite (Nat.div_small (r mod a) a) by (apply Nat.mod_upper_bound; exact Ha).
  reflexivity.
Qed.

Lemma mod_pow_mod (x k e : nat) : (x mod k ^ S e) mod k = x mod k.
Proof.
  cbn [Nat.pow]. rewrite Nat.Div0.mod_mul_r.
  rewrite Nat.mul_comm, Nat.Div0.mod_add. apply Nat.Div0.mod_mod.
Qed.

(** The digits of a row in base [k]. *)
Lemma unravel_digit (k d r i : nat) :
  r < k ^ d -> i < d ->
  nth i (unravel (repeat k d) r) 0 = (r / k ^ (d - 1 - i)) mod k.
Proof.
  revert r i. induction d as [|d IH]; intros r i Hr Hi; [lia|].
  assert (Hk : k <> 0).
  { intro E. subst k. rewrite Nat.pow_0_l in Hr by lia. lia. }
  cbn [repeat unravel]. rewrite size_repeat.
  destruct i as [|i].
  - cbn [nth]. replace (S d - 1 - 0) with d by lia.
    symmetry. apply Nat.mod_small.
    apply Nat.Div0.div_lt_upper_bound. cbn [Nat.pow] in Hr. lia.
  - cbn [nth]. replace (S d - 1 - S i) with (d - 1 - i) by lia.
    assert (Hpos : k ^ d <> 0) by now apply Nat.pow_nonzero.
    rewrite IH by (try apply Nat.mod_upper_bound; try assumption; lia).
    assert (Hsplit : k ^ d = k ^ (d - 1 - i) * k ^ S i).
    { rewrite <- Nat.pow_add_r. f_equal. lia. }
    rewrite Hsplit at 1.
    rewrite div_of_mod_mul by now apply Nat.pow_nonzero.
    apply mod_pow_mod.
Qed.

Lemma grid_index_unravel (d k r c : nat) :
  r < k ^ d -> c < d ->
  nth (meshgrid_axis d c) (rev (unravel (repeat k d) r)) 0 = grid_index d k r c.
Proof.
  intros Hr Hc. pose proof (meshgrid_axis_lt Hc) as Ha.
  rewrite rev_nth by (rewrite unravel_length, repeat_length; exact Ha).
  rewrite unravel_length, repeat_length.
  rewrite unravel_digit by (try assumption; lia).
  unfold grid_index. do 3 f_equal. lia.
Qed.

(** The stacked grid: where each of its entries comes from. *)
Lemma stacked_grid_entries (ls : list (list Q)) (K : nat) :
  ls <> [] ->
  Forall (fun l => length l = K) ls ->
  exists stacked,
    stack_last 0%Q (map (transpose 0%Q) (meshgrid 0%Q ls)) = Ok stacked /\
    shape stacked = repeat K (length ls) ++ [length ls] /\
    length (data stacked) = K ^ length ls * length ls /\
    forall r c, r < K ^ length ls -> c < length ls ->
      nth (r * length ls + c) (data stacked) 0%Q =
      nth (grid_index (length ls) K r c) (nth c ls []) 0%Q.
Proof.
  intros Hne Hlen.
  pose proof (meshgrid_shape_uniform Hlen) as Hmsh.
  set (d := length ls) in *.
  assert (Hd : 0 < d) by (destruct ls; [congruence|simpl in d; lia]).
  set (G := fun i : nat =>
              build (meshgrid_shape ls)
                (fun idx => nth (nth (meshgrid_axis d i) idx 0) (nth i ls []) 0%Q)).
  assert (Hmesh : meshgrid 0%Q ls = map G (seq 0 d)) by reflexivity.
  set (arrays := map (transpose 0%Q) (meshgrid 0%Q ls)).
  assert (Hshape : forall a, In a arrays -> shape a = repeat K d).
  { intros a Ha. unfold arrays in Ha. rewrite Hmesh, map_map in Ha.
    apply in_map_iff in Ha. destruct Ha as [i [<- _]].
    unfold transpose, G. simpl. now rewrite Hmsh, rev_repeat. }
  assert (Harr_len : length arrays = d).
  { unfold arrays. now rewrite Hmesh, !length_map, length_seq. }
  assert (Hnth : forall c a0, c < d -> nth c arrays a0 = transpose 0%Q (G c)).
  { intros c a0 Hc. unfold arrays. rewrite Hmesh, map_map.
    rewrite (nth_indep _ a0 (transpose 0%Q (G 0)))
      by (rewrite length_map, length_seq; exact Hc).
    rewrite (map_nth (fun i => transpose 0%Q (G i)) (seq 0 d) 0 c).
    now rewrite seq_nth. }
  destruct arrays as [|a0 rest] eqn:Earr; [simpl in Harr_len; lia|].
  unfold stack_last.
  assert (Hall : forallb (fun a => shape_eqb (shape a) (shape a0)) (a0 :: rest) = true).
  { apply forallb_forall. intros a Ha. unfold shape_eqb.
    rewrite (Hshape a Ha), (Hshape a0 (or_introl eq_refl)).
    destruct (list_eq_dec Nat.eq_dec (repeat K d) (repeat K d)); congruence. }
  rewrite Hall. eexists. split; [reflexivity|].
  rewrite (Hshape a0 (or_introl eq_refl)), Harr_len.
  split; [reflexivity|]. split.
  { rewrite data_build_length, size_app, size_repeat. simpl. lia. }
  intros r c Hr Hc.
  rewrite data_build_nth
    by (rewrite size_app, size_repeat; simpl; nia).
  rewrite unravel_snoc by (rewrite ?size_repeat; assumption).
  rewrite last_last, removelast_last, Hnth by assumption.
  pose proof (@unravel_lt (repeat K d) r) as Hidx.
  rewrite size_repeat in Hidx. specialize (Hidx Hr).
  rewrite get_transpose
    by (unfold G; simpl; rewrite Hmsh, rev_repeat; exact Hidx).
  assert (Hrev : Forall2 lt (rev (unravel (repeat K d) r)) (repeat K d)).
  { rewrite <- (rev_repeat d K) at 2. now apply Forall2_rev. }
  unfold G at 1. rewrite Hmsh. rewrite get_build by exact Hrev.
  now rewrite grid_index_unravel.
Qed.

Section Run.

Variable float_root : Z -> nat -> result Q.

(** What a valid call returns: the squeezed array, and the grid value
    behind each of its entries. *)
Lemma sample_points (extents : list (Q * Q)) (num_samples : value) (root : Q)
    (log : list log_record) :
  1 <= length extents ->
  isinstance_int num_samples = true ->
  (1 <= as_int num_samples)%Z ->
  float_root (as_int num_samples) (length extents) = Ok root ->
  (0 <= Qceiling root)%Z ->
  let d := length extents in
  let K := Z.to_nat (Qceiling root) in
  exists a ls,
    sample float_root (init extents) num_samples (PyStr "uniform") log =
      (Ok a, log ++ [LogInfo "Sampling parameters uniformly ..."
                       [(Qceiling root ^ Z.of_nat d)%Z]]) /\
    shape a = filter (fun n => negb (n =? 1)) [K ^ d; d] /\
    length (data a) = K ^ d * d /\
    Forall2 (fun e l => linspace (fst e) (snd e) (Qceiling root) = Ok l) extents ls /\
    Forall (fun l => length l = K) ls /\
    forall r c, r < K ^ d -> c < d ->
      coordinate a d r c = nth (grid_index d K r c) (nth c ls []) 0%Q.
Proof.
  intros Hd Hint Hn Hroot Hk d K.
  destruct (linspace_list_defined extents (log ++ [LogInfo "Sampling parameters uniformly ..."
                       [(Qceiling root ^ Z.of_nat d)%Z]]) Hk) as [ls [Hrun Hall]].
  assert (Hls_len : length ls = d) by (symmetry; exact (Forall2_length Hall)).
  assert (Hlens : Forall (fun l => length l = K) ls).
  { clear - Hall. induction Hall as [|e l es ls He _ IH]; constructor; [|exact IH].
    exact (linspace_length _ _ _ He). }
  assert (Hne : ls <> []) by (intro E; rewrite E in Hls_len; simpl in Hls_len; lia).
  destruct (stacked_grid_entries Hne Hlens) as [stacked [Hstack [Hsh [Hdata Hentries]]]].
  rewrite Hls_len in *.
  exists (squeeze {| shape := [K ^ d; d]; data := data stacked |}), ls.
  split; [|split; [reflexivity|split; [exact Hdata|split; [exact Hall|split;
           [exact Hlens|exact Hentries]]]]].
  unfold sample. cbn [init dim Parameters.extends].
  fold d.
  assert (Hmode : contains [PyStr "uniform"] (PyStr "uniform") = true) by reflexivity.
  rewrite Hmode, Hint. apply Z.leb_le in Hn. rewrite Hn.
  change (py_eq (PyStr "uniform") (PyStr "uniform")) with true.
  cbn [andb assert_]. unfold bind at 1. cbn [ret].
  unfold bind at 1. cbn [ret].
  cbv iota.
  destruct (Nat.eqb_spec d 0) as [E|_]; [lia|].
  unfold bind at 1. cbn [ret].
  fold d in Hroot.
  erewrite bind_ok by (unfold lift; rewrite Hroot; reflexivity).
  erewrite bind_ok by reflexivity.
  erewrite bind_ok by exact Hrun.
  erewrite bind_ok by (unfold lift; rewrite Hstack; reflexivity).
  assert (Hreshape : reshape_rows stacked d =
                     Ok {| shape := [K ^ d; d]; data := data stacked |}).
  { unfold reshape_rows. rewrite Hsh, size_app, size_repeat.
    change (size [d]) with (d * 1). rewrite Nat.mul_1_r.
    rewrite Nat.Div0.mod_mul, Nat.div_mul by lia.
    destruct (Nat.eqb_spec d 0) as [E|_]; [lia|]. reflexivity. }
  erewrite bind_ok by (unfold lift; rewrite Hreshape; reflexivity).
  assert (Hassert : shape_is [K ^ d; d] [(Qceiling root ^ Z.of_nat d)%Z; Z.of_nat d] = true).
  { unfold shape_is. cbn [map].
    replace (Z.of_nat (K ^ d)) with (Qceiling root ^ Z.of_nat d)%Z.
    - destruct (list_eq_dec Z.eq_dec _ _); congruence.
    - unfold K. rewrite Nat2Z.inj_pow, Z2Nat.id by exact Hk. reflexivity. }
  cbn [shape]. rewrite Hassert. reflexivity.
Qed.

End Run.

End SampleGridFacts.

Module SampleGridSpec.

Import Np NpViews NpFacts LinspaceFacts Parameters SampleFacts SampleGrid SampleGridFacts.

Lemma Qceiling_positive (q : Q) : (0 < q)%Q -> (1 <= Qceiling q)%Z.
Proof.
  intro Hq. pose proof (Qle_ceiling q) as Hc.
  assert (H0 : (inject_Z 0 < inject_Z (Qceiling q))%Q) by (change (inject_Z 0) with 0%Q; lra).
  rewrite <- Zlt_Qlt in H0. lia.
Qed.

(** The first entry of a non-empty grid is its start. *)
Lemma linspace_first (start stop : Q) (num : Z) (l : list Q) :
  linspace start stop num = Ok l -> (1 <= num)%Z -> (nth 0 l 0 == start)%Q.
Proof.
  unfold linspace. destruct (Z.ltb_spec num 0) as [|_]; [discriminate|].
  intros E Hnum. injection E as <-.
  destruct (Z.to_nat num) as [|[|m]] eqn:En; [lia| |].
  - cbn. ring.
  - change (1 <? S (S m)) with true. cbv iota.
    change (0 <? S (S m) - 1) with true. cbv iota.
    unfold set_last.
    destruct (Qeq_bool _ _); cbn [seq map removelast app nth];
      change (inject_Z (Z.of_nat 0)) with 0%Q.
    + unfold Qdiv; ring.
    + ring.
Qed.

(** The last entry of a grid of two or more values is its stop. *)
Lemma linspace_last (start stop : Q) (num : Z) (l : list Q) :
  linspace start stop num = Ok l -> 2 <= Z.to_nat num ->
  nth (Z.to_nat num - 1) l 0%Q = stop.
Proof.
  intros E Hnum. pose proof (linspace_length _ _ _ E) as Hlen.
  unfold linspace in E. destruct (Z.ltb_spec num 0) as [|_]; [discriminate|].
  injection E as E.
  destruct (Nat.ltb_spec 1 (Z.to_nat num)) as [_|]; [|lia].
  unfold set_last in E. rewrite <- E in Hlen |- *.
  rewrite length_app in Hlen. cbn [length] in Hlen.
  rewrite app_nth2 by lia.
  replace (Z.to_nat num - 1 - length (removelast _)) with 0 by lia.
  reflexivity.
Qed.

Lemma grid_index_first (d k c : nat) : grid_index d k 0 c = 0.
Proof.
  unfold grid_index. rewrite Nat.Div0.div_0_l. apply Nat.Div0.mod_0_l.
Qed.

Lemma grid_index_last (d k c : nat) :
  1 <= k -> c < d -> grid_index d k (k ^ d - 1) c = k - 1.
Proof.
  intros Hk Hc. pose proof (meshgrid_axis_lt Hc) as Ha.
  unfold grid_index. set (e := meshgrid_axis d c) in *.
  assert (Hsplit : k ^ d = k ^ (d - e - 1) * k * k ^ e).
  { rewrite <- (Nat.pow_1_r k) at 3. rewrite <- !Nat.pow_add_r. f_equal. lia. }
  assert (He : 1 <= k ^ e) by (apply Nat.neq_0_lt_0, Nat.pow_nonzero; lia).
  assert (Hm : 1 <= k ^ (d - e - 1)) by (apply Nat.neq_0_lt_0, Nat.pow_nonzero; lia).
  set (m := k ^ (d - e - 1)) in *. set (p := k ^ e) in *.
  assert (Hq : (k ^ d - 1) / p = m * k - 1).
  { symmetry. apply (Nat.div_unique _ _ _ (p - 1)); [lia|]. rewrite Hsplit. nia. }
  rewrite Hq.
  symmetry. apply (Nat.mod_unique _ _ (m - 1)); [lia|]. nia.
Qed.

(** Distinct rows have distinct combinations of grid indices. *)
Lemma grid_index_injective (d k r r' : nat) :
  r < k ^ d -> r' < k ^ d ->
  (forall c, c < d -> grid_index d k r c = grid_index d k r' c) -> r = r'.
Proof.
  intros Hr Hr' Heq.
  rewrite <- (@ravel_unravel (repeat k d) r) by now rewrite size_repeat.
  rewrite <- (@ravel_unravel (repeat k d) r') by now rewrite size_repeat.
  f_equal. apply (nth_ext _ _ 0 0).
  - now rewrite !unravel_length.
  - intros i Hi. rewrite unravel_length, repeat_length in Hi.
    rewrite !unravel_digit by assumption.
    assert (Hc : d - 1 - i < d) by lia.
    pose proof (Heq _ (meshgrid_axis_lt Hc)) as H.
    unfold grid_index in H.
    rewrite meshgrid_axis_involutive in H by exact Hc. exact H.
Qed.

Lemma Forall2_lt_map_repeat (f : nat -> nat) (k s n : nat) :
  (forall i, f i < k) -> Forall2 lt (map f (seq s n)) (repeat k n).
Proof.
  intro Hf. revert s. induction n as [|n IH]; intro s; cbn; constructor; auto.
Qed.

(** Every combination of grid indices is the one of some row. *)
Lemma grid_index_surjective (d k : nat) (js : list nat) :
  Forall (fun j => j < k) js -> 0 < k ->
  exists r, r < k ^ d /\ forall c, c < d -> grid_index d k r c = nth c js 0.
Proof.
  intros Hjs Hk.
  assert (Hnth : forall c, nth c js 0 < k).
  { intro c. destruct (Nat.lt_ge_cases c (length js)) as [Hc|Hc].
    - rewrite Forall_forall in Hjs. apply Hjs. now apply nth_In.
    - now rewrite nth_overflow. }
  set (f := fun i => nth (meshgrid_axis d (d - 1 - i)) js 0).
  assert (Hidx : Forall2 lt (map f (seq 0 d)) (repeat k d))
    by (apply Forall2_lt_map_repeat; intro i; apply Hnth).
  exists (ravel (repeat k d) (map f (seq 0 d))). split.
  - rewrite <- (size_repeat k d). now apply ravel_lt.
  - intros c Hc. pose proof (meshgrid_axis_lt Hc) as Ha.
    assert (Hr : ravel (repeat k d) (map f (seq 0 d)) < k ^ d)
      by (rewrite <- (size_repeat k d); now apply ravel_lt).
    rewrite <- grid_index_unravel by assumption.
    rewrite unravel_ravel by exact Hidx.
    rewrite rev_nth by (rewrite length_map, length_seq; exact Ha).
    rewrite length_map, length_seq.
    rewrite (nth_indep _ 0 (f 0)) by (rewrite length_map, length_seq; lia).
    rewrite map_nth, seq_nth by lia. unfold f. cbn [Nat.add].
    replace (d - 1 - (d - S (meshgrid_axis d c))) with (meshgrid_axis d c) by lia.
    now rewrite meshgrid_axis_involutive.
Qed.

Section Grid.

Variable float_root : Z -> nat -> result Q.
Variables (extents : list (Q * Q)) (num_samples : value) (root : Q).
Variable log : list log_record.

Hypothesis dimensions : 1 <= length extents.
Hypothesis integral : isinstance_int num_samples = true.
Hypothesis positive : (1 <= as_int num_samples)%Z.
Hypothesis computed_root : float_root (as_int num_samples) (length extents) = Ok root.
Hypothesis positive_root : (0 < root)%Q.

Let d := length extents.
Let k := Z.to_nat (Qceiling root).

(** X1: the order of the points.  Coordinate [c] of the point in row [r]
    is the grid value of dimension [c] at position
    [(r / k ^ e) mod k], where [e] is [c] with the first two dimensions
    exchanged: the second coordinate varies fastest, then the first, then
    the third, the fourth and so on.  For two dimensions, row [r] is the
    pair of the values at positions [r / k] and [r mod k]. *)
Theorem sample_grid_order :
  exists a log',
    sample float_root (init extents) num_samples (PyStr "uniform") log = (Ok a, log') /\
    (forall r c, r < k ^ d -> c < d ->
       exists l,
         linspace (fst (nth c extents (0, 0)%Q)) (snd (nth c extents (0, 0)%Q))
           (Qceiling root) = Ok l /\
         coordinate a d r c = nth (grid_index d k r c) l 0%Q) /\
    (forall r, d = 1 -> grid_index d k r 0 = r mod k) /\
    (forall r, d = 2 -> r < k ^ d ->
       grid_index d k r 0 = r / k /\ grid_index d k r 1 = r mod k).
Proof.
  pose proof (Qceiling_positive positive_root) as Hk.
  destruct (@sample_points float_root extents num_samples root log dimensions integral
              positive computed_root ltac:(lia))
    as [a [ls [Hrun [_ [_ [Hall [_ Hentries]]]]]]].
  fold d in Hentries. fold k in Hentries.
  exists a. eexists. split; [exact Hrun|]. split; [|split].
  - intros r c Hr Hc. exists (nth c ls []). split.
    + exact (@Forall2_nth_rel _ _ _ _ _ c (0, 0)%Q [] Hall Hc).
    + now apply Hentries.
  - intros r Hd. unfold grid_index, meshgrid_axis. rewrite Hd.
    cbn [Nat.ltb Nat.leb Nat.pow]. now rewrite Nat.div_1_r.
  - intros r Hd Hr. rewrite Hd in *. unfold grid_index, meshgrid_axis. cbn [Nat.ltb Nat.leb].
    cbn [Nat.pow] in *. rewrite Nat.mul_1_r in *. rewrite Nat.div_1_r. split; [|reflexivity].
    apply Nat.mod_small. apply Nat.Div0.div_lt_upper_bound. exact Hr.
Qed.

(** X2: the points are the Cartesian product of the one-dimensional
    grids.  For every choice [js] of one position per dimension there is
    exactly one row whose point has, in each dimension, the grid value at
    the chosen position. *)
Theorem sample_grid_complete :
  exists a log',
    sample float_root (init extents) num_samples (PyStr "uniform") log = (Ok a, log') /\
    forall js, Forall (fun j => j < k) js ->
      exists r, r < k ^ d /\
        (forall c, c < d ->
           grid_index d k r c = nth c js 0 /\
           exists l,
             linspace (fst (nth c extents (0, 0)%Q)) (snd (nth c extents (0, 0)%Q))
               (Qceiling root) = Ok l /\
             coordinate a d r c = nth (nth c js 0) l 0%Q) /\
        (forall r', r' < k ^ d ->
           (forall c, c < d -> grid_index d k r' c = nth c js 0) -> r' = r).
Proof.
  pose proof (Qceiling_positive positive_root) as Hk.
  destruct (@sample_points float_root extents num_samples root log dimensions integral
              positive computed_root ltac:(lia))
    as [a [ls [Hrun [_ [_ [Hall [_ Hentries]]]]]]].
  fold d in Hentries. fold k in Hentries.
  exists a. eexists. split; [exact Hrun|].
  intros js Hjs.
  destruct (@grid_index_surjective d k js Hjs ltac:(unfold k; lia)) as [r [Hr Hidx]].
  exists r. split; [exact Hr|]. split.
  - intros c Hc. split; [now apply Hidx|].
    exists (nth c ls []). split.
    + exact (@Forall2_nth_rel _ _ _ _ _ c (0, 0)%Q [] Hall Hc).
    + rewrite <- Hidx by exact Hc. now apply Hentries.
  - intros r' Hr' Hidx'. apply (@grid_index_injective d k); try assumption.
    intros c Hc. now rewrite Hidx, Hidx'.
Qed.

(** X3: the corners.  The first point is the corner of the minima of all
    extents; with two or more values per dimension the last point is the
    corner of the maxima.  With one value per dimension the only point is
    the corner of the minima, and no maximum is attained unless it equals
    the minimum. *)
Theorem sample_corners :
  exists a log',
    sample float_root (init extents) num_samples (PyStr "uniform") log = (Ok a, log') /\
    forall c, c < d ->
      (coordinate a d 0 c == fst (nth c extents (0, 0)%Q))%Q /\
      (2 <= k -> coordinate a d (k ^ d - 1) c = snd (nth c extents (0, 0)%Q)).
Proof.
  pose proof (Qceiling_positive positive_root) as Hk.
  destruct (@sample_points float_root extents num_samples root log dimensions integral
              positive computed_root ltac:(lia))
    as [a [ls [Hrun [_ [_ [Hall [_ Hentries]]]]]]].
  fold d in Hentries. fold k in Hentries.
  exists a. eexists. split; [exact Hrun|].
  intros c Hc.
  pose proof (@Forall2_nth_rel _ _ _ _ _ c (0, 0)%Q [] Hall Hc) as Hlin.
  cbv beta in Hlin.
  assert (Hpos : 0 < k ^ d) by (apply Nat.neq_0_lt_0, Nat.pow_nonzero; unfold k; lia).
  split.
  - rewrite Hentries by assumption. rewrite grid_index_first.
    exact (@linspace_first _ _ _ _ Hlin Hk).
  - intro Hk2. rewrite Hentries by (try assumption; lia).
    rewrite grid_index_last by (try assumption; lia).
    exact (@linspace_last _ _ _ _ Hlin Hk2).
Qed.

(** X4: what a loop over the result visits.  Callers iterate over the
    sampled array ([for mu in parameters]).  With two or more values per
    dimension the loop visits the [k ^ d] points: arrays of [d] coordinates
    for [d >= 2], scalars for [d = 1].  With a single value per dimension
    ([num_samples = 1]) the result was squeezed to one point, and the loop
    visits its [d] coordinates one by one as scalars when [d >= 2], and
    fails when [d = 1], the array being 0-dimensional.  [len] counts what
    the loop visits. *)
Theorem sample_iteration :
  exists a log',
    sample float_root (init extents) num_samples (PyStr "uniform") log = (Ok a, log') /\
    (2 <= k -> 2 <= d -> iterate a = Some (map (point a d) (seq 0 (k ^ d)))) /\
    (2 <= k -> d = 1 ->
       iterate a = Some (map (fun r => scalar (coordinate a d r 0)) (seq 0 k))) /\
    (k = 1 -> 2 <= d ->
       iterate a = Some (map (fun c => scalar (coordinate a d 0 c)) (seq 0 d))) /\
    (k = 1 -> d = 1 -> iterate a = None) /\
    len a = option_map (@length (ndarray Q)) (iterate a).
Proof.
  pose proof (Qceiling_positive positive_root) as Hk.
  destruct (@sample_points float_root extents num_samples root log dimensions integral
              positive computed_root ltac:(lia))
    as [a [ls [Hrun [Hshape [Hlen _]]]]].
  fold d in Hshape, Hlen. fold k in Hshape, Hlen.
  exists a. eexists. split; [exact Hrun|].
  cbn [filter] in Hshape.
  assert (Hitem : forall n r, r * n + n <= length (data a) ->
            firstn n (skipn (r * n) (data a)) =
            map (fun c => nth (r * n + c) (data a) 0%Q) (seq 0 n))
    by (intros n r H; now apply firstn_skipn_nths).
  split; [|split; [|split; [|split]]].
  - intros Hk2 Hd2.
    assert (Hkd : 2 <= k ^ d).
    { change 2 with (2 ^ 1). transitivity (k ^ 1).
      - rewrite !Nat.pow_1_r. exact Hk2.
      - apply Nat.pow_le_mono_r; lia. }
    destruct (Nat.eqb_spec (k ^ d) 1) as [|_]; [lia|].
    destruct (Nat.eqb_spec d 1) as [|_]; [lia|].
    cbn [negb] in Hshape. unfold iterate. rewrite Hshape. f_equal.
    apply map_ext_in. intros r Hr. apply in_seq in Hr.
    unfold item, point, coordinate. f_equal.
    change (size [d]) with (d * 1). rewrite Nat.mul_1_r.
    apply Hitem. rewrite Hlen. nia.
  - intros Hk2 Hd1. rewrite Hd1 in *. rewrite Nat.pow_1_r in *.
    destruct (Nat.eqb_spec k 1) as [|_]; [lia|].
    cbn [negb Nat.eqb] in Hshape. unfold iterate. rewrite Hshape. f_equal.
    apply map_ext_in. intros r Hr. apply in_seq in Hr.
    unfold item, scalar, coordinate. f_equal.
    change (size []) with 1. rewrite Hitem by lia.
    cbn [seq map]. now rewrite Nat.add_0_r.
  - intros Hk1 Hd2. rewrite Hk1 in *. rewrite Nat.pow_1_l in *.
    destruct (Nat.eqb_spec d 1) as [|_]; [lia|].
    cbn [negb Nat.eqb] in Hshape. unfold iterate. rewrite Hshape. f_equal.
    apply map_ext_in. intros c Hc. apply in_seq in Hc.
    unfold item, scalar, coordinate. f_equal.
    change (size []) with 1. rewrite Hitem by lia.
    cbn [seq map]. rewrite Nat.mul_1_r, Nat.add_0_r. reflexivity.
  - intros Hk1 Hd1. rewrite Hk1, Hd1 in *. cbn in Hshape.
    unfold iterate. now rewrite Hshape.
  - unfold len, iterate. destruct (shape a); [reflexivity|].
    cbn. now rewrite length_map, length_seq.
Qed.

End Grid.

Lemma linspace_negative (start stop : Q) (num : Z) :
  (num < 0)%Z -> linspace start stop num = Raise ValueError.
Proof. intro H. unfold linspace. apply Z.ltb_lt in H. now rewrite H. Qed.

(** X5: every way a call can end.  Invalid arguments fail the checks
    before anything happens; a space without dimensions raises
    [ZeroDivisionError]; an exception of the root computation is passed on;
    a negative root is rejected by [linspace] after the message was logged;
    and in every other case the call returns: neither the internal shape
    assertion nor the stacking or reshaping can fail, and the branch that
    would leave [parameters] unbound is never taken. *)
Theorem sample_failure_modes (float_root : Z -> nat -> result Q)
    (extents : list (Q * Q)) (num_samples mode : value) (log : list log_record) :
  let valid := contains [PyStr "uniform"] mode &&
               (isinstance_int num_samples && (1 <=? as_int num_samples)%Z) in
  let d := length extents in
  let run := sample float_root (init extents) num_samples mode log in
  (valid = false -> run = (Raise AssertionError, log)) /\
  (valid = true -> d = 0 -> run = (Raise ZeroDivisionError, log)) /\
  (valid = true -> 1 <= d ->
   forall e, float_root (as_int num_samples) d = Raise e -> run = (Raise e, log)) /\
  (valid = true -> 1 <= d ->
   forall root, float_root (as_int num_samples) d = Ok root ->
     let logged := log ++ [LogInfo "Sampling parameters uniformly ..."
                             [(Qceiling root ^ Z.of_nat d)%Z]] in
     ((Qceiling root < 0)%Z -> run = (Raise ValueError, logged)) /\
     ((0 <= Qceiling root)%Z -> exists a, run = (Ok a, logged))).
Proof.
  intros valid d run.
  assert (Hmode : contains [PyStr "uniform"] mode = py_eq mode (PyStr "uniform")).
  { unfold contains. cbn [existsb]. apply orb_false_r. }
  assert (Hvalid : valid = true ->
            mode = mode /\ py_eq mode (PyStr "uniform") = true /\
            isinstance_int num_samples = true /\ (1 <= as_int num_samples)%Z).
  { unfold valid. rewrite Hmode. intro H.
    apply andb_prop in H. destruct H as [H1 H2].
    apply andb_prop in H2. destruct H2 as [H2 H3].
    apply Z.leb_le in H3. auto. }
  assert (Hstart : valid = true ->
            run = bind (if d =? 0 then raise ZeroDivisionError else ret tt)
                    (fun _ =>
                       root <- lift (float_root (as_int num_samples) d) ;;
                       update (fun log =>
                         log ++ [LogInfo "Sampling parameters uniformly ..."
                                   [(Qceiling root ^ Z.of_nat d)%Z]]) ;;
                       linspace_list <-
                         mapM (fun '(p_min, p_max) =>
                                 lift (linspace p_min p_max (Qceiling root))) extents ;;
                       stacked <- lift (stack_last 0%Q
                                          (map (transpose 0%Q) (meshgrid 0%Q linspace_list))) ;;
                       parameters <- lift (reshape_rows stacked d) ;;
                       assert_ (shape_is (shape parameters)
                                  [(Qceiling root ^ Z.of_nat d)%Z; Z.of_nat d]) ;;
                       ret (squeeze parameters)) log).
  { intro H. destruct (Hvalid H) as [_ [Hm [Hi Hn]]].
    unfold run, sample. cbn [init dim Parameters.extends]. fold d.
    rewrite Hmode, Hm, Hi. apply Z.leb_le in Hn. rewrite Hn. reflexivity. }
  split; [|split; [|split]].
  - unfold valid, run, sample. intro H.
    destruct (contains [PyStr "uniform"] mode); [|reflexivity].
    cbn [andb] in H. rewrite H. reflexivity.
  - intros H Hd. rewrite (Hstart H), Hd. reflexivity.
  - intros H Hd e He. rewrite (Hstart H).
    destruct (Nat.eqb_spec d 0) as [|_]; [lia|].
    unfold bind at 1. cbn [ret]. unfold bind at 1, lift. now rewrite He.
  - intros H Hd root Hroot logged.
    destruct (Hvalid H) as [_ [Hm [Hi Hn]]]. split.
    + intro Hneg. rewrite (Hstart H).
      destruct (Nat.eqb_spec d 0) as [|_]; [lia|].
      unfold bind at 1. cbn [ret].
      erewrite bind_ok by (unfold lift; rewrite Hroot; reflexivity).
      erewrite bind_ok by reflexivity. fold logged.
      apply bind_raise.
      destruct extents as [|[lo hi] rest]; [simpl in d; lia|].
      cbn [mapM]. apply bind_raise. unfold lift.
      now rewrite linspace_negative.
    + intro Hpos.
      assert (Hmode_eq : mode = PyStr "uniform").
      { destruct mode as [z|b|q|s|]; cbn in Hm; try discriminate.
        apply String.eqb_eq in Hm. now subst s. }
      destruct (@sample_points float_root extents num_samples root log Hd Hi Hn Hroot Hpos)
        as [a [ls [Hrun _]]].
      exists a. unfold run. rewrite Hmode_eq. exact Hrun.
Qed.

Lemma sample_failure_modes_witness :
  sample float_root_dim1 (init []) (PyInt 3) (PyStr "uniform") [] =
    (Raise ZeroDivisionError, []) /\
  sample float_root_dim1 (init [(0, 1)%Q]) (PyInt 0) (PyStr "uniform") [] =
    (Raise AssertionError, []) /\
  exists a,
    sample float_root_dim1 (init [(0, 1)%Q]) (PyInt 3) (PyStr "uniform") [] =
      (Ok a, [LogInfo "Sampling parameters uniformly ..." [3%Z]]).
Proof.
  split; [|split].
  - exact (proj1 (proj2 (@sample_failure_modes float_root_dim1 [] (PyInt 3)
                           (PyStr "uniform") [])) eq_refl eq_refl).
  - exact (proj1 (@sample_failure_modes float_root_dim1 [(0, 1)%Q] (PyInt 0)
                    (PyStr "uniform") []) eq_refl).
  - exact (proj2 (proj2 (proj2 (proj2 (@sample_failure_modes float_root_dim1 [(0, 1)%Q]
                                         (PyInt 3) (PyStr "uniform") [])))
                    eq_refl (le_n 1) 3%Q eq_refl)
             ltac:(vm_compute; discriminate)).
Defined.

Lemma sample_grid_order_witness :
  exists a log',
    sample ideal_root (init [(0, 1)%Q; (10, 20)%Q]) (PyInt 4) (PyStr "uniform") [] =
      (Ok a, log') /\
    (forall r c, r < 2 ^ 2 -> c < 2 ->
       exists l,
         linspace (fst (nth c [(0, 1)%Q; (10, 20)%Q] (0, 0)%Q))
           (snd (nth c [(0, 1)%Q; (10, 20)%Q] (0, 0)%Q)) 2 = Ok l /\
         coordinate a 2 r c = nth (grid_index 2 2 r c) l 0%Q) /\
    (forall r, 2 = 1 -> grid_index 2 2 r 0 = r mod 2) /\
    (forall r, 2 = 2 -> r < 2 ^ 2 ->
       grid_index 2 2 r 0 = r / 2 /\ grid_index 2 2 r 1 = r mod 2).
Proof.
  apply (@sample_grid_order ideal_root [(0, 1)%Q; (10, 20)%Q] (PyInt 4) 2%Q []).
  - simpl; lia.
  - reflexivity.
  - simpl; lia.
  - reflexivity.
  - reflexivity.
Defined.

Lemma sample_grid_complete_witness :
  exists a log',
    sample ideal_root (init [(0, 1)%Q; (10, 20)%Q]) (PyInt 4) (PyStr "uniform") [] =
      (Ok a, log') /\
    forall js, Forall (fun j => j < 2) js ->
      exists r, r < 2 ^ 2 /\
        (forall c, c < 2 ->
           grid_index 2 2 r c = nth c js 0 /\
           exists l,
             linspace (fst (nth c [(0, 1)%Q; (10, 20)%Q] (0, 0)%Q))
               (snd (nth c [(0, 1)%Q; (10, 20)%Q] (0, 0)%Q)) 2 = Ok l /\
             coordinate a 2 r c = nth (nth c js 0) l 0%Q) /\
        (forall r', r' < 2 ^ 2 ->
           (forall c, c < 2 -> grid_index 2 2 r' c = nth c js 0) -> r' = r).
Proof.
  apply (@sample_grid_complete ideal_root [(0, 1)%Q; (10, 20)%Q] (PyInt 4) 2%Q []).
  - simpl; lia.
  - reflexivity.
  - simpl; lia.
  - reflexivity.
  - reflexivity.
Defined.

Lemma sample_corners_witness :
  exists a log',
    sample ideal_root (init [(0, 1)%Q; (10, 20)%Q]) (PyInt 4) (PyStr "uniform") [] =
      (Ok a, log') /\
    forall c, c < 2 ->
      (coordinate a 2 0 c == fst (nth c [(0, 1)%Q; (10, 20)%Q] (0, 0)%Q))%Q /\
      (2 <= 2 -> coordinate a 2 (2 ^ 2 - 1) c = snd (nth c [(0, 1)%Q; (10, 20)%Q] (0, 0)%Q)).
Proof.
  apply (@sample_corners ideal_root [(0, 1)%Q; (10, 20)%Q] (PyInt 4) 2%Q []).
  - simpl; lia.
  - reflexivity.
  - simpl; lia.
  - reflexivity.
  - reflexivity.
Defined.

Lemma sample_iteration_witness :
  exists a log',
    sample ideal_root (init [(0, 1)%Q; (10, 20)%Q]) (PyInt 1) (PyStr "uniform") [] =
      (Ok a, log') /\
    (2 <= 1 -> 2 <= 2 -> iterate a = Some (map (point a 2) (seq 0 (1 ^ 2)))) /\
    (2 <= 1 -> 2 = 1 ->
       iterate a = Some (map (fun r => scalar (coordinate a 2 r 0)) (seq 0 1))) /\
    (1 = 1 -> 2 <= 2 ->
       iterate a = Some (map (fun c => scalar (coordinate a 2 0 c)) (seq 0 2))) /\
    (1 = 1 -> 2 = 1 -> iterate a = None) /\
    len a = option_map (@length (ndarray Q)) (iterate a).
Proof.
  apply (@sample_iteration ideal_root [(0, 1)%Q; (10, 20)%Q] (PyInt 1) 1%Q []).
  - simpl; lia.
  - reflexivity.
  - simpl; lia.
  - reflexivity.
  - reflexivity.
Defined.

End SampleGridSpec.

(* ===================================================================== *)
(** ** NonlinearNeuralNetworkReductor: runs *)
(* ===================================================================== *)

Module ReductorRunFacts.

Import Reductor ReductorRuns.

Section Logic.

Context {T : Type} {NumT : Num T} {C : Collaborators T}.

Lemma nothing_added (P : event -> Prop) (s : reductor) :
  exists added, trace s = trace s ++ added /\ Forall P added.
Proof. exists []. split; [now rewrite app_nil_r|constructor]. Qed.

Lemma triple_ret {A : Type} (a : A) (Pre : reductor -> Prop) (P : event -> Prop)
    (Post : A -> reductor -> Prop) :
  (forall s, Pre s -> Post a s) -> triple Pre (ret a) P Post.
Proof.
  intros H s r s' Hs E. inversion E; subst. split; [apply nothing_added|].
  intros a' E'. injection E' as <-. auto.
Qed.

Lemma triple_raise {A : Type} (e : exn) (Pre : reductor -> Prop) (P : event -> Prop)
    (Post : A -> reductor -> Prop) :
  triple Pre (raise e) P Post.
Proof.
  intros s r s' Hs E. inversion E; subst. split; [apply nothing_added|discriminate].
Qed.

Lemma triple_lift {A : Type} (x : result A) (Pre : reductor -> Prop) (P : event -> Prop)
    (Post : A -> reductor -> Prop) :
  (forall a s, x = Ok a -> Pre s -> Post a s) -> triple Pre (lift x) P Post.
Proof.
  intros H s r s' Hs E. inversion E; subst. split; [apply nothing_added|].
  intros a E'. auto.
Qed.

Lemma triple_read {A : Type} (f : reductor -> A) (Pre : reductor -> Prop)
    (P : event -> Prop) (Post : A -> reductor -> Prop) :
  (forall s, Pre s -> Post (f s) s) -> triple Pre (read f) P Post.
Proof.
  intros H s r s' Hs E. inversion E; subst. split; [apply nothing_added|].
  intros a E'. injection E' as <-. auto.
Qed.

Lemma triple_bind {A B : Type} (m : M reductor A) (f : A -> M reductor B)
    (Pre : reductor -> Prop) (P : event -> Prop) (Mid : A -> reductor -> Prop)
    (Post : B -> reductor -> Prop) :
  triple Pre m P Mid -> (forall a, triple (Mid a) (f a) P Post) ->
  triple Pre (bind m f) P Post.
Proof.
  intros Hm Hf s r s' Hs E.
  destruct (bind_inv _ _ _ E) as [[a [s1 [E1 E2]]]|[e [E1 ->]]].
  - destruct (Hm _ _ _ Hs E1) as [[ad1 [Ht1 Hp1]] Hq].
    destruct (Hf a _ _ _ (Hq a eq_refl) E2) as [[ad2 [Ht2 Hp2]] Hr].
    split; [|exact Hr].
    exists (ad1 ++ ad2). split.
    + now rewrite Ht2, Ht1, app_assoc.
    + now apply Forall_app.
  - destruct (Hm _ _ _ Hs E1) as [Ht _]. split; [exact Ht|discriminate].
Qed.

Lemma triple_weaken {A : Type} (m : M reductor A) (Pre Pre' : reductor -> Prop)
    (P : event -> Prop) (Post Post' : A -> reductor -> Prop) :
  triple Pre m P Post -> (forall s, Pre' s -> Pre s) ->
  (forall a s, Post a s -> Post' a s) -> triple Pre' m P Post'.
Proof.
  intros Hm Hpre Hpost s r s' Hs E.
  destruct (Hm _ _ _ (Hpre _ Hs) E) as [Ht Ha].
  split; [exact Ht|]. intros a Er. apply Hpost, Ha, Er.
Qed.

Lemma triple_emit (e : event) (Pre : reductor -> Prop) (P : event -> Prop)
    (Post : unit -> reductor -> Prop) :
  P e -> (forall s, Pre s -> Post tt (snd (emit e s))) -> triple Pre (emit e) P Post.
Proof.
  intros He H s r s' Hs E. inversion E; subst. split.
  - exists [e]. split; [reflexivity|]. now constructor.
  - intros [] _. exact (H s Hs).
Qed.

Lemma triple_update (f : reductor -> reductor) (Pre : reductor -> Prop)
    (P : event -> Prop) (Post : unit -> reductor -> Prop) :
  (forall s, trace (f s) = trace s) -> (forall s, Pre s -> Post tt (f s)) ->
  triple Pre (update f) P Post.
Proof.
  intros Hf H s r s' Hs E. inversion E; subst. split.
  - rewrite Hf. apply nothing_added.
  - intros [] _. exact (H s Hs).
Qed.

Lemma triple_assert (b : bool) (Pre : reductor -> Prop) (P : event -> Prop)
    (Post : unit -> reductor -> Prop) :
  (b = true -> forall s, Pre s -> Post tt s) -> triple Pre (assert_ b) P Post.
Proof.
  intro H. destruct b.
  - apply triple_ret. auto.
  - apply triple_raise.
Qed.

Lemma triple_attr (field : reductor -> option T) (Pre : reductor -> Prop)
    (P : event -> Prop) (Post : T -> reductor -> Prop) :
  (forall s v, Pre s -> field s = Some v -> Post v s) -> triple Pre (attr field) P Post.
Proof.
  intros H s r s' Hs E. unfold attr in E.
  destruct (field s) as [v|] eqn:Ef; inversion E; subst;
    (split; [apply nothing_added|]).
  - intros a Ea. injection Ea as <-. eauto.
  - discriminate.
Qed.

(** A loop that keeps the invariant [Inv] of the state. *)
Lemma triple_mapM {A B : Type} (f : A -> M reductor B) (l : list A)
    (Inv : reductor -> Prop) (P : event -> Prop) (Q : A -> B -> Prop) :
  (forall a, In a l -> triple Inv (f a) P (fun b s => Q a b /\ Inv s)) ->
  triple Inv (mapM f l) P (fun bs s => Forall2 Q l bs /\ Inv s).
Proof.
  induction l as [|a l IH]; intro Hf; cbn [mapM].
  - apply triple_ret. intros s Hs. split; [constructor|exact Hs].
  - eapply triple_bind; [apply Hf; now left|].
    intro b. cbv beta.
    apply triple_bind with (Mid := fun bs s => Q a b /\ Forall2 Q l bs /\ Inv s).
    + intros s r s' [Hq Hs] E.
      destruct (IH (fun a' Ha' => Hf a' (or_intror Ha')) s r s' Hs E) as [Ht Hr].
      split; [exact Ht|]. intros bs Er. destruct (Hr bs Er). auto.
    + intro bs. apply triple_ret. intros s [Hq [Hbs Hs]]. split; [|exact Hs].
      now constructor.
Qed.

End Logic.


Section Values.

Context {T : Type} {NumT : Num T} {C : Collaborators T}.

Lemma solve_run (mu : ParameterValue) (s : reductor) :
  solve mu s = (fom_solve mu, snd (emit (EvSolve mu) s)).
Proof. reflexivity. Qed.

(** The comprehension over the training set: every parameter is solved
    for, in order, until a solve fails. *)
Lemma solve_all_run (l : list ParameterValue) (s s' : reductor) (r : result (list (ParameterValue * Solution))) :
  mapM (fun mu => u <- solve mu ;; ret (mu, u)) l s = (r, s') ->
  match r with
  | Ok sols =>
      map fst sols = l /\
      Forall (fun p => fom_solve (fst p) = Ok (snd p)) sols /\
      trace s' = trace s ++ map EvSolve l
  | Raise e =>
      exists k mu,
        nth_error l k = Some mu /\ fom_solve mu = Raise e /\
        (forall i mu', i < k -> nth_error l i = Some mu' -> exists u, fom_solve mu' = Ok u) /\
        trace s' = trace s ++ map EvSolve (firstn (S k) l)
  end.
Proof.
  revert s s' r. induction l as [|mu l IH]; intros s s' r; cbn [mapM].
  - intro E. inversion E; subst. cbn. rewrite app_nil_r. repeat split. constructor.
  - unfold bind at 1. unfold bind at 1. rewrite solve_run.
    destruct (fom_solve mu) as [u|e] eqn:Eu.
    + cbn [ret]. unfold bind at 1.
      destruct (mapM _ l (snd (emit (EvSolve mu) s))) as [[sols|e] s1] eqn:Erun;
        apply IH in Erun; intro E; inversion E; subst.
      * destruct Erun as [Hfst [Hall Htr]]. cbn [map fst]. split; [now rewrite Hfst|].
        split; [constructor; assumption|].
        rewrite Htr. cbn [trace snd emit update]. now rewrite <- app_assoc.
      * destruct Erun as [k [mu' [Hk [He [Hbefore Htr]]]]].
        exists (S k), mu'. cbn [nth_error]. split; [exact Hk|]. split; [exact He|].
        split.
        -- intros [|i] mu'' Hi Hnth; cbn [nth_error] in Hnth.
           ++ injection Hnth as <-. eauto.
           ++ apply (Hbefore i); [lia|exact Hnth].
        -- rewrite Htr. cbn [trace firstn map snd emit update]. now rewrite <- app_assoc.
    + intro E. inversion E; subst.
      exists 0, mu. cbn [nth_error firstn map]. repeat split; try assumption.
      intros i mu' Hi. lia.
Qed.

Lemma hd_error_rev {A : Type} (l : list A) :
  hd_error (rev l) = if 0 <? length l then nth_error l (length l - 1) else None.
Proof.
  destruct (rev l) as [|x l'] eqn:E.
  - apply (f_equal (@rev A)) in E. rewrite rev_involutive in E. subst l. reflexivity.
  - apply (f_equal (@rev A)) in E. rewrite rev_involutive in E. subst l.
    cbn [rev hd_error]. rewrite length_app. cbn [length].
    destruct (Nat.ltb_spec 0 (length (rev l') + 1)) as [_|]; [|lia].
    rewrite nth_error_app2 by lia.
    replace (length (rev l') + 1 - 1 - length (rev l')) with 0 by lia. reflexivity.
Qed.

(** The choice of the initial guess in the sequential loop, when the
    index is the number of fields built so far. *)
Lemma choose_initial_run (reuse : bool) (acc : list VelocityField) (s : reductor) :
  exists s1 log,
    (if reuse && (0 <? length acc) then
       v <- last_item acc ;;
       emit (EvLog (LogInfo "Reusing velocity field from previous registration ..." [])) ;;
       ret (Some v)
     else ret None) s =
      (Ok (if reuse && (0 <? length acc) then nth_error acc (length acc - 1) else None), s1) /\
    reference_solution s1 = reference_solution s /\
    trace s1 = trace s ++ log /\ registrations log = [].
Proof.
  destruct (reuse && (0 <? length acc)) eqn:E.
  - apply andb_prop in E. destruct E as [_ E].
    pose proof (hd_error_rev acc) as Hlast. rewrite E in Hlast.
    unfold last_item. destruct (rev acc) as [|x l'].
    + cbn in Hlast. apply Nat.ltb_lt in E.
      symmetry in Hlast. apply nth_error_None in Hlast. lia.
    + cbn [hd_error] in Hlast. rewrite <- Hlast.
      eexists. eexists. split; [reflexivity|]. cbn. repeat split.
  - exists s, []. rewrite app_nil_r. repeat split.
Qed.

Lemma perform_single_registration_run (input_ : ParameterValue * Solution)
    (initial : option VelocityField) (save : bool) (s : reductor) :
  exists s1 added,
    perform_single_registration input_ initial save s =
      (registration_value (reference_solution s) save input_ initial, s1) /\
    reference_solution s1 = reference_solution s /\
    trace s1 = trace s ++ added /\
    registrations added =
      [(input_, initial, gs_register (reference_solution s) (snd input_) initial)].
Proof.
  unfold perform_single_registration, registration_value. destruct input_ as [mu u].
  unfold bind, read, emit, update, lift. cbn [trace snd fst reference_solution].
  destruct (gs_register (reference_solution s) u initial) as [v|e] eqn:E.
  - destruct save.
    + destruct (save_results (reference_solution s) (mu, u) initial) as [[]|e];
        eexists; exists [EvRegister (mu, u) initial (Ok v); EvSave mu];
        (split; [reflexivity|]); cbn [trace reference_solution];
        rewrite <- ?app_assoc; repeat split; reflexivity.
    + eexists; exists [EvRegister (mu, u) initial (Ok v)];
        (split; [reflexivity|]); cbn [trace reference_solution]; repeat split; reflexivity.
  - eexists; exists [EvRegister (mu, u) initial (Raise e)];
      (split; [reflexivity|]); cbn [trace reference_solution]; repeat split; reflexivity.
Qed.

(** One turn of the sequential loop, when the index is the number of
    fields built so far. *)
Lemma register_sequentially_step (reuse save : bool) (x : ParameterValue * Solution)
    (rest : list (ParameterValue * Solution)) (acc : list VelocityField) (s : reductor) :
  exists s1 added,
    register_sequentially reuse save (x :: rest) (length acc) acc s =
      match registration_value (reference_solution s) save x
              (if reuse && (0 <? length acc) then nth_error acc (length acc - 1) else None) with
      | Ok v => register_sequentially reuse save rest (length (acc ++ [v])) (acc ++ [v]) s1
      | Raise e => (Raise e, s1)
      end /\
    reference_solution s1 = reference_solution s /\
    trace s1 = trace s ++ added /\
    registrations added =
      [(x, (if reuse && (0 <? length acc) then nth_error acc (length acc - 1) else None),
        gs_register (reference_solution s) (snd x)
          (if reuse && (0 <? length acc) then nth_error acc (length acc - 1) else None))].
Proof.
  cbn [register_sequentially].
  destruct (choose_initial_run reuse acc s) as [s0 [log [E0 [Hr0 [Ht0 Hn0]]]]].
  erewrite bind_ok by exact E0.
  destruct (perform_single_registration_run x
              (if reuse && (0 <? length acc) then nth_error acc (length acc - 1) else None)
              save s0) as [s1 [ad [E1 [Hr1 [Ht1 Hn1]]]]].
  rewrite Hr0 in E1, Hn1.
  exists s1, (log ++ ad). split; [|split; [congruence|split]].
  - destruct (registration_value _ _ _ _) as [v|e].
    + erewrite bind_ok by exact E1.
      rewrite length_app. cbn [length]. now rewrite Nat.add_1_r.
    + now apply bind_raise.
  - now rewrite Ht1, Ht0, app_assoc.
  - rewrite ReductorSpec.registrations_app, Hn0, Hn1. reflexivity.
Qed.

(** The guess of a turn can be read off the final list of fields. *)
Lemma guess_of_final (reuse : bool) (acc vs : list VelocityField) :
  (if reuse && (0 <? length acc + 0)
   then nth_error (acc ++ vs) (length acc + 0 - 1) else None) =
  (if reuse && (0 <? length acc) then nth_error acc (length acc - 1) else None).
Proof.
  rewrite Nat.add_0_r. destruct reuse; [|reflexivity]. cbn [andb].
  destruct (Nat.ltb_spec 0 (length acc)); [|reflexivity].
  apply nth_error_app1. lia.
Qed.

(** What the sequential loop returns. *)
Lemma register_sequentially_value (reuse save : bool) (sols : list (ParameterValue * Solution))
    (acc : list VelocityField) (s : reductor) (out : list VelocityField) :
  fst (register_sequentially reuse save sols (length acc) acc s) = Ok out <->
  exists vs,
    out = acc ++ vs /\ length vs = length sols /\
    forall k input_ v,
      nth_error sols k = Some input_ -> nth_error vs k = Some v ->
      registration_value (reference_solution s) save input_
        (if reuse && (0 <? length acc + k)
         then nth_error out (length acc + k - 1) else None) = Ok v.
Proof.
  revert acc s. induction sols as [|x rest IH]; intros acc s.
  - cbn [register_sequentially ret fst]. split.
    + intro E. injection E as <-. exists []. rewrite app_nil_r. repeat split.
      intros [|k] ? ? H; discriminate.
    + intros [vs [-> [Hlen _]]]. destruct vs; [|discriminate]. now rewrite app_nil_r.
  - destruct (register_sequentially_step reuse save x rest acc s)
      as [s1 [added [Estep [Href _]]]].
    rewrite Estep. split.
    + destruct (registration_value _ _ _ _) as [v|e] eqn:Ev; [|discriminate].
      intro E. apply IH in E. destruct E as [vs [Hout [Hlen Hchain]]].
      exists (v :: vs). rewrite <- app_assoc in Hout. cbn [app] in Hout.
      split; [exact Hout|]. split; [cbn; now rewrite Hlen|].
      intros [|k] input_ v' Hin Hv; cbn [nth_error] in Hin, Hv.
      * injection Hin as <-. injection Hv as <-.
        rewrite Hout, guess_of_final. exact Ev.
      * specialize (Hchain k input_ v' Hin Hv).
        rewrite Href, length_app in Hchain. cbn [length] in Hchain.
        replace (length acc + 1 + k) with (length acc + S k) in Hchain by lia.
        exact Hchain.
    + intros [vs [Hout [Hlen Hchain]]].
      destruct vs as [|v vs]; [discriminate|].
      pose proof (Hchain 0 x v eq_refl eq_refl) as H0.
      rewrite Hout, guess_of_final in H0. rewrite H0.
      apply IH. exists vs. rewrite <- app_assoc. cbn [app].
      split; [exact Hout|]. split; [cbn in Hlen; lia|].
      intros k input_ v' Hin Hv.
      rewrite Href, length_app. cbn [length].
      replace (length acc + 1 + k) with (length acc + S k) by lia.
      now apply (Hchain (S k)).
Qed.

(** What the parallel map returns. *)
Lemma register_in_parallel_value (save : bool) (sols : list (ParameterValue * Solution))
    (s : reductor) (out : list VelocityField) :
  fst (mapM (fun input_ => perform_single_registration input_ None save) sols s) = Ok out <->
  length out = length sols /\
  forall k input_ v,
    nth_error sols k = Some input_ -> nth_error out k = Some v ->
    registration_value (reference_solution s) save input_ None = Ok v.
Proof.
  revert s out. induction sols as [|x rest IH]; intros s out; cbn [mapM].
  - cbn [ret fst]. split.
    + intro E. injection E as <-. split; [reflexivity|]. intros [|k] ? ? H; discriminate.
    + intros [Hlen _]. destruct out; [reflexivity|discriminate].
  - destruct (perform_single_registration_run x None save s) as [s1 [ad [E1 [Href _]]]].
    destruct (registration_value (reference_solution s) save x None) as [v|e] eqn:Ev.
    + erewrite bind_ok by exact E1.
      unfold bind at 1.
      destruct (mapM _ rest s1) as [[vs|e] s2] eqn:Erest; cbn [ret fst].
      * assert (Hvs : fst (mapM (fun input_ => perform_single_registration input_ None save)
                             rest s1) = Ok vs) by now rewrite Erest.
        apply IH in Hvs. destruct Hvs as [Hlen Hall]. split.
        -- intro E. injection E as <-. split; [cbn; now rewrite Hlen|].
           intros [|k] input_ v' Hin Hv; cbn [nth_error] in Hin, Hv.
           ++ injection Hin as <-. injection Hv as <-. exact Ev.
           ++ rewrite <- Href. now apply (Hall k).
        -- intros [Hlen' Hall']. destruct out as [|v' out]; [discriminate|].
           pose proof (Hall' 0 x v' eq_refl eq_refl) as H0.
           assert (v' = v) by congruence. subst v'.
           assert (Hout : fst (mapM (fun input_ => perform_single_registration input_ None save)
                                 rest s1) = Ok out).
           { apply IH. split; [cbn in Hlen'; lia|].
             intros k input_ v' Hin Hv. rewrite Href. now apply (Hall' (S k)). }
           rewrite Erest in Hout. cbn in Hout. congruence.
      * split; [discriminate|]. intros [Hlen' Hall'].
        destruct out as [|v' out]; [discriminate|].
        assert (Hout : fst (mapM (fun input_ => perform_single_registration input_ None save)
                              rest s1) = Ok out).
        { apply IH. split; [cbn in Hlen'; lia|].
          intros k input_ v'' Hin Hv. rewrite Href. now apply (Hall' (S k)). }
        rewrite Erest in Hout. discriminate.
    + erewrite bind_raise by exact E1. cbn [fst]. split; [discriminate|].
      intros [Hlen' Hall']. destruct out as [|v' out]; [discriminate|].
      pose proof (Hall' 0 x v' eq_refl eq_refl) as H0. congruence.
Qed.

(** A registration hands back the field it computed, or raises. *)
Lemma registration_value_inv (reference : Solution) (save : bool)
    (x : ParameterValue * Solution) (initial : option VelocityField) :
  match registration_value reference save x initial with
  | Ok v => gs_register reference (snd x) initial = Ok v
  | Raise e =>
      gs_register reference (snd x) initial = Raise e \/
      (save = true /\ (exists v, gs_register reference (snd x) initial = Ok v) /\
       save_results reference x initial = Raise e)
  end.
Proof.
  unfold registration_value.
  destruct (gs_register reference (snd x) initial) as [v|e]; [|now left].
  destruct save; [|reflexivity].
  destruct (save_results reference x initial) as [[]|e]; [reflexivity|].
  right. split; [reflexivity|]. split; [now exists v|reflexivity].
Qed.

(** The registrations of a sequential run: one per solution when it
    returns; when it raises, the last one recorded failed, or it succeeded
    and its results could not be saved. *)
Lemma register_sequentially_outcomes (reuse save : bool) (sols : list (ParameterValue * Solution))
    (acc : list VelocityField) (s s' : reductor) (r : result (list VelocityField)) :
  register_sequentially reuse save sols (length acc) acc s = (r, s') ->
  exists added,
    trace s' = trace s ++ added /\
    match r with
    | Ok out =>
        exists vs, out = acc ++ vs /\ length vs = length sols /\
                   map snd (registrations added) = map Ok vs
    | Raise e =>
        exists k,
          k < length sols /\ length (registrations added) = S k /\
          (exists input_ initial outcome,
             nth_error (registrations added) k = Some (input_, initial, outcome) /\
             (outcome = Raise e \/
              (save = true /\ (exists v, outcome = Ok v) /\
               save_results (reference_solution s) input_ initial = Raise e))) /\
          (forall i reg, i < k -> nth_error (registrations added) i = Some reg ->
                         exists v, snd reg = Ok v)
    end.
Proof.
  revert acc s. induction sols as [|x rest IH]; intros acc s.
  - cbn [register_sequentially]. intro E. inversion E; subst.
    exists []. rewrite app_nil_r. split; [reflexivity|].
    exists []. rewrite app_nil_r. repeat split.
  - destruct (register_sequentially_step reuse save x rest acc s)
      as [s1 [added [Estep [Href [Htr Hreg]]]]].
    rewrite Estep.
    pose proof (registration_value_inv (reference_solution s) save x
                  (if reuse && (0 <? length acc) then nth_error acc (length acc - 1)
                   else None)) as Hinv.
    destruct (registration_value _ _ _ _) as [v|e] eqn:Ev.
    + intro E. destruct (IH _ _ E) as [added' [Htr' Hout]].
      exists (added ++ added'). split; [now rewrite Htr', Htr, app_assoc|].
      rewrite ReductorSpec.registrations_app, Hreg, Hinv. cbn [app].
      destruct r as [out|e].
      * destruct Hout as [vs [Hout [Hlen Hmap]]].
        exists (v :: vs). rewrite <- app_assoc in Hout. cbn [app] in Hout.
        split; [exact Hout|]. split; [cbn; now rewrite Hlen|].
        cbn [map snd]. now rewrite Hmap.
      * destruct Hout as [k [Hk [Hlen [[input_ [initial [outcome [Hlast Hwhy]]]] Hbefore]]]].
        exists (S k). cbn [length nth_error]. split; [lia|]. split; [now rewrite Hlen|].
        split.
        -- exists input_, initial, outcome. split; [exact Hlast|].
           rewrite Href in Hwhy. exact Hwhy.
        -- intros [|i] reg Hi Hnth; cbn [nth_error] in Hnth.
           ++ injection Hnth as <-. now exists v.
           ++ apply (Hbefore i); [lia|exact Hnth].
    + intro E. inversion E; subst.
      exists added. split; [exact Htr|]. rewrite Hreg.
      exists 0. cbn [length nth_error]. split; [lia|]. split; [reflexivity|].
      split.
      * eexists. eexists. eexists. split; [reflexivity|].
        destruct Hinv as [Hinv|[Hs [[v Hv] Hsave]]].
        -- now left.
        -- right. split; [exact Hs|]. split; [now exists v|exact Hsave].
      * intros i reg Hi. lia.
Qed.

End Values.

Section Coefficients.

Context {T : Type} {NumT : Num T} {C : Collaborators T}.

Lemma map_seq_nth {A B : Type} (h : A -> B) (l : list A) (d : A) :
  map (fun i => h (nth i l d)) (seq 0 (length l)) = map h l.
Proof.
  induction l as [|a l IH]; [reflexivity|].
  cbn [length seq map nth]. f_equal.
  rewrite <- seq_shift, map_map. exact IH.
Qed.

Lemma combine_map_r {A B B' : Type} (h : B -> B') (l : list A) (l' : list B) :
  combine l (map h l') = map (fun p => (fst p, h (snd p))) (combine l l').
Proof.
  revert l'. induction l as [|a l IH]; intros [|b l']; cbn; try reflexivity.
  now rewrite IH.
Qed.

Lemma stack_rows_defined {A : Type} (rows : list (list A)) (D : nat) :
  rows <> [] -> Forall (fun r => length r = D) rows ->
  Np.stack_rows rows = Ok (Np.mk_ndarray [length rows; D] (concat rows)).
Proof.
  intros Hne Hall. unfold Np.stack_rows. destruct rows as [|r0 rest]; [congruence|].
  assert (H0 : length r0 = D) by (inversion Hall; assumption).
  replace (forallb (fun r => length r =? length r0) (r0 :: rest)) with true.
  - now rewrite H0.
  - symmetry. apply forallb_forall. intros r Hr. apply Nat.eqb_eq.
    rewrite Forall_forall in Hall. rewrite (Hall r Hr). now symmetry.
Qed.

Lemma stack_rows_raises {A : Type} (rows : list (list A)) (e : exn) :
  Np.stack_rows rows = Raise e -> e = ValueError.
Proof.
  unfold Np.stack_rows. destruct rows; [congruence|].
  destruct (forallb _ _); congruence.
Qed.

(** The coefficient matrix, when the velocity fields can be stacked and
    their length is the length of the rows of the basis. *)
Lemma reduced_coefficients_inv (fvf : list VelocityField) (basis rc : Np.ndarray T) :
  reduced_coefficients_of fvf basis = Ok rc ->
  fvf <> [] /\
  exists r D,
    Np.shape basis = [r; D] /\
    Forall (fun v => length (to_numpy_flatten v) = D) fvf /\
    Np.shape rc = [length fvf; r] /\
    length (Np.data rc) = length fvf * r.
Proof.
  unfold reduced_coefficients_of.
  destruct (Np.stack_rows (map to_numpy_flatten fvf)) as [snapshot_matrix|] eqn:Es;
    [|discriminate].
  destruct (ReductorSpec.stack_rows_inv _ Es) as [D [Hrows ->]].
  intro Ec.
  destruct (ReductorSpec.dot_inv _ _ Ec) as [m [n [p [Ha [Hb [Hc [Hlen _]]]]]]].
  cbn [Np.shape] in Ha. injection Ha as <- <-.
  apply ReductorSpec.transpose_shape_inv in Hb.
  rewrite length_map in *.
  split; [intro H; subst fvf; discriminate|].
  exists p, D. split; [exact Hb|]. split; [now rewrite Forall_map in Hrows|].
  split; assumption.
Qed.

Lemma reduced_coefficients_defined (fvf : list VelocityField) (basis : Np.ndarray T)
    (r D : nat) :
  fvf <> [] -> Np.shape basis = [r; D] ->
  Forall (fun v => length (to_numpy_flatten v) = D) fvf ->
  exists rc, reduced_coefficients_of fvf basis = Ok rc.
Proof.
  intros Hf Hb Hrows. unfold reduced_coefficients_of.
  assert (Hne : map to_numpy_flatten fvf <> []) by (destruct fvf; [congruence|discriminate]).
  assert (Hrows' : Forall (fun r => length r = D) (map to_numpy_flatten fvf))
    by (rewrite Forall_map; exact Hrows).
  rewrite (stack_rows_defined Hne Hrows').
  unfold Np.dot, Np.transpose. cbn [Np.shape Np.build]. rewrite Hb. cbn [rev app].
  rewrite Nat.eqb_refl. eexists. reflexivity.
Qed.

Lemma reduced_coefficients_raises (fvf : list VelocityField) (basis : Np.ndarray T)
    (e : exn) :
  reduced_coefficients_of fvf basis = Raise e -> e = ValueError.
Proof.
  unfold reduced_coefficients_of.
  destruct (Np.stack_rows (map to_numpy_flatten fvf)) as [a|e1] eqn:Es.
  - unfold Np.dot.
    destruct (Np.shape a) as [|m [|n [|? ?]]]; try congruence.
    destruct (Np.shape (Np.transpose zero basis)) as [|n' [|p [|? ?]]]; try congruence.
    destruct (n =? n'); congruence.
  - intro E. injection E as <-. exact (stack_rows_raises _ Es).
Qed.

(** Row [i] of the coefficient matrix holds the Euclidean coefficients of
    velocity field [i]. *)
Lemma reduced_coefficients_row (fvf : list VelocityField) (basis rc : Np.ndarray T)
    (i : nat) (v : VelocityField) :
  reduced_coefficients_of fvf basis = Ok rc ->
  nth_error fvf i = Some v ->
  Np.row rc i = map (fun b => Np.vdot (to_numpy_flatten v) b) (Np.rows basis).
Proof.
  intros Hrc Hv.
  destruct (reduced_coefficients_inv _ _ Hrc) as [_ [r [D [Hb [_ [Hshape Hlen]]]]]].
  assert (Hi : i < length fvf) by (apply nth_error_Some; congruence).
  unfold Np.row, Np.rows. rewrite Hshape, Hb. cbn [nth].
  rewrite (SampleGridFacts.firstn_skipn_nths zero) by (rewrite Hlen; nia).
  rewrite map_map.
  apply map_ext_in. intros j Hj. apply in_seq in Hj.
  rewrite <- (@ReductorSpec.reduced_coefficients_entry T NumT C fvf basis rc i j v Hrc Hv)
    by (rewrite Hb; cbn [nth]; lia).
  unfold Np.get. rewrite Hshape. cbn [Np.ravel Np.size fold_right].
  f_equal. lia.
Qed.

Lemma rows_of_coefficients (fvf : list VelocityField) (basis rc : Np.ndarray T) :
  reduced_coefficients_of fvf basis = Ok rc ->
  Np.rows rc =
    map (fun v => map (fun b => Np.vdot (to_numpy_flatten v) b) (Np.rows basis)) fvf.
Proof.
  intro Hrc.
  destruct (reduced_coefficients_inv _ _ Hrc) as [Hne [r [D [_ [_ [Hshape _]]]]]].
  unfold Np.rows at 1. rewrite Hshape. cbn [nth].
  destruct fvf as [|v0 rest] eqn:Ef; [congruence|]. rewrite <- Ef in *.
  rewrite <- (map_seq_nth
                (fun v => map (fun b => Np.vdot (to_numpy_flatten v) b) (Np.rows basis))
                fvf v0).
  apply map_ext_in. intros i Hi. apply in_seq in Hi.
  eapply reduced_coefficients_row; [exact Hrc|]. apply nth_error_nth'. lia.
Qed.

End Coefficients.

Section Normalization.

Context {T : Type} {NumT : Num T} {C : Collaborators T}.

(** [normalize] once all four bounds are set. *)
Lemma normalize_run (data : list pair_) (self : reductor) (li hi lo ho : T) :
  min_input self = Some li -> max_input self = Some hi ->
  min_output self = Some lo -> max_output self = Some ho ->
  normalize data self =
    (Ok (map (fun p => (scale li hi (fst p), scale lo ho (snd p))) data), self).
Proof.
  intros Hli Hhi Hlo Hho. unfold normalize, hasattr, read, bind at 1.
  rewrite Hli. unfold bind at 1. rewrite Hhi. cbn [andb assert_].
  unfold bind at 1. cbn [ret]. unfold bind at 1. rewrite Hlo.
  unfold bind at 1. rewrite Hho. cbn [andb assert_].
  unfold bind at 1. cbn [ret].
  induction data as [|p data IH]; [reflexivity|].
  cbn [mapM map]. unfold normalize_input, normalize_output.
  erewrite bind_ok; [|erewrite bind_ok;
    [|erewrite bind_ok by (apply ReductorSpec.attr_some; exact Hli);
      erewrite bind_ok by (apply ReductorSpec.attr_some; exact Hhi); reflexivity]].
  2:{ erewrite bind_ok;
        [|erewrite bind_ok by (apply ReductorSpec.attr_some; exact Hlo);
          erewrite bind_ok by (apply ReductorSpec.attr_some; exact Hho); reflexivity].
      reflexivity. }
  erewrite bind_ok by exact IH. reflexivity.
Qed.

(** [normalize] when a bound is missing. *)
Lemma normalize_unset (data : list pair_) (self : reductor) :
  min_input self = None \/ max_input self = None \/
  min_output self = None \/ max_output self = None ->
  normalize data self = (Raise AssertionError, self).
Proof.
  intro H. unfold normalize, hasattr, read, bind.
  destruct (min_input self) eqn:E1, (max_input self) eqn:E2,
           (min_output self) eqn:E3, (max_output self) eqn:E4;
    cbn -[mapM]; rewrite ?E3, ?E4; try reflexivity;
    destruct H as [H|[H|[H|H]]]; discriminate.
Qed.

End Normalization.

Section Bounds.

Lemma fold_left_Qmin_le (xs : list Q) (x : Q) :
  (fold_left Qmin xs x <= x)%Q /\ Forall (fun y => (fold_left Qmin xs x <= y)%Q) xs.
Proof.
  revert x. induction xs as [|a xs IH]; intro x; cbn [fold_left].
  - split; [apply Qle_refl|constructor].
  - destruct (IH (Qmin x a)) as [H1 H2]. split; [|constructor; [|exact H2]].
    + eapply Qle_trans; [exact H1|apply Q.le_min_l].
    + eapply Qle_trans; [exact H1|apply Q.le_min_r].
Qed.

Lemma fold_left_Qmax_ge (xs : list Q) (x : Q) :
  (x <= fold_left Qmax xs x)%Q /\ Forall (fun y => (y <= fold_left Qmax xs x)%Q) xs.
Proof.
  revert x. induction xs as [|a xs IH]; intro x; cbn [fold_left].
  - split; [apply Qle_refl|constructor].
  - destruct (IH (Qmax x a)) as [H1 H2]. split; [|constructor; [|exact H2]].
    + eapply Qle_trans; [apply Q.le_max_l|exact H1].
    + eapply Qle_trans; [apply Q.le_max_r|exact H1].
Qed.

Context {C : Collaborators Q}.

Lemma np_min_le (arrays : list (list Q)) (lo : Q) :
  np_min arrays = Ok lo -> Forall (Forall (fun x => (lo <= x)%Q)) arrays.
Proof.
  unfold np_min. destruct (concat arrays) as [|x xs] eqn:E; [discriminate|].
  intro H. injection H as <-.
  destruct (fold_left_Qmin_le xs x) as [H1 H2].
  assert (Hall : Forall (fun y => (fold_left minimum xs x <= y)%Q) (concat arrays))
    by (rewrite E; constructor; assumption).
  rewrite Forall_concat in Hall. exact Hall.
Qed.

Lemma np_max_ge (arrays : list (list Q)) (hi : Q) :
  np_max arrays = Ok hi -> Forall (Forall (fun x => (x <= hi)%Q)) arrays.
Proof.
  unfold np_max. destruct (concat arrays) as [|x xs] eqn:E; [discriminate|].
  intro H. injection H as <-.
  destruct (fold_left_Qmax_ge xs x) as [H1 H2].
  assert (Hall : Forall (fun y => (y <= fold_left maximum xs x)%Q) (concat arrays))
    by (rewrite E; constructor; assumption).
  rewrite Forall_concat in Hall. exact Hall.
Qed.

(** A value between the bounds is scaled into the unit interval. *)
Lemma scale_within (lo hi : Q) (data : list Q) :
  ~ (hi == lo)%Q -> Forall (fun x => (lo <= x <= hi)%Q) data ->
  Forall (fun y => (0 <= y <= 1)%Q) (scale lo hi data).
Proof.
  intros Hne Hall. unfold scale. rewrite Forall_map.
  eapply Forall_impl; [|exact Hall]. intros x [H1 H2]. cbn [div sub Num_Q].
  assert (Hpos : (0 < hi - lo)%Q).
  { assert (Hle : (lo <= hi)%Q) by (eapply Qle_trans; eassumption).
    destruct (Qlt_le_dec lo hi) as [Hlt|Hge]; [lra|].
    exfalso. apply Hne. apply Qle_antisym; assumption. }
  split.
  - apply Qle_shift_div_l; [exact Hpos|]. lra.
  - apply Qle_shift_div_r; [exact Hpos|]. lra.
Qed.

(** Scaling undoes scaling back, in exact arithmetic, when the range is
    not empty. *)
Lemma scale_unscale (lo hi : Q) (y : list Q) :
  ~ (hi == lo)%Q -> Forall2 Qeq (scale lo hi (unscale lo hi y)) y.
Proof.
  intro Hne. unfold unscale, scale. rewrite map_map.
  induction y as [|a y IH]; cbn [map]; constructor; [|exact IH].
  cbn [mul add sub div Num_Q]. field. intro E. apply Hne. lra.
Qed.

End Bounds.

Section FloatBounds.

Lemma float_minimum_same (x : float) : float_minimum x x = x.
Proof. unfold float_minimum. destruct (PrimFloat.is_nan x), (PrimFloat.ltb x x); reflexivity. Qed.

Lemma float_maximum_same (x : float) : float_maximum x x = x.
Proof. unfold float_maximum. destruct (PrimFloat.is_nan x), (PrimFloat.ltb x x); reflexivity. Qed.

Lemma fold_left_same (f : float -> float -> float) (x : float) (xs : list float) :
  f x x = x -> Forall (fun y => y = x) xs -> fold_left f xs x = x.
Proof.
  intros Hf Hall. induction Hall as [|y xs -> _ IH]; cbn [fold_left]; [reflexivity|].
  now rewrite Hf.
Qed.

Context {C : Collaborators float}.

(** The extrema of arrays that hold one value only. *)
Lemma np_extrema_constant (arrays : list (list float)) (x : float) :
  concat arrays <> [] -> Forall (Forall (fun y => y = x)) arrays ->
  np_min arrays = Ok x /\ np_max arrays = Ok x.
Proof.
  intros Hne Hall. rewrite <- Forall_concat in Hall.
  unfold np_min, np_max. destruct (concat arrays) as [|y ys]; [congruence|].
  inversion Hall as [|? ? Hy Hys]; subst.
  cbn [minimum maximum Num_float].
  rewrite (fold_left_same _ (float_minimum_same x) Hys).
  rewrite (fold_left_same _ (float_maximum_same x) Hys). now split.
Qed.

(** The difference of a float and itself is a zero or NaN. *)
Lemma SFsub_same (x : spec_float) : sf_zero_or_nan (SF64sub x x).
Proof.
  destruct x as [s|s| |s m e].
  - destruct s; exact I.
  - destruct s; exact I.
  - exact I.
  - apply FloatFacts.SFsub_equal. unfold SFeqb. cbn [SFcompare].
    rewrite Z.compare_refl.
    change (PosDef.Pos.compare_cont Eq m m) with (Pos.compare m m).
    rewrite Pos.compare_refl. destruct s; reflexivity.
Qed.

Lemma non_finite_div_same (x m : float) :
  non_finite (PrimFloat.div (PrimFloat.sub x m) (PrimFloat.sub m m)) = true.
Proof.
  pose proof (SFsub_same (Prim2SF m)) as Hd. rewrite <- sub_spec in Hd.
  pose proof (FloatFacts.SFdiv_zero_or_nan (Prim2SF (PrimFloat.sub x m)) _ Hd) as Hq.
  rewrite <- div_spec in Hq. unfold non_finite.
  destruct (Prim2SF (PrimFloat.div _ _)); try contradiction; reflexivity.
Qed.

End FloatBounds.

Section RestartRuns.

Context {T : Type} {NumT : Num T} {C : Collaborators T}.

Lemma trainings_app (a b : list event) :
  trainings (a ++ b) = trainings a ++ trainings b.
Proof. unfold trainings. apply flat_map_app. Qed.

Lemma train_neural_network_trace (restart : nat) (layers : list nat)
    (training validation : list pair_) (s : reductor) :
  train_neural_network restart layers training validation s =
    (train restart layers training validation,
     snd (emit (EvTrain restart layers training validation) s)).
Proof. reflexivity. Qed.

Variables (layers : list nat) (training validation : list (@pair_ T)).

(** The loop runs every remaining restart, in order, when no training
    raises. *)
Lemma restarts_loop_all (remaining restart : nat) (best_nn : option Network)
    (best_loss : option T) (s : reductor) :
  (forall i, restart <= i < restart + remaining ->
     exists p, train i layers training validation = Ok p) ->
  of_one_restart layers training validation restart best_nn best_loss ->
  exists best_nn' best_loss' s',
    restarts_loop layers training validation remaining restart best_nn best_loss s =
      (Ok (best_nn', best_loss'), s') /\
    trainings (trace s') =
      trainings (trace s) ++
      map (fun i => (i, layers, training, validation)) (seq restart remaining) /\
    of_one_restart layers training validation (restart + remaining) best_nn' best_loss'.
Proof.
  revert restart best_nn best_loss s.
  induction remaining as [|remaining IH]; intros restart best_nn best_loss s Hok Hbest.
  - exists best_nn, best_loss, s. cbn [restarts_loop seq map]. rewrite app_nil_r, Nat.add_0_r.
    repeat split. exact Hbest.
  - cbn [restarts_loop]. unfold bind at 1. rewrite train_neural_network_trace.
    destruct (Hok restart ltac:(lia)) as [[nn loss] Hp]. rewrite Hp. cbv iota beta.
    set (s1 := snd (emit (EvTrain restart layers training validation) s)).
    assert (Htr : trainings (trace s1) =
                  trainings (trace s) ++ [(restart, layers, training, validation)]).
    { unfold s1. cbn [emit update snd trace]. now rewrite trainings_app. }
    assert (Hnext : forall bn bl, of_one_restart layers training validation (S restart) bn bl ->
              exists best_nn' best_loss' s',
                restarts_loop layers training validation remaining (S restart) bn bl s1 =
                  (Ok (best_nn', best_loss'), s') /\
                trainings (trace s') =
                  trainings (trace s) ++
                  map (fun i => (i, layers, training, validation)) (seq restart (S remaining)) /\
                of_one_restart layers training validation (restart + S remaining) best_nn' best_loss').
    { intros bn bl Hb.
      destruct (IH (S restart) bn bl s1 ltac:(intros i Hi; apply Hok; lia) Hb)
        as [bn' [bl' [s' [Hrun [Htr' Hb']]]]].
      exists bn', bl', s'. split; [exact Hrun|]. split.
      - rewrite Htr', Htr, <- app_assoc. reflexivity.
      - now rewrite Nat.add_succ_r. }
    destruct (improves best_loss loss) eqn:Himp.
    + apply Hnext. right. exists restart, nn, loss. repeat split; [lia|exact Hp].
    + apply Hnext. destruct Hbest as [[_ [_ ->]]|[j [nn' [loss' [Hj [Hp' [-> ->]]]]]]].
      * discriminate.
      * right. exists j, nn', loss'. repeat split; [lia|exact Hp'].
Qed.

End RestartRuns.

Section Events.

Context {T : Type} {NumT : Num T} {C : Collaborators T}.

(** A class [P] of events that contains every message, load, POD call
    and shuffle, and an invariant [Inv] of the attributes that recording an
    event does not disturb. *)
Variable P : event -> Prop.
Variable Inv : reductor -> Prop.

Hypothesis P_log : forall r, P (EvLog r).
Hypothesis P_load : forall path, P (EvLoad path).
Hypothesis P_pod : forall modes, P (EvPod modes).
Hypothesis P_shuffle : P EvShuffle.
Hypothesis Inv_emit : forall e s, Inv s -> Inv (snd (emit e s)).

Lemma inv_ret {A : Type} (a : A) : triple Inv (ret a) P (fun _ s => Inv s).
Proof. apply triple_ret. auto. Qed.

Lemma inv_lift {A : Type} (x : result A) : triple Inv (lift x) P (fun _ s => Inv s).
Proof. apply triple_lift. auto. Qed.

Lemma inv_read {A : Type} (f : reductor -> A) : triple Inv (read f) P (fun _ s => Inv s).
Proof. apply triple_read. auto. Qed.

Lemma inv_attr (field : reductor -> option T) :
  triple Inv (attr field) P (fun _ s => Inv s).
Proof. apply triple_attr. auto. Qed.

Lemma inv_assert (b : bool) : triple Inv (assert_ b) P (fun _ s => Inv s).
Proof. apply triple_assert. auto. Qed.

Lemma inv_emit (e : event) : P e -> triple Inv (emit e) P (fun _ s => Inv s).
Proof. intro He. apply triple_emit; auto. Qed.

Lemma inv_update (f : reductor -> reductor) :
  (forall s, trace (f s) = trace s) -> (forall s, Inv s -> Inv (f s)) ->
  triple Inv (update f) P (fun _ s => Inv s).
Proof. intros Ht Hi. apply triple_update; auto. Qed.

Lemma inv_seq {A B : Type} (m : M reductor A) (f : A -> M reductor B)
    (Post : B -> reductor -> Prop) :
  triple Inv m P (fun _ s => Inv s) -> (forall a, triple Inv (f a) P Post) ->
  triple Inv (bind m f) P Post.
Proof. intros Hm Hf. eapply triple_bind; [exact Hm|exact Hf]. Qed.

Lemma inv_mapM {A B : Type} (f : A -> M reductor B) (l : list A) :
  (forall a, In a l -> triple Inv (f a) P (fun _ s => Inv s)) ->
  triple Inv (mapM f l) P (fun bs s => Inv s /\ length bs = length l).
Proof.
  intro Hf.
  eapply triple_weaken; [apply triple_mapM with (Inv := Inv) (Q := fun _ _ => True)| |].
  - intros a Ha. eapply triple_weaken; [apply (Hf a Ha)|auto|]. cbv beta. auto.
  - auto.
  - cbv beta. intros bs s [Hall Hs]. split; [exact Hs|].
    symmetry. exact (Forall2_length Hall).
Qed.

Ltac inv_steps :=
  repeat first
    [ apply inv_ret
    | apply triple_raise
    | apply inv_lift
    | apply inv_read
    | apply inv_attr
    | apply inv_assert
    | apply inv_emit; solve [auto]
    | eapply inv_seq; [|intro] ].

Lemma inv_compute_full_solutions (file : option string) :
  (given_path file = None -> forall mu, P (EvSolve mu)) ->
  triple Inv (compute_full_solutions file) P (fun _ s => Inv s).
Proof.
  intro Hsolve. unfold compute_full_solutions.
  destruct (given_path file) as [path|]; [inv_steps|].
  eapply inv_seq; [apply inv_read|intro ts].
  eapply triple_weaken; [apply inv_mapM| |].
  - intros mu _. unfold solve. inv_steps.
  - auto.
  - cbv beta. tauto.
Qed.

Lemma inv_perform_single_registration (input_ : ParameterValue * Solution)
    (initial : option VelocityField) (save : bool) :
  (forall x i o, P (EvRegister x i o)) -> (forall mu, P (EvSave mu)) ->
  triple Inv (perform_single_registration input_ initial save) P (fun _ s => Inv s).
Proof.
  intros Hreg Hsave. unfold perform_single_registration. destruct input_ as [mu u].
  inv_steps. destruct save; inv_steps.
Qed.

Lemma inv_register_sequentially (reuse save : bool) (sols : list (ParameterValue * Solution))
    (i : nat) (fields : list VelocityField) :
  (forall x i o, P (EvRegister x i o)) -> (forall mu, P (EvSave mu)) ->
  triple Inv (register_sequentially reuse save sols i fields) P (fun _ s => Inv s).
Proof.
  intros Hreg Hsave. revert i fields.
  induction sols as [|x rest IH]; intros i fields; cbn [register_sequentially].
  - inv_steps.
  - eapply inv_seq.
    + destruct (reuse && (0 <? i)); [|inv_steps].
      unfold last_item. destruct (rev fields); inv_steps.
    + intro initial. eapply inv_seq; [now apply inv_perform_single_registration|].
      intro v0. apply IH.
Qed.

Lemma inv_register_full_solutions (sols : list (ParameterValue * Solution)) (save : bool)
    (num_workers : Z) (file : option string) (reuse : bool) :
  (given_path file = None -> forall x i o, P (EvRegister x i o)) ->
  (given_path file = None -> forall mu, P (EvSave mu)) ->
  triple Inv (register_full_solutions sols save num_workers file reuse) P
    (fun _ s => Inv s).
Proof.
  intros Hreg Hsave. unfold register_full_solutions.
  destruct (given_path file) as [path|]; [inv_steps|].
  eapply inv_seq; [apply inv_emit; auto|intros _].
  destruct (1 <? num_workers)%Z.
  - eapply inv_seq; [destruct reuse; inv_steps|intros _].
    eapply inv_seq; [apply inv_lift|intros _].
    eapply triple_weaken; [apply inv_mapM| |].
    + intros x _. apply inv_perform_single_registration; auto.
    + auto.
    + cbv beta. tauto.
  - apply inv_register_sequentially; auto.
Qed.

Lemma inv_normalize (data : list pair_) :
  triple Inv (normalize data) P (fun out s => Inv s /\ length out = length data).
Proof.
  unfold normalize, hasattr.
  do 6 (eapply inv_seq; [first [apply inv_read|apply inv_assert]|intro]).
  apply inv_mapM. intros elem _. unfold normalize_input, normalize_output. inv_steps.
Qed.

Lemma inv_restarts_loop (layers : list nat) (training validation : list pair_)
    (remaining restart : nat) (best_nn : option Network) (best_loss : option T) :
  (forall i, P (EvTrain i layers training validation)) ->
  triple Inv (restarts_loop layers training validation remaining restart best_nn best_loss)
    P (fun _ s => Inv s).
Proof.
  intro Htrain. revert restart best_nn best_loss.
  induction remaining as [|remaining IH]; intros restart best_nn best_loss;
    cbn [restarts_loop].
  - inv_steps.
  - eapply inv_seq; [unfold train_neural_network; inv_steps|].
    intros [nn loss]. destruct (improves best_loss loss); apply IH.
Qed.

Lemma inv_multiple_restarts_training (training validation : list pair_)
    (layers : list nat) (restarts : Z) :
  (forall i, P (EvTrain i layers training validation)) ->
  triple Inv (multiple_restarts_training training validation layers restarts) P
    (fun _ s => Inv s).
Proof.
  intro Htrain. unfold multiple_restarts_training.
  eapply inv_seq; [apply inv_emit; auto|intros _].
  eapply inv_seq; [now apply inv_restarts_loop|intro best].
  inv_steps.
Qed.

Lemma inv_build_rom (velocity_fields : Np.ndarray T) (nn : option Network) :
  triple Inv (build_rom velocity_fields nn) P (fun _ s => Inv s).
Proof. unfold build_rom. inv_steps. Qed.

End Events.

Section Reduce.

Context {T : Type} {NumT : Num T} {C : Collaborators T}.

Lemma triple_false {A : Type} (m : M reductor A) (P : event -> Prop)
    (Post : A -> reductor -> Prop) :
  triple (fun _ => False) m P Post.
Proof. intros s r s' []. Qed.

(** A fact about the values computed so far can be used by what
    follows. *)
Lemma triple_pure {A : Type} (Fact : Prop) (Pre : reductor -> Prop) (m : M reductor A)
    (P : event -> Prop) (Post : A -> reductor -> Prop) :
  (Fact -> triple Pre m P Post) -> triple (fun s => Fact /\ Pre s) m P Post.
Proof. intros H s r s' [Hf Hs] E. exact (H Hf s r s' Hs E). Qed.

Lemma triple_run {A : Type} (Pre : reductor -> Prop) (m : M reductor A)
    (P : event -> Prop) (Post : A -> reductor -> Prop) (self : reductor) :
  triple Pre m P Post -> Pre self ->
  (exists added, trace (snd (m self)) = trace self ++ added /\ Forall P added) /\
  (forall a, fst (m self) = Ok a -> Post a (snd (m self))).
Proof.
  intros H Hs. destruct (m self) as [r s'] eqn:E. exact (H self r s' Hs E).
Qed.

Lemma normalization_set_emit (e : event) (s : reductor) :
  normalization_set s -> normalization_set (snd (emit e s)).
Proof. intro H. exact H. Qed.

Lemma register_full_solutions_length (sols : list (ParameterValue * Solution)) (save : bool)
    (num_workers : Z) (file : option string) (reuse : bool) (s s' : reductor)
    (fields : list VelocityField) :
  given_path file = None ->
  register_full_solutions sols save num_workers file reuse s = (Ok fields, s') ->
  length fields = length sols.
Proof.
  intros Hfile. unfold register_full_solutions. rewrite Hfile.
  unfold bind at 1. cbn [emit update].
  destruct (1 <? num_workers)%Z.
  - intro E. apply bind_inv in E. destruct E as [[[] [s1 [_ E]]]|[e [_ E]]]; [|discriminate].
    apply bind_inv in E. destruct E as [[[] [s2 [_ E]]]|[e [_ E]]]; [|discriminate].
    assert (Hfst : fst (mapM (fun input_ => perform_single_registration input_ None save)
                          sols s2) = Ok fields) by now rewrite E.
    apply register_in_parallel_value in Hfst. tauto.
  - change 0 with (@length VelocityField []) at 1. intro E.
    destruct (register_sequentially_outcomes _ _ _ _ _ E) as [added [_ [vs [-> [Hlen _]]]]].
    exact Hlen.
Qed.

(** [compute_normalization] records nothing, and sets all four bounds
    when it returns. *)
Lemma compute_normalization_triple (training validation : list pair_) (P : event -> Prop) :
  triple (fun _ => True) (compute_normalization training validation) P
    (fun _ s => normalization_set s).
Proof.
  intros s r s' _ E. split.
  - assert (H : triple (fun _ => True) (compute_normalization training validation) P
                  (fun _ _ => True)).
    { unfold compute_normalization, set_min_input, set_max_input, set_min_output,
        set_max_output.
      repeat first [ apply inv_lift
                   | apply inv_update; [reflexivity|auto]
                   | eapply inv_seq; [|intro] ]. }
    exact (proj1 (H s r s' I E)).
  - intros [] ->.
    destruct (ReductorSpec.compute_normalization_sets _ _ _ E)
      as [li [hi [lo [ho [_ [_ [_ [_ [Ali [Ahi [Alo [Aho _]]]]]]]]]]]].
    now exists li, hi, lo, ho.
Qed.

Lemma training_pairs_length (full_solutions : list (ParameterValue * Solution))
    (fvf : list VelocityField) (basis rc : Np.ndarray T) :
  reduced_coefficients_of fvf basis = Ok rc ->
  length (training_pairs full_solutions rc) = Nat.min (length full_solutions) (length fvf).
Proof.
  intro Hrc. unfold training_pairs.
  rewrite (rows_of_coefficients _ _ Hrc), length_map, length_combine, length_map.
  reflexivity.
Qed.

Lemma validation_slice_length {X : Type} (l : list X) :
  length (validation_slice l) = Nat.min (length l / 10 + 1) (length l).
Proof. unfold validation_slice. now rewrite length_firstn, ReductorSpec.int_tenth_div. Qed.

Lemma training_slice_length {X : Type} (l : list X) :
  length (training_slice l) = length l - (length l / 10 + 2).
Proof. unfold training_slice. now rewrite length_skipn, ReductorSpec.int_tenth_div. Qed.

End Reduce.

End ReductorRunFacts.

Module ReductorRunSpec.

Import Reductor ReductorRuns ReductorRunFacts.

(** X6: without a cache file, [compute_full_solutions] solves the
    full-order model once for each training parameter, in the order of the
    training set, and pairs each parameter with its own solution.  The
    first solve that raises ends the call with that exception: the
    parameters after it are not solved for, and the solutions computed
    before it are lost. *)
Theorem compute_full_solutions_in_order {T : Type} {NumT : Num T} {C : Collaborators T}
    (file : option string) (self : reductor) :
  given_path file = None ->
  let run := compute_full_solutions file self in
  match fst run with
  | Ok sols =>
      map fst sols = training_set self /\
      Forall (fun p => fom_solve (fst p) = Ok (snd p)) sols /\
      trace (snd run) = trace self ++ map EvSolve (training_set self)
  | Raise e =>
      exists k mu,
        nth_error (training_set self) k = Some mu /\ fom_solve mu = Raise e /\
        (forall i mu', i < k -> nth_error (training_set self) i = Some mu' ->
                       exists u, fom_solve mu' = Ok u) /\
        trace (snd run) = trace self ++ map EvSolve (firstn (S k) (training_set self))
  end.
Proof.
  intros Hfile run.
  assert (Hrun : run = mapM (fun mu => u <- solve mu ;; ret (mu, u)) (training_set self) self).
  { unfold run, compute_full_solutions. rewrite Hfile. reflexivity. }
  clearbody run. rewrite Hrun.
  destruct (mapM _ (training_set self) self) as [r s'] eqn:E.
  apply solve_all_run in E. exact E.
Qed.

Lemma compute_full_solutions_in_order_witness :
  let run := compute_full_solutions (C := Toy.collaborators_Q) None Toy.reductor_three in
  match fst run with
  | Ok sols =>
      map fst sols = training_set Toy.reductor_three /\
      Forall (fun p => fom_solve (Collaborators := Toy.collaborators_Q) (fst p) = Ok (snd p)) sols /\
      trace (snd run) = trace Toy.reductor_three ++ map EvSolve (training_set Toy.reductor_three)
  | Raise e =>
      exists k mu,
        nth_error (training_set Toy.reductor_three) k = Some mu /\ fom_solve (Collaborators := Toy.collaborators_Q) mu = Raise e /\
        (forall i mu', i < k -> nth_error (training_set Toy.reductor_three) i = Some mu' ->
                       exists u, fom_solve (Collaborators := Toy.collaborators_Q) mu' = Ok u) /\
        trace (snd run) =
          trace Toy.reductor_three ++ map EvSolve (firstn (S k) (training_set Toy.reductor_three))
  end.
Proof.
  exact (@compute_full_solutions_in_order Q Num_Q Toy.collaborators_Q None
           Toy.reductor_three eq_refl).
Defined.

(** X7: what [register_full_solutions] returns.  Without a cache file,
    a list [fields] that the call returns has one field per full solution,
    and field [k] is what the registration of solution [k] against the
    reference solution hands back, with the initial guess [fields[k - 1]]
    for [k >= 1] in the sequential loop with reuse and with no initial guess
    otherwise; with [save_intermediate_results] the results of each of
    these registrations were saved.  In the sequential loop the converse
    holds: the call returns [fields] whenever every registration, and
    every block saving its results, returns in this way.  Without reuse,
    what the call returns does not depend on the number of workers. *)
Theorem register_full_solutions_value {T : Type} {NumT : Num T} {C : Collaborators T}
    (full_solutions : list (ParameterValue * Solution)) (save : bool) (num_workers : Z)
    (file : option string) (reuse : bool) (self : reductor) :
  given_path file = None ->
  (forall fields,
     fst (register_full_solutions full_solutions save num_workers file reuse self) = Ok fields ->
     registered (reference_solution self) save reuse num_workers full_solutions fields) /\
  ((num_workers <= 1)%Z ->
   forall fields,
     registered (reference_solution self) save reuse num_workers full_solutions fields ->
     fst (register_full_solutions full_solutions save num_workers file reuse self) =
       Ok fields) /\
  (reuse = false ->
   forall num_workers' fields fields',
     fst (register_full_solutions full_solutions save num_workers file reuse self) =
       Ok fields ->
     fst (register_full_solutions full_solutions save num_workers' file reuse self) =
       Ok fields' ->
     fields = fields').
Proof.
  intro Hfile.
  assert (Hsound : forall w fields,
            fst (register_full_solutions full_solutions save w file reuse self) = Ok fields ->
            registered (reference_solution self) save reuse w full_solutions fields).
  { intros w fields. unfold register_full_solutions, registered, initial_guess.
    rewrite Hfile. unfold bind at 1. cbn [emit update].
    destruct (1 <? w)%Z.
    - rewrite andb_false_r. cbn [andb negb].
      set (s0 := {| training_set := training_set self;
                    reference_parameter := reference_parameter self;
                    reference_solution := reference_solution self;
                    min_input := min_input self;
                    max_input := max_input self;
                    min_output := min_output self;
                    max_output := max_output self;
                    trace := trace self ++
                      [EvLog (LogBlock "Computing mappings and vector fields ..." [])] |}).
      assert (Hwarn : exists s1,
                (if reuse
                 then emit (EvLog (LogWarning
                        "Reusing velocity fields not possible with workers ..." [w]))
                 else ret tt) s0 = (Ok tt, s1) /\
                reference_solution s1 = reference_solution self).
      { destruct reuse; eexists; split; reflexivity. }
      destruct Hwarn as [s1 [E1 Href]].
      erewrite bind_ok by exact E1.
      unfold bind at 1, lift at 1.
      destruct (start_pool w full_solutions) as [[]|e]; [|discriminate].
      rewrite register_in_parallel_value, Href. tauto.
    - rewrite andb_true_r. cbn [negb].
      change 0 with (@length VelocityField []) at 1.
      rewrite register_sequentially_value. cbn [reference_solution length app Nat.add].
      intros [vs [-> [Hlen Hchain]]]. split; [exact Hlen|exact Hchain]. }
  split; [apply Hsound|]. split.
  - intros Hw fields. unfold register_full_solutions, registered, initial_guess.
    rewrite Hfile. unfold bind at 1. cbn [emit update].
    destruct (Z.ltb_spec 1 num_workers) as [|_]; [lia|].
    rewrite andb_true_r. cbn [negb].
    intros [Hlen Hchain].
    change 0 with (@length VelocityField []) at 1.
    apply register_sequentially_value. cbn [reference_solution length app Nat.add].
    exists fields. repeat split; assumption.
  - intros Hreuse w' fields fields' Hrun Hrun'.
    apply Hsound in Hrun. apply Hsound in Hrun'.
    destruct Hrun as [Hlen Hall]. destruct Hrun' as [Hlen' Hall'].
    unfold initial_guess in Hall, Hall'. rewrite Hreuse in Hall, Hall'.
    cbn [andb] in Hall, Hall'.
    apply nth_error_ext. intro k.
    destruct (nth_error fields k) as [v|] eqn:Ev.
    + assert (Hk : k < length full_solutions)
        by (rewrite <- Hlen; apply nth_error_Some; congruence).
      destruct (nth_error full_solutions k) as [x|] eqn:Ex;
        [|apply nth_error_None in Ex; lia].
      destruct (nth_error fields' k) as [v'|] eqn:Ev';
        [|apply nth_error_None in Ev'; lia].
      pose proof (Hall k x v Ex Ev) as H1. pose proof (Hall' k x v' Ex Ev') as H2.
      congruence.
    + apply nth_error_None in Ev. symmetry. apply nth_error_None. lia.
Qed.

Lemma register_full_solutions_value_witness :
  exists fields,
    fst (register_full_solutions (C := Toy.collaborators_Q) Toy.two_solutions true 1 None
           false Toy.reductor_Q) = Ok fields /\
    registered (C := Toy.collaborators_Q) (reference_solution Toy.reductor_Q) true false 1
      Toy.two_solutions fields /\
    length fields = 2 /\
    fst (register_full_solutions (C := Toy.collaborators_Q) Toy.two_solutions true 2 None
           false Toy.reductor_Q) = Ok fields /\
    (forall fields',
       fst (register_full_solutions (C := Toy.collaborators_Q) Toy.two_solutions true 2 None
              false Toy.reductor_Q) = Ok fields' ->
       fields = fields').
Proof.
  destruct (@register_full_solutions_value Q Num_Q Toy.collaborators_Q Toy.two_solutions true
              1%Z None false Toy.reductor_Q eq_refl) as [Hsound [Hseq Hworkers]].
  assert (Hrun : exists fields,
            fst (register_full_solutions (C := Toy.collaborators_Q) Toy.two_solutions true 1
                   None false Toy.reductor_Q) = Ok fields /\ length fields = 2)
    by (eexists; split; [vm_compute; reflexivity|reflexivity]).
  destruct Hrun as [fields [Hrun Hlen]].
  exists fields.
  split; [exact (Hseq ltac:(lia) fields (Hsound fields Hrun))|].
  split; [exact (Hsound fields Hrun)|].
  split; [exact Hlen|].
  assert (Hrun2 : exists fields',
            fst (register_full_solutions (C := Toy.collaborators_Q) Toy.two_solutions true 2
                   None false Toy.reductor_Q) = Ok fields')
    by (eexists; vm_compute; reflexivity).
  destruct Hrun2 as [fields' Hrun2].
  split.
  - rewrite (Hworkers eq_refl 2%Z fields fields' Hrun Hrun2). exact Hrun2.
  - intros fields'' Hrun''. exact (Hworkers eq_refl 2%Z fields fields'' Hrun Hrun'').
Defined.

(** X8: the registrations of the sequential loop.  With
    [num_workers <= 1] and no cache file, a call that returns has recorded
    one registration per full solution, and the fields it returns are their
    outcomes in order.  A call that raises has recorded last either the
    registration that raised, or, with [save_intermediate_results], a
    registration that returned and whose results could not be saved; every
    registration before it succeeded, and no solution after it was
    registered. *)
Theorem sequential_registration_outcomes {T : Type} {NumT : Num T} {C : Collaborators T}
    (full_solutions : list (ParameterValue * Solution)) (save : bool) (num_workers : Z)
    (file : option string) (reuse : bool) (self : reductor) :
  given_path file = None ->
  (num_workers <= 1)%Z ->
  let run := register_full_solutions full_solutions save num_workers file reuse self in
  exists added,
    trace (snd run) = trace self ++ added /\
    match fst run with
    | Ok fields =>
        length fields = length full_solutions /\
        map snd (registrations added) = map Ok fields
    | Raise e =>
        exists k,
          k < length full_solutions /\ length (registrations added) = S k /\
          (exists input_ initial outcome,
             nth_error (registrations added) k = Some (input_, initial, outcome) /\
             (outcome = Raise e \/
              (save = true /\ (exists v, outcome = Ok v) /\
               save_results (reference_solution self) input_ initial = Raise e))) /\
          (forall i reg, i < k -> nth_error (registrations added) i = Some reg ->
                         exists v, snd reg = Ok v)
    end.
Proof.
  intros Hfile Hw run.
  assert (Hrun : run = register_sequentially reuse save full_solutions
                         (@length VelocityField []) []
                         (snd (emit (EvLog (LogBlock "Computing mappings and vector fields ..."
                                              [])) self))).
  { unfold run, register_full_solutions. rewrite Hfile.
    destruct (Z.ltb_spec 1 num_workers) as [|_]; [lia|]. reflexivity. }
  clearbody run. rewrite Hrun.
  destruct (register_sequentially reuse save full_solutions _ _ _) as [r s'] eqn:E.
  destruct (register_sequentially_outcomes _ _ _ _ _ E) as [added [Htr Hout]].
  cbn [trace] in Htr. cbn [fst snd].
  exists ([EvLog (LogBlock "Computing mappings and vector fields ..." [])] ++ added).
  split; [now rewrite Htr, app_assoc|].
  rewrite ReductorSpec.registrations_app. cbn [registrations flat_map app].
  destruct r as [out|e].
  - destruct Hout as [vs [Hout [Hlen Hmap]]]. cbn [app] in Hout. subst out. now split.
  - exact Hout.
Qed.

Lemma sequential_registration_outcomes_witness :
  let run := register_full_solutions (C := Toy.collaborators_read_only) Toy.two_solutions true
               1 None true Toy.reductor_read_only in
  fst run = Raise (ExternalError "intermediate_results") /\
  exists added,
    trace (snd run) = trace Toy.reductor_read_only ++ added /\
    match fst run with
    | Ok fields =>
        length fields = length Toy.two_solutions /\
        map snd (registrations added) = map Ok fields
    | Raise e =>
        exists k,
          k < length Toy.two_solutions /\ length (registrations added) = S k /\
          (exists input_ initial outcome,
             nth_error (registrations added) k = Some (input_, initial, outcome) /\
             (outcome = Raise e \/
              (true = true /\ (exists v, outcome = Ok v) /\
               save_results (Collaborators := Toy.collaborators_read_only)
                 (reference_solution Toy.reductor_read_only) input_ initial = Raise e))) /\
          (forall i reg, i < k -> nth_error (registrations added) i = Some reg ->
                         exists v, snd reg = Ok v)
    end.
Proof.
  split; [vm_compute; reflexivity|].
  apply (@sequential_registration_outcomes Q Num_Q Toy.collaborators_read_only
           Toy.two_solutions true 1 None true Toy.reductor_read_only).
  - reflexivity.
  - lia.
Defined.

(** X9: the coefficient matrix.  For a basis array of [r] rows of
    length [D], [reduced_coefficients_of] returns exactly when there is at
    least one velocity field and every velocity field, flattened, has length
    [D]; every other list of fields ends in the [ValueError] of [np.stack]
    or of the matrix product.  The matrix has one row per velocity field
    and one column per row of the basis, so the output layer of the network
    has one unit per basis vector; a basis without rows gives a matrix
    without columns, and no error. *)
Theorem reduced_coefficients_shape {T : Type} {NumT : Num T} {C : Collaborators T}
    (full_velocity_fields : list VelocityField) (reduced_velocity_fields : Np.ndarray T)
    (r D : nat) (hidden_layers : list nat) :
  Np.shape reduced_velocity_fields = [r; D] ->
  ((exists rc, reduced_coefficients_of full_velocity_fields reduced_velocity_fields = Ok rc) <->
   full_velocity_fields <> [] /\
   Forall (fun v => length (to_numpy_flatten v) = D) full_velocity_fields) /\
  (forall rc,
     reduced_coefficients_of full_velocity_fields reduced_velocity_fields = Ok rc ->
     Np.shape rc = [length full_velocity_fields; r] /\
     length (Np.data rc) = length full_velocity_fields * r /\
     layers_sizes_of hidden_layers rc = [1] ++ hidden_layers ++ [r]) /\
  (forall e,
     reduced_coefficients_of full_velocity_fields reduced_velocity_fields = Raise e ->
     e = ValueError).
Proof.
  intro Hbasis.
  assert (Hinv : forall rc,
            reduced_coefficients_of full_velocity_fields reduced_velocity_fields = Ok rc ->
            full_velocity_fields <> [] /\
            Forall (fun v => length (to_numpy_flatten v) = D) full_velocity_fields /\
            Np.shape rc = [length full_velocity_fields; r] /\
            length (Np.data rc) = length full_velocity_fields * r).
  { intros rc Hrc.
    destruct (reduced_coefficients_inv _ _ Hrc) as [H1 [r' [D' [Hb [H2 [H3 H4]]]]]].
    rewrite Hbasis in Hb. injection Hb as <- <-. auto. }
  split; [split|split].
  - intros [rc Hrc]. destruct (Hinv rc Hrc) as [H1 [H2 _]]. auto.
  - intros [H1 H2]. now apply reduced_coefficients_defined with (r := r) (D := D).
  - intros rc Hrc. destruct (Hinv rc Hrc) as [_ [_ [Hshape Hlen]]].
    split; [exact Hshape|]. split; [exact Hlen|].
    unfold layers_sizes_of. now rewrite Hshape.
  - intros e He. exact (reduced_coefficients_raises _ _ He).
Qed.

Lemma reduced_coefficients_shape_witness :
  (exists rc,
     reduced_coefficients_of (C := Toy.collaborators_Q) [[1%Q; 2%Q]; [3%Q; 4%Q]; [5%Q; 6%Q]]
       (Np.mk_ndarray [1; 2] [1%Q; 0%Q]) = Ok rc /\
     Np.shape rc = [3; 1] /\
     length (Np.data rc) = 3 * 1 /\
     layers_sizes_of [30; 30] rc = [1; 30; 30; 1]) /\
  (exists rc,
     reduced_coefficients_of (C := Toy.collaborators_Q) [[1%Q; 2%Q]; [3%Q; 4%Q]; [5%Q; 6%Q]]
       (Np.mk_ndarray [0; 2] []) = Ok rc /\
     Np.shape rc = [3; 0] /\
     length (Np.data rc) = 3 * 0 /\
     layers_sizes_of [30; 30] rc = [1; 30; 30; 0]).
Proof.
  split.
  - eexists. split; [vm_compute; reflexivity|].
    apply (proj1 (proj2 (@reduced_coefficients_shape Q Num_Q Toy.collaborators_Q
                           [[1%Q; 2%Q]; [3%Q; 4%Q]; [5%Q; 6%Q]]
                           (Np.mk_ndarray [1; 2] [1%Q; 0%Q]) 1 2 [30; 30] eq_refl))).
    vm_compute. reflexivity.
  - eexists. split; [vm_compute; reflexivity|].
    apply (proj1 (proj2 (@reduced_coefficients_shape Q Num_Q Toy.collaborators_Q
                           [[1%Q; 2%Q]; [3%Q; 4%Q]; [5%Q; 6%Q]]
                           (Np.mk_ndarray [0; 2] []) 0 2 [30; 30] eq_refl))).
    vm_compute. reflexivity.
Defined.

(** X10: the training pairs.  Pair [k] consists of the tensor of the
    components of the parameter of full solution [k] and of the
    coefficients of velocity field [k]: its Euclidean dot products with the
    rows of the basis, in the order of the basis.  Full solutions and
    velocity fields are paired by position; when their numbers differ, as
    they may with cache files, the surplus of the longer list is dropped
    without an error. *)
Theorem training_pairs_coefficients {T : Type} {NumT : Num T} {C : Collaborators T}
    (full_solutions : list (ParameterValue * Solution)) (full_velocity_fields : list VelocityField)
    (reduced_velocity_fields rc : Np.ndarray T) :
  reduced_coefficients_of full_velocity_fields reduced_velocity_fields = Ok rc ->
  training_pairs full_solutions rc =
    map (fun p => (components (fst (fst p)),
                   map (fun b => Np.vdot (to_numpy_flatten (snd p)) b)
                       (Np.rows reduced_velocity_fields)))
        (combine full_solutions full_velocity_fields) /\
  length (training_pairs full_solutions rc) =
    Nat.min (length full_solutions) (length full_velocity_fields).
Proof.
  intro Hrc.
  assert (Hpairs : training_pairs full_solutions rc =
            map (fun p => (components (fst (fst p)),
                           map (fun b => Np.vdot (to_numpy_flatten (snd p)) b)
                               (Np.rows reduced_velocity_fields)))
                (combine full_solutions full_velocity_fields)).
  { unfold training_pairs. rewrite (rows_of_coefficients _ _ Hrc).
    rewrite combine_map_r, map_map. reflexivity. }
  split; [exact Hpairs|].
  rewrite Hpairs, length_map. apply length_combine.
Qed.

Lemma training_pairs_coefficients_witness :
  exists rc,
    reduced_coefficients_of (C := Toy.collaborators_Q) [[1%Q; 2%Q]; [3%Q; 4%Q]; [5%Q; 6%Q]]
      (Np.mk_ndarray [1; 2] [1%Q; 0%Q]) = Ok rc /\
    training_pairs (C := Toy.collaborators_Q) Toy.two_solutions rc =
      map (fun p => (components (Collaborators := Toy.collaborators_Q) (fst (fst p)),
                     map (fun b => Np.vdot (to_numpy_flatten (Collaborators := Toy.collaborators_Q)
                                              (snd p)) b)
                         (Np.rows (Np.mk_ndarray [1; 2] [1%Q; 0%Q]))))
          (combine Toy.two_solutions [[1%Q; 2%Q]; [3%Q; 4%Q]; [5%Q; 6%Q]]) /\
    length (training_pairs (C := Toy.collaborators_Q) Toy.two_solutions rc) = Nat.min 2 3.
Proof.
  eexists. split; [vm_compute; reflexivity|].
  apply (@training_pairs_coefficients Q Num_Q Toy.collaborators_Q Toy.two_solutions
           [[1%Q; 2%Q]; [3%Q; 4%Q]; [5%Q; 6%Q]] (Np.mk_ndarray [1; 2] [1%Q; 0%Q])).
  vm_compute. reflexivity.
Defined.

(** X11: the bounds that [compute_normalization] stores enclose every
    input entry and every output entry of the training and validation
    data, and, in exact arithmetic and with non-empty ranges, [normalize]
    then maps every entry of that data into the interval from zero to
    one. *)
Theorem normalized_within_unit_interval {C : Collaborators Q}
    (training validation : list pair_) (self0 self : reductor) :
  compute_normalization training validation self0 = (Ok tt, self) ->
  exists li hi lo ho,
    min_input self = Some li /\ max_input self = Some hi /\
    min_output self = Some lo /\ max_output self = Some ho /\
    Forall (fun p => Forall (fun x => (li <= x <= hi)%Q) (fst p) /\
                     Forall (fun y => (lo <= y <= ho)%Q) (snd p))
      (training ++ validation) /\
    (~ (hi == li)%Q -> ~ (ho == lo)%Q ->
     forall data, incl data (training ++ validation) ->
       exists out,
         normalize data self = (Ok out, self) /\ length out = length data /\
         Forall (fun p => Forall (fun x => (0 <= x <= 1)%Q) (fst p) /\
                          Forall (fun y => (0 <= y <= 1)%Q) (snd p)) out).
Proof.
  intro Hrun.
  destruct (ReductorSpec.compute_normalization_sets _ _ _ Hrun)
    as [li [hi [lo [ho [Hli [Hhi [Hlo [Hho [Ali [Ahi [Alo [Aho _]]]]]]]]]]]].
  exists li, hi, lo, ho. repeat (split; [assumption|]).
  apply np_min_le in Hli, Hlo. apply np_max_ge in Hhi, Hho.
  rewrite Forall_map in Hli, Hhi, Hlo, Hho.
  assert (Hall : Forall (fun p => Forall (fun x => (li <= x <= hi)%Q) (fst p) /\
                                  Forall (fun y => (lo <= y <= ho)%Q) (snd p))
                   (training ++ validation)).
  { rewrite Forall_forall in *. intros p Hp. split.
    - specialize (Hli p Hp). specialize (Hhi p Hp). rewrite Forall_forall in *.
      intros x Hx. split; auto.
    - specialize (Hlo p Hp). specialize (Hho p Hp). rewrite Forall_forall in *.
      intros x Hx. split; auto. }
  split; [exact Hall|].
  intros Hin Hout data Hincl.
  rewrite (normalize_run data self Ali Ahi Alo Aho).
  eexists. split; [reflexivity|]. split; [apply length_map|].
  rewrite Forall_map. apply Forall_forall. intros p Hp. cbn [fst snd].
  rewrite Forall_forall in Hall. destruct (Hall p (Hincl p Hp)) as [H1 H2].
  split; now apply scale_within.
Qed.

Lemma normalized_within_unit_interval_witness :
  exists li hi lo ho,
    min_input (snd (compute_normalization Toy.training_pair Toy.validation_pair
                      Toy.reductor_Q)) = Some li /\
    max_input (snd (compute_normalization Toy.training_pair Toy.validation_pair
                      Toy.reductor_Q)) = Some hi /\
    min_output (snd (compute_normalization Toy.training_pair Toy.validation_pair
                       Toy.reductor_Q)) = Some lo /\
    max_output (snd (compute_normalization Toy.training_pair Toy.validation_pair
                       Toy.reductor_Q)) = Some ho /\
    Forall (fun p => Forall (fun x => (li <= x <= hi)%Q) (fst p) /\
                     Forall (fun y => (lo <= y <= ho)%Q) (snd p))
      (Toy.training_pair ++ Toy.validation_pair) /\
    (~ (hi == li)%Q -> ~ (ho == lo)%Q ->
     forall data, incl data (Toy.training_pair ++ Toy.validation_pair) ->
       exists out,
         normalize data (snd (compute_normalization Toy.training_pair Toy.validation_pair
                                Toy.reductor_Q)) =
           (Ok out, snd (compute_normalization Toy.training_pair Toy.validation_pair
                           Toy.reductor_Q)) /\
         length out = length data /\
         Forall (fun p => Forall (fun x => (0 <= x <= 1)%Q) (fst p) /\
                          Forall (fun y => (0 <= y <= 1)%Q) (snd p)) out).
Proof.
  apply (@normalized_within_unit_interval Toy.collaborators_Q Toy.training_pair
           Toy.validation_pair Toy.reductor_Q).
  reflexivity.
Defined.

(** X12: the normalisation needs [compute_normalization] first.  On a
    reductor as the constructor leaves it, [normalize] fails its assertion,
    also for an empty list, and the three methods that the reduced model
    calls back raise [AttributeError]; none of them changes the
    reductor. *)
Theorem normalization_requires_bounds {T : Type} {NumT : Num T} {C : Collaborators T}
    (training_set : list ParameterValue) (reference_parameter : ParameterValue)
    (self : reductor) (data : list pair_) (x : list T) :
  init training_set reference_parameter = Ok self ->
  normalize data self = (Raise AssertionError, self) /\
  normalize_input x self = (Raise AttributeError, self) /\
  normalize_output x self = (Raise AttributeError, self) /\
  denormalize_output x self = (Raise AttributeError, self).
Proof.
  unfold init. destruct (fom_solve reference_parameter) as [u|e]; [|discriminate].
  intro E. injection E as <-. split; [|repeat split].
  apply normalize_unset. now left.
Qed.

Lemma normalization_requires_bounds_witness :
  exists self,
    init (C := Toy.collaborators_Q) [1%Q; 2%Q] 1%Q = Ok self /\
    normalize Toy.training_pair self = (Raise AssertionError, self) /\
    normalize_input [1%Q] self = (Raise AttributeError, self) /\
    normalize_output [1%Q] self = (Raise AttributeError, self) /\
    denormalize_output [1%Q] self = (Raise AttributeError, self).
Proof.
  eexists. split; [reflexivity|].
  apply (@normalization_requires_bounds Q Num_Q Toy.collaborators_Q [1%Q; 2%Q] 1%Q).
  reflexivity.
Defined.

(** X13: [normalize_output] undoes [denormalize_output].  After
    [compute_normalization] has set output bounds with
    [max_output != min_output], normalising the denormalised prediction of
    the network gives the prediction back, in exact arithmetic: together
    with the opposite round trip, the two maps are inverse bijections. *)
Theorem normalize_inverts_denormalize {C : Collaborators Q}
    (training validation : list pair_) (self0 self : reductor) :
  compute_normalization training validation self0 = (Ok tt, self) ->
  exists lo hi,
    min_output self = Some lo /\ max_output self = Some hi /\
    (~ (hi == lo)%Q ->
     forall y, exists x y',
       denormalize_output y self = (Ok x, self) /\
       normalize_output x self = (Ok y', self) /\
       Forall2 Qeq y' y).
Proof.
  intro Hrun.
  destruct (ReductorSpec.compute_normalization_sets _ _ _ Hrun)
    as [li [hi [lo [ho [_ [_ [_ [_ [_ [_ [Hlo [Hho _]]]]]]]]]]]].
  exists lo, ho. split; [exact Hlo|]. split; [exact Hho|].
  intros Hne y. exists (unscale lo ho y), (scale lo ho (unscale lo ho y)).
  split; [|split].
  - unfold denormalize_output.
    erewrite bind_ok by (apply ReductorSpec.attr_some; exact Hho).
    erewrite bind_ok by (apply ReductorSpec.attr_some; exact Hlo). reflexivity.
  - unfold normalize_output.
    erewrite bind_ok by (apply ReductorSpec.attr_some; exact Hlo).
    erewrite bind_ok by (apply ReductorSpec.attr_some; exact Hho). reflexivity.
  - now apply scale_unscale.
Qed.

Lemma normalize_inverts_denormalize_witness :
  exists lo hi,
    min_output (snd (compute_normalization Toy.training_pair Toy.validation_pair
                       Toy.reductor_Q)) = Some lo /\
    max_output (snd (compute_normalization Toy.training_pair Toy.validation_pair
                       Toy.reductor_Q)) = Some hi /\
    (~ (hi == lo)%Q ->
     forall y, exists x y',
       denormalize_output y (snd (compute_normalization Toy.training_pair
                                    Toy.validation_pair Toy.reductor_Q)) =
         (Ok x, snd (compute_normalization Toy.training_pair Toy.validation_pair
                       Toy.reductor_Q)) /\
       normalize_output x (snd (compute_normalization Toy.training_pair
                                  Toy.validation_pair Toy.reductor_Q)) =
         (Ok y', snd (compute_normalization Toy.training_pair Toy.validation_pair
                        Toy.reductor_Q)) /\
       Forall2 Qeq y' y).
Proof.
  apply (@normalize_inverts_denormalize Toy.collaborators_Q Toy.training_pair
           Toy.validation_pair Toy.reductor_Q).
  reflexivity.
Defined.

(** X14: a training set with a single parameter value.  When every input
    of the training and validation data holds the same number, as with one
    training parameter, [compute_normalization] succeeds and stores that
    number as both input bounds; [normalize] then succeeds as well, and
    every input entry it returns is NaN or an infinity, in binary64
    arithmetic. *)
Theorem constant_inputs_normalize_to_non_finite {C : Collaborators float}
    (training validation : list pair_) (mu : float) (self0 self : reductor) :
  Forall (fun p => Forall (fun x => x = mu) (fst p)) (training ++ validation) ->
  compute_normalization training validation self0 = (Ok tt, self) ->
  min_input self = Some mu /\ max_input self = Some mu /\
  forall data, exists out,
    normalize data self = (Ok out, self) /\
    length out = length data /\
    Forall (fun p => Forall (fun x => non_finite x = true) (fst p)) out.
Proof.
  intros Hconst Hrun.
  destruct (ReductorSpec.compute_normalization_sets _ _ _ Hrun)
    as [li [hi [lo [ho [Hli [Hhi [_ [_ [Ali [Ahi [Alo [Aho _]]]]]]]]]]]].
  assert (Hne : concat (map fst (training ++ validation)) <> []).
  { intro E. unfold np_min in Hli. rewrite E in Hli. discriminate. }
  assert (Hall : Forall (Forall (fun y => y = mu)) (map fst (training ++ validation)))
    by (rewrite Forall_map; exact Hconst).
  destruct (np_extrema_constant Hne Hall) as [Hmin Hmax].
  assert (li = mu) by congruence. assert (hi = mu) by congruence. subst li hi.
  split; [exact Ali|]. split; [exact Ahi|].
  intro data. rewrite (normalize_run data self Ali Ahi Alo Aho).
  eexists. split; [reflexivity|]. split; [apply length_map|].
  rewrite Forall_map. apply Forall_forall. intros p _. cbn [fst].
  unfold scale. rewrite Forall_map. apply Forall_forall. intros x _.
  cbn [div sub Num_float]. apply non_finite_div_same.
Qed.

Lemma constant_inputs_normalize_to_non_finite_witness :
  exists self,
    compute_normalization (C := Toy.collaborators_float Toy.three_losses) []
      [([PrimFloat.one], [PrimFloat.two])] (Toy.reductor_unit_range Toy.three_losses) =
      (Ok tt, self) /\
    min_input self = Some PrimFloat.one /\ max_input self = Some PrimFloat.one /\
    forall data, exists out,
      normalize data self = (Ok out, self) /\
      length out = length data /\
      Forall (fun p => Forall (fun x => non_finite x = true) (fst p)) out.
Proof.
  eexists. split; [reflexivity|].
  apply (@constant_inputs_normalize_to_non_finite (Toy.collaborators_float Toy.three_losses)
           [] [([PrimFloat.one], [PrimFloat.two])] PrimFloat.one
           (Toy.reductor_unit_range Toy.three_losses)).
  - repeat constructor.
  - reflexivity.
Defined.

(** X15: the restarts.  When no training raises,
    [multiple_restarts_training] trains once for each restart number from
    [0] to [restarts - 1], in this order and always on the same layers and
    data, and the network and the loss it returns belong to one and the
    same of these restarts.  With [restarts <= 0] nothing is trained and
    both results are [None]. *)
Theorem restarts_all_run {T : Type} {NumT : Num T} {C : Collaborators T}
    (training validation : list pair_) (layers : list nat) (restarts : Z) (self : reductor) :
  (forall i, i < Z.to_nat restarts -> exists p, train i layers training validation = Ok p) ->
  exists best_nn best_loss self',
    multiple_restarts_training training validation layers restarts self =
      (Ok (best_nn, best_loss), self') /\
    trainings (trace self') =
      trainings (trace self) ++
      map (fun i => (i, layers, training, validation)) (seq 0 (Z.to_nat restarts)) /\
    of_one_restart layers training validation (Z.to_nat restarts) best_nn best_loss.
Proof.
  intro Hok. unfold multiple_restarts_training.
  set (s0 := snd (emit (EvLog (LogBlock "Performing restarts of neural network training ..."
                                 [restarts])) self)).
  destruct (@restarts_loop_all T NumT C layers training validation (Z.to_nat restarts) 0
              None None s0 ltac:(intros i Hi; apply Hok; lia)
              ltac:(left; repeat split)) as [bn [bl [s1 [Hrun [Htr Hbest]]]]].
  exists bn, bl. eexists. split; [|split; [|exact Hbest]].
  - unfold bind at 1. cbn [emit update]. fold s0.
    erewrite bind_ok by exact Hrun.
    unfold bind at 1. cbn [emit update ret]. reflexivity.
  - cbn [trace]. rewrite trainings_app, Htr. unfold s0. cbn [emit update snd trace].
    rewrite trainings_app. cbn [trainings flat_map]. now rewrite !app_nil_r.
Qed.

Lemma restarts_all_run_witness :
  exists best_nn best_loss self',
    multiple_restarts_training (C := Toy.collaborators_Q) Toy.training_pair
      Toy.validation_pair [1; 2] 3 Toy.reductor_Q = (Ok (best_nn, best_loss), self') /\
    trainings (trace self') =
      trainings (trace Toy.reductor_Q) ++
      map (fun i => (i, [1; 2], Toy.training_pair, Toy.validation_pair)) (seq 0 3) /\
    of_one_restart (C := Toy.collaborators_Q) [1; 2] Toy.training_pair Toy.validation_pair 3
      best_nn best_loss.
Proof.
  apply (@restarts_all_run Q Num_Q Toy.collaborators_Q Toy.training_pair
           Toy.validation_pair [1; 2] 3 Toy.reductor_Q).
  intros i _. eexists. reflexivity.
Defined.

Section ReduceRuns.

Context {T : Type} {NumT : Num T} {C : Collaborators T}.

Variables (max_basis_size : value) (return_all : bool) (restarts : value).
Variables (save : bool) (hidden_layers : list nat) (num_workers : Z).
Variables (full_solutions_file full_velocity_fields_file : option string).
Variable reuse : bool.

Lemma reduce_empty :
  given_path full_solutions_file = None ->
  given_path full_velocity_fields_file = None ->
  triple (fun s => training_set s = [])
    (reduce max_basis_size return_all restarts save hidden_layers num_workers
       full_solutions_file full_velocity_fields_file reuse)
    no_work (fun _ _ => False).
Proof.
  intros Hfs Hfvf. unfold reduce.
  assert (HInv : forall (e : event) (s : reductor),
             training_set s = [] -> training_set (snd (emit e s)) = [])
    by (intros; assumption).
  do 3 (eapply inv_seq;
        [first [apply inv_assert|apply inv_emit; [exact HInv|exact I]]|intros _]).
  apply triple_bind with (Mid := fun sols (_ : reductor) => sols = [] /\ True).
  { intros s r s' Hs E. unfold compute_full_solutions in E. rewrite Hfs in E.
    unfold bind, read in E. rewrite Hs in E. cbn in E. inversion E; subst.
    split; [apply nothing_added|]. intros a Ha. injection Ha as <-. auto. }
  intro sols. apply triple_pure. intros ->.
  apply triple_bind with (Mid := fun fields (_ : reductor) => fields = [] /\ True).
  { intros s r s' _ E. unfold register_full_solutions in E. rewrite Hfvf in E.
    destruct (1 <? num_workers)%Z;
      [destruct reuse; cbn in E; destruct (start_pool num_workers []) as [[]|e0]|];
      cbn in E; inversion E; subst;
      (split; [eexists; split; [cbn [trace]; rewrite <- ?app_assoc; reflexivity
                                 |repeat constructor]|]);
      intros a Ha; first [discriminate|injection Ha as <-; auto]. }
  intro fields. apply triple_pure. intros ->.
  do 2 (eapply inv_seq; [apply inv_emit; [auto|exact I]|intros _]).
  eapply inv_seq; [apply inv_lift|intros [basis singular_values]].
  eapply inv_seq; [apply inv_emit; [auto|exact I]|intros _].
  apply triple_bind with (Mid := fun _ (_ : reductor) => False).
  - apply triple_lift. intros a s Ha. cbn in Ha. discriminate.
  - intro a. apply triple_false.
Qed.

End ReduceRuns.

(** X16: an empty training set.  Without cache files, [reduce] on a
    reductor with no training parameter never returns: it raises, from the
    argument checks, from the POD, or with the [ValueError] of stacking no
    field.  Before that it calls neither the full-order model nor the
    registration nor the trainer. *)
Theorem reduce_empty_training_set {T : Type} {NumT : Num T} {C : Collaborators T}
    (max_basis_size : value) (return_all : bool) (restarts : value)
    (save : bool) (hidden_layers : list nat) (num_workers : Z)
    (full_solutions_file full_velocity_fields_file : option string) (reuse : bool)
    (self : reductor) :
  training_set self = [] ->
  given_path full_solutions_file = None ->
  given_path full_velocity_fields_file = None ->
  let run := reduce max_basis_size return_all restarts save hidden_layers num_workers
               full_solutions_file full_velocity_fields_file reuse self in
  (exists e, fst run = Raise e) /\
  exists added, trace (snd run) = trace self ++ added /\ Forall no_work added.
Proof.
  intros Hts Hfs Hfvf run.
  destruct (triple_run self (@reduce_empty T NumT C max_basis_size return_all restarts save
                               hidden_layers num_workers _ _ reuse Hfs Hfvf) Hts)
    as [Hadded Hok].
  split; [|exact Hadded].
  fold run in Hok. destruct (fst run) as [a|e]; [|now exists e].
  destruct (Hok a eq_refl).
Qed.

Lemma reduce_empty_training_set_witness :
  let run := reduce (C := Toy.collaborators_Q) (PyInt 1) false (PyInt 1) false [2] 1 None None
               false Toy.reductor_Q in
  (exists e, fst run = Raise e) /\
  exists added, trace (snd run) = trace Toy.reductor_Q ++ added /\ Forall no_work added.
Proof.
  apply (@reduce_empty_training_set Q Num_Q Toy.collaborators_Q (PyInt 1) false (PyInt 1)
           false [2] 1%Z None None false Toy.reductor_Q); reflexivity.
Defined.

Section CachedRuns.

Context {T : Type} {NumT : Num T} {C : Collaborators T}.

Variables (max_basis_size : value) (return_all : bool) (restarts : value).
Variables (save : bool) (hidden_layers : list nat) (num_workers : Z).
Variables (full_solutions_file full_velocity_fields_file : option string).
Variable reuse : bool.

Lemma reduce_cached :
  triple (fun _ => True)
    (reduce max_basis_size return_all restarts save hidden_layers num_workers
       full_solutions_file full_velocity_fields_file reuse)
    (respects_caches full_solutions_file full_velocity_fields_file)
    (fun out _ =>
       forall o path,
         snd out = Some o -> given_path full_velocity_fields_file = Some path ->
         load_full_velocity_fields path = Ok (out_full_velocity_fields o)).
Proof.
  unfold reduce.
  do 3 (eapply inv_seq;
        [first [apply inv_assert|apply inv_emit; [auto|exact I]]|intros _]).
  eapply inv_seq.
  { apply inv_compute_full_solutions; try (intros; exact I); auto. }
  intro sols.
  apply triple_bind with
    (Mid := fun fields (_ : reductor) =>
              (forall path, given_path full_velocity_fields_file = Some path ->
                            load_full_velocity_fields path = Ok fields) /\ True).
  { intros s r s' Hs E. split.
    - assert (H : triple (fun _ => True)
                    (register_full_solutions sols save num_workers
                       full_velocity_fields_file reuse)
                    (respects_caches full_solutions_file full_velocity_fields_file)
                    (fun _ _ => True))
        by (apply inv_register_full_solutions; try (intros; exact I); auto).
      exact (proj1 (H s r s' I E)).
    - intros fields ->. split; [|exact I]. intros path Hpath.
      unfold register_full_solutions in E. rewrite Hpath in E.
      unfold bind, emit, update, lift in E. now inversion E. }
  intro fields. apply triple_pure. intro Hloaded.
  do 2 (eapply inv_seq; [apply inv_emit; [auto|exact I]|intros _]).
  eapply inv_seq; [apply inv_lift|intros [basis singular_values]].
  eapply inv_seq; [apply inv_emit; [auto|exact I]|intros _].
  eapply inv_seq; [apply inv_lift|intro rc].
  do 2 (eapply inv_seq; [apply inv_emit; [auto|exact I]|intros _]).
  eapply inv_seq.
  { eapply triple_weaken; [apply compute_normalization_triple|auto|auto]. }
  intros _.
  eapply inv_seq.
  { eapply triple_weaken; [apply inv_normalize with (Inv := fun _ : reductor => True)
                          |auto|cbv beta; auto]. }
  intro training.
  eapply inv_seq.
  { eapply triple_weaken; [apply inv_normalize with (Inv := fun _ : reductor => True)
                          |auto|cbv beta; auto]. }
  intro validation.
  eapply inv_seq.
  { apply inv_multiple_restarts_training; try (intros; exact I); auto. }
  intros [best_ann best_loss].
  eapply inv_seq; [apply inv_emit; [auto|exact I]|intros _].
  eapply inv_seq; [apply inv_build_rom|intro rom].
  destruct return_all; apply triple_ret; intros s _ o path Ho Hpath; cbn [snd] in Ho.
  - injection Ho as <-. cbn [out_full_velocity_fields]. now apply Hloaded.
  - discriminate.
Qed.

Lemma reduce_normalized :
  triple (fun _ => True)
    (reduce max_basis_size return_all restarts save hidden_layers num_workers
       full_solutions_file full_velocity_fields_file reuse)
    (fun _ => True)
    (fun _ s => normalization_set s).
Proof.
  unfold reduce.
  do 3 (eapply inv_seq;
        [first [apply inv_assert|apply inv_emit; [auto|exact I]]|intros _]).
  eapply inv_seq; [apply inv_compute_full_solutions; auto|intro sols].
  eapply inv_seq; [apply inv_register_full_solutions; auto|intro fields].
  do 2 (eapply inv_seq; [apply inv_emit; [auto|exact I]|intros _]).
  eapply inv_seq; [apply inv_lift|intros [basis singular_values]].
  eapply inv_seq; [apply inv_emit; [auto|exact I]|intros _].
  eapply inv_seq; [apply inv_lift|intro rc].
  do 2 (eapply inv_seq; [apply inv_emit; [auto|exact I]|intros _]).
  eapply triple_bind; [apply compute_normalization_triple|intros []; cbv beta].
  eapply inv_seq.
  { eapply triple_weaken; [apply inv_normalize with (Inv := normalization_set)
                          |auto|cbv beta; tauto]. }
  intro training.
  eapply inv_seq.
  { eapply triple_weaken; [apply inv_normalize with (Inv := normalization_set)
                          |auto|cbv beta; tauto]. }
  intro validation.
  eapply inv_seq.
  { apply inv_multiple_restarts_training; auto using normalization_set_emit. }
  intros [best_ann best_loss].
  eapply inv_seq; [apply inv_emit; [auto using normalization_set_emit|exact I]|intros _].
  eapply inv_seq; [apply inv_build_rom|intro rom].
  destruct return_all; apply inv_ret.
Qed.

End CachedRuns.

(** X17: the cache files.  A run of [reduce] with a solutions file never
    calls the full-order model, and a run with a velocity-fields file never
    registers anything and writes no intermediate result; the velocity
    fields that such a run returns are the ones loaded from the file. *)
Theorem reduce_uses_caches {T : Type} {NumT : Num T} {C : Collaborators T}
    (max_basis_size : value) (return_all : bool) (restarts : value)
    (save : bool) (hidden_layers : list nat) (num_workers : Z)
    (full_solutions_file full_velocity_fields_file : option string) (reuse : bool)
    (self : reductor) :
  let run := reduce max_basis_size return_all restarts save hidden_layers num_workers
               full_solutions_file full_velocity_fields_file reuse self in
  (exists added,
     trace (snd run) = trace self ++ added /\
     Forall (respects_caches full_solutions_file full_velocity_fields_file) added) /\
  (forall rom o path,
     fst run = Ok (rom, Some o) ->
     given_path full_velocity_fields_file = Some path ->
     load_full_velocity_fields path = Ok (out_full_velocity_fields o)).
Proof.
  intro run.
  destruct (triple_run self (@reduce_cached T NumT C max_basis_size return_all restarts save
                               hidden_layers num_workers full_solutions_file
                               full_velocity_fields_file reuse) I) as [Hadded Hok].
  split; [exact Hadded|].
  intros rom o path Hrun Hpath. exact (Hok _ Hrun o path eq_refl Hpath).
Qed.

Lemma reduce_uses_caches_witness :
  exists rom o added,
    reduce (C := ToyCaches.collaborators_cached) (PyInt 1) true (PyInt 2) false [4] 1
      (Some "solutions"%string) (Some "fields"%string) true ToyCaches.reductor_cached =
      (Ok (rom, Some o),
       snd (reduce (C := ToyCaches.collaborators_cached) (PyInt 1) true (PyInt 2) false [4] 1
              (Some "solutions"%string) (Some "fields"%string) true ToyCaches.reductor_cached)) /\
    trace (snd (reduce (C := ToyCaches.collaborators_cached) (PyInt 1) true (PyInt 2) false
                  [4] 1 (Some "solutions"%string) (Some "fields"%string) true ToyCaches.reductor_cached)) =
      trace ToyCaches.reductor_cached ++ added /\
    Forall (respects_caches (C := ToyCaches.collaborators_cached)
              (Some "solutions"%string) (Some "fields"%string)) added /\
    load_full_velocity_fields (Collaborators := ToyCaches.collaborators_cached)
      "fields"%string =
      Ok (out_full_velocity_fields o).
Proof.
  pose proof (@reduce_uses_caches Q Num_Q ToyCaches.collaborators_cached (PyInt 1) true
                (PyInt 2) false [4] 1%Z (Some "solutions"%string) (Some "fields"%string)
                true ToyCaches.reductor_cached) as [[added [Htrace Hall]] Hloaded].
  eexists. eexists. exists added.
  split; [vm_compute; reflexivity|].
  split; [exact Htrace|]. split; [exact Hall|].
  eapply Hloaded; [vm_compute; reflexivity|reflexivity].
Defined.

(** X18: the callbacks of the reduced model.  When [reduce] returns, all
    four normalisation bounds of the reductor are set, so that the bound
    methods handed to the reduced model ([normalize_input] and
    [denormalize_output]) return and do not raise [AttributeError]. *)
Theorem reduce_sets_normalization {T : Type} {NumT : Num T} {C : Collaborators T}
    (max_basis_size : value) (return_all : bool) (restarts : value)
    (save : bool) (hidden_layers : list nat) (num_workers : Z)
    (full_solutions_file full_velocity_fields_file : option string) (reuse : bool)
    (self : reductor)
    (out : ReducedSpacetimeModel * option outputs) :
  let run := reduce max_basis_size return_all restarts save hidden_layers num_workers
               full_solutions_file full_velocity_fields_file reuse self in
  fst run = Ok out ->
  normalization_set (snd run) /\
  forall x, exists y z,
    normalize_input x (snd run) = (Ok y, snd run) /\
    denormalize_output x (snd run) = (Ok z, snd run).
Proof.
  intros run Hrun.
  destruct (triple_run self (@reduce_normalized T NumT C max_basis_size return_all restarts
                               save hidden_layers num_workers full_solutions_file
                               full_velocity_fields_file reuse) I) as [_ Hok].
  pose proof (Hok out Hrun) as Hset. fold run in Hset.
  split; [exact Hset|].
  destruct Hset as [li [hi [lo [ho [Ali [Ahi [Alo Aho]]]]]]].
  intro x. exists (scale li hi x), (unscale lo ho x). split.
  - unfold normalize_input.
    erewrite bind_ok by (apply ReductorSpec.attr_some; exact Ali).
    erewrite bind_ok by (apply ReductorSpec.attr_some; exact Ahi). reflexivity.
  - unfold denormalize_output.
    erewrite bind_ok by (apply ReductorSpec.attr_some; exact Aho).
    erewrite bind_ok by (apply ReductorSpec.attr_some; exact Alo). reflexivity.
Qed.

Section SizedRuns.

Context {T : Type} {NumT : Num T} {C : Collaborators T}.

Variables (max_basis_size : value) (return_all : bool) (restarts : value).
Variables (save : bool) (hidden_layers : list nat) (num_workers : Z).
Variables (full_solutions_file full_velocity_fields_file : option string).
Variable reuse : bool.

Lemma reduce_sized (ts : list ParameterValue) :
  given_path full_solutions_file = None ->
  given_path full_velocity_fields_file = None ->
  triple (fun s => training_set s = ts)
    (reduce max_basis_size return_all restarts save hidden_layers num_workers
       full_solutions_file full_velocity_fields_file reuse)
    (sized_training (length ts - (length ts / 10 + 2))
       (Nat.min (length ts / 10 + 1) (length ts)))
    (fun _ _ => True).
Proof.
  intros Hfs Hfvf. unfold reduce.
  set (P := sized_training (length ts - (length ts / 10 + 2))
              (Nat.min (length ts / 10 + 1) (length ts))).
  assert (HInv : forall (e : event) (s : reductor),
             training_set s = ts -> training_set (snd (emit e s)) = ts)
    by (intros; assumption).
  do 3 (eapply inv_seq;
        [first [apply inv_assert|apply inv_emit; [exact HInv|exact I]]|intros _]).
  apply triple_bind with (Mid := fun sols (_ : reductor) => length sols = length ts /\ True).
  { intros s r s' Hs E. split.
    - assert (H : triple (fun _ => True) (compute_full_solutions full_solutions_file) P
                    (fun _ _ => True))
        by (apply inv_compute_full_solutions; try (intros; exact I); auto).
      exact (proj1 (H s r s' I E)).
    - intros sols ->. split; [|exact I].
      unfold compute_full_solutions in E. rewrite Hfs in E.
      unfold bind at 1, read in E. apply solve_all_run in E.
      destruct E as [Hfst _]. rewrite <- Hs, <- Hfst. now rewrite length_map. }
  intro sols. apply triple_pure. intro Hsols.
  apply triple_bind with
    (Mid := fun fields (_ : reductor) => length fields = length sols /\ True).
  { intros s r s' Hs E. split.
    - assert (H : triple (fun _ => True)
                    (register_full_solutions sols save num_workers
                       full_velocity_fields_file reuse) P (fun _ _ => True))
        by (apply inv_register_full_solutions; try (intros; exact I); auto).
      exact (proj1 (H s r s' I E)).
    - intros fields ->. split; [|exact I].
      exact (register_full_solutions_length _ _ _ _ _ _ Hfvf E). }
  intro fields. apply triple_pure. intro Hfields.
  do 2 (eapply inv_seq; [apply inv_emit; [auto|exact I]|intros _]).
  eapply inv_seq; [apply inv_lift|intros [basis singular_values]].
  eapply inv_seq; [apply inv_emit; [auto|exact I]|intros _].
  apply triple_bind with
    (Mid := fun rc (_ : reductor) => reduced_coefficients_of fields basis = Ok rc /\ True).
  { apply triple_lift. auto. }
  intro rc. apply triple_pure. intro Hrc.
  do 2 (eapply inv_seq; [apply inv_emit; [auto|exact I]|intros _]).
  assert (Hn : length (shuffle (training_pairs sols rc)) = length ts).
  { rewrite <- (Permutation_length (shuffle_permutation _)).
    erewrite training_pairs_length by exact Hrc. lia. }
  eapply inv_seq.
  { eapply triple_weaken; [apply compute_normalization_triple|auto|auto]. }
  intros _.
  apply triple_bind with
    (Mid := fun training (_ : reductor) =>
              length training = length ts - (length ts / 10 + 2) /\ True).
  { eapply triple_weaken; [apply inv_normalize with (Inv := fun _ : reductor => True)
                          |auto|].
    cbv beta. intros out s [_ Hout]. split; [|exact I].
    now rewrite Hout, training_slice_length, Hn. }
  intro training. apply triple_pure. intro Htraining.
  apply triple_bind with
    (Mid := fun validation (_ : reductor) =>
              length validation = Nat.min (length ts / 10 + 1) (length ts) /\ True).
  { eapply triple_weaken; [apply inv_normalize with (Inv := fun _ : reductor => True)
                          |auto|].
    cbv beta. intros out s [_ Hout]. split; [|exact I].
    now rewrite Hout, validation_slice_length, Hn. }
  intro validation. apply triple_pure. intro Hvalidation.
  eapply inv_seq.
  { apply inv_multiple_restarts_training; try (intros; exact I); auto.
    intro i. split; assumption. }
  intros [best_ann best_loss].
  eapply inv_seq; [apply inv_emit; [auto|exact I]|intros _].
  eapply inv_seq; [apply inv_build_rom|intro rom].
  destruct return_all; apply inv_ret.
Qed.

End SizedRuns.

(** X19: how many pairs the network is trained on.  Without cache
    files, every training run of [reduce] on [n] training parameters gets
    [n - (n / 10 + 2)] training pairs and [min (n / 10 + 1, n)] validation
    pairs, one pair being in neither set when [n >= 2].  With one or two
    training parameters the network is trained on no training pair at
    all. *)
Theorem reduce_training_sizes {T : Type} {NumT : Num T} {C : Collaborators T}
    (max_basis_size : value) (return_all : bool) (restarts : value)
    (save : bool) (hidden_layers : list nat) (num_workers : Z)
    (full_solutions_file full_velocity_fields_file : option string) (reuse : bool)
    (self : reductor) :
  given_path full_solutions_file = None ->
  given_path full_velocity_fields_file = None ->
  let n := length (training_set self) in
  let run := reduce max_basis_size return_all restarts save hidden_layers num_workers
               full_solutions_file full_velocity_fields_file reuse self in
  exists added,
    trace (snd run) = trace self ++ added /\
    Forall (sized_training (n - (n / 10 + 2)) (Nat.min (n / 10 + 1) n)) added.
Proof.
  intros Hfs Hfvf n run.
  exact (proj1 (triple_run self
                  (@reduce_sized T NumT C max_basis_size return_all restarts save
                     hidden_layers num_workers _ _ reuse (training_set self) Hfs Hfvf)
                  eq_refl)).
Qed.

Lemma reduce_training_sizes_witness :
  let run := reduce (C := Toy.collaborators_Q) (PyInt 1) false (PyInt 2) false [4] 1 None None
               true Toy.reductor_three in
  exists added,
    trace (snd run) = trace Toy.reductor_three ++ added /\
    Forall (sized_training (C := Toy.collaborators_Q) (3 - (3 / 10 + 2))
              (Nat.min (3 / 10 + 1) 3)) added.
Proof.
  apply (@reduce_training_sizes Q Num_Q Toy.collaborators_Q (PyInt 1) false (PyInt 2) false
           [4] 1%Z None None true Toy.reductor_three); reflexivity.
Defined.

Lemma reduce_sets_normalization_witness :
  exists out,
    fst (reduce (C := ToyCaches.collaborators_cached) (PyInt 1) true (PyInt 2) false [4] 1
           (Some "solutions"%string) (Some "fields"%string) true ToyCaches.reductor_cached) =
      Ok out /\
    normalization_set
      (snd (reduce (C := ToyCaches.collaborators_cached) (PyInt 1) true (PyInt 2) false [4] 1
              (Some "solutions"%string) (Some "fields"%string) true
              ToyCaches.reductor_cached)) /\
    forall x, exists y z,
      normalize_input x
        (snd (reduce (C := ToyCaches.collaborators_cached) (PyInt 1) true (PyInt 2) false [4]
                1 (Some "solutions"%string) (Some "fields"%string) true
                ToyCaches.reductor_cached)) =
        (Ok y,
         snd (reduce (C := ToyCaches.collaborators_cached) (PyInt 1) true (PyInt 2) false [4]
                1 (Some "solutions"%string) (Some "fields"%string) true
                ToyCaches.reductor_cached)) /\
      denormalize_output x
        (snd (reduce (C := ToyCaches.collaborators_cached) (PyInt 1) true (PyInt 2) false [4]
                1 (Some "solutions"%string) (Some "fields"%string) true
                ToyCaches.reductor_cached)) =
        (Ok z,
         snd (reduce (C := ToyCaches.collaborators_cached) (PyInt 1) true (PyInt 2) false [4]
                1 (Some "solutions"%string) (Some "fields"%string) true
                ToyCaches.reductor_cached)).
Proof.
  eexists. split; [vm_compute; reflexivity|].
  eapply (@reduce_sets_normalization Q Num_Q ToyCaches.collaborators_cached (PyInt 1) true
            (PyInt 2) false [4] 1%Z (Some "solutions"%string) (Some "fields"%string) true
            ToyCaches.reductor_cached).
  vm_compute. reflexivity.
Defined.

Section WidthRuns.

Context {T : Type} {NumT : Num T} {C : Collaborators T}.

Variables (max_basis_size : value) (return_all : bool) (restarts : value).
Variables (save : bool) (hidden_layers : list nat) (num_workers : Z).
Variables (full_solutions_file full_velocity_fields_file : option string).
Variable reuse : bool.
Variable d : nat.
Variable before : list event.

Hypothesis loaded_width :
  forall path sols,
    given_path full_solutions_file = Some path ->
    load_full_solutions path = Ok sols ->
    Forall (fun p => length (components (fst p)) = d) sols.

Lemma Forall_firstn_keep {X : Type} (R : X -> Prop) (n : nat) (l : list X) :
  Forall R l -> Forall R (firstn n l).
Proof.
  intro H. rewrite <- (firstn_skipn n l) in H. now apply Forall_app in H.
Qed.

Lemma Forall_skipn_keep {X : Type} (R : X -> Prop) (n : nat) (l : list X) :
  Forall R l -> Forall R (skipn n l).
Proof.
  intro H. rewrite <- (firstn_skipn n l) in H. now apply Forall_app in H.
Qed.

Lemma extends_emit (Q : list event -> Prop) (e : event) (s : reductor) :
  (forall added added', Q added -> Q (added ++ added')) ->
  extends_by before Q s -> extends_by before Q (snd (emit e s)).
Proof.
  intros HQ [added [Ht Hq]]. exists (added ++ [e]).
  cbn [emit update snd trace]. rewrite Ht, app_assoc. split; [reflexivity|auto].
Qed.

Lemma trained_once_app (added added' : list event) :
  trained_once added -> trained_once (added ++ added').
Proof.
  intros [layers [training [validation [Hin Hne]]]].
  exists layers, training, validation. split; [|exact Hne].
  apply in_or_app. now left.
Qed.

(** What holds of the events recorded so far keeps holding while a step
    runs, when it is kept by further events. *)
Lemma triple_extends {A : Type} (Q : list event -> Prop) (Pre : reductor -> Prop)
    (m : M reductor A) (P : event -> Prop) (Post : A -> reductor -> Prop) :
  (forall added added', Q added -> Q (added ++ added')) ->
  triple Pre m P Post ->
  triple (fun s => Pre s /\ extends_by before Q s) m P
    (fun a s => Post a s /\ extends_by before Q s).
Proof.
  intros HQ H s r s' [Hp [ad [Hb Hq]]] E.
  destruct (H s r s' Hp E) as [[added [Ht Hall]] Hpost].
  split; [now exists added|].
  intros a Ha. split; [now apply Hpost|].
  exists (ad ++ added). rewrite Ht, Hb, app_assoc. split; [reflexivity|auto].
Qed.

(** The parameters of the full solutions have the width of the training
    parameters, or of the parameters loaded from the file. *)
Lemma compute_full_solutions_widths :
  triple (parameters_of_width d) (compute_full_solutions full_solutions_file)
    (training_of_width d)
    (fun sols _ => Forall (fun p => length (components (fst p)) = d) sols).
Proof.
  intros s r s' Hs E. split.
  - assert (H : triple (fun _ => True) (compute_full_solutions full_solutions_file)
                  (training_of_width d) (fun _ _ => True))
      by (apply inv_compute_full_solutions; try (intros; exact I); auto).
    exact (proj1 (H s r s' I E)).
  - intros sols ->. unfold compute_full_solutions in E.
    destruct (given_path full_solutions_file) as [path|] eqn:Hpath.
    + unfold bind, emit, update, lift in E. injection E as E _.
      exact (loaded_width eq_refl E).
    + unfold bind at 1, read in E. apply solve_all_run in E.
      destruct E as [Hfst _]. unfold parameters_of_width in Hs.
      rewrite <- Hfst, Forall_map in Hs. exact Hs.
Qed.

(** A normalisation that returns was given at least one pair. *)
Lemma compute_normalization_given (training validation : list pair_) :
  triple (fun _ => True) (compute_normalization training validation) (training_of_width d)
    (fun _ _ => training ++ validation <> []).
Proof.
  intros s r s' _ E. split.
  - exact (proj1 (compute_normalization_triple training validation (training_of_width d)
                    I E)).
  - intros [] ->.
    destruct (ReductorSpec.compute_normalization_sets _ _ _ E) as [li [_ [_ [_ [Hmin _]]]]].
    intro Hnil. rewrite Hnil in Hmin. discriminate.
Qed.

(** Normalising keeps the number of pairs and the number of entries of
    every input tensor. *)
Lemma normalize_widths (data : list pair_) :
  Forall (fun p => length (fst p) = d) data ->
  triple (fun _ => True) (normalize data) (training_of_width d)
    (fun out _ => Forall (fun p => length (fst p) = d) out /\ length out = length data).
Proof.
  intros Hdata s r s' _ E. split.
  - assert (H : triple (fun _ => True) (normalize data) (training_of_width d)
                  (fun out _ => True /\ length out = length data))
      by (apply inv_normalize; auto).
    exact (proj1 (H s r s' I E)).
  - intros out ->.
    destruct (min_input s) as [li|] eqn:E1;
      [|rewrite normalize_unset in E by auto; discriminate].
    destruct (max_input s) as [hi|] eqn:E2;
      [|rewrite normalize_unset in E by auto; discriminate].
    destruct (min_output s) as [lo|] eqn:E3;
      [|rewrite normalize_unset in E by auto; discriminate].
    destruct (max_output s) as [ho|] eqn:E4;
      [|rewrite normalize_unset in E by auto; discriminate].
    rewrite (normalize_run data s E1 E2 E3 E4) in E. injection E as <- _.
    split; [|apply length_map].
    rewrite Forall_map. eapply Forall_impl; [|exact Hdata].
    intros p Hp. cbn [fst]. now rewrite ReductorFacts.scale_length.
Qed.

(** With at least one restart, the first restart is trained before
    anything else can end the call. *)
Lemma multiple_restarts_training_trains (training validation : list pair_)
    (layers : list nat) (n : Z) :
  (0 < n)%Z ->
  training_of_width d (EvTrain 0 layers training validation) ->
  validation <> [] ->
  triple (extends_by before (fun _ => True))
    (multiple_restarts_training training validation layers n) (training_of_width d)
    (fun _ s => extends_by before trained_once s).
Proof.
  intros Hn Hwidth Hne. unfold multiple_restarts_training.
  assert (Hgrow : forall added added' : list event, True -> True) by auto.
  assert (Hkeep : forall (e : event) (s : reductor),
             extends_by before trained_once s ->
             extends_by before trained_once (snd (emit e s)))
    by (intros e s; apply extends_emit, trained_once_app).
  assert (Hall : forall i, training_of_width d (EvTrain i layers training validation))
    by (intro i; exact Hwidth).
  eapply inv_seq.
  { apply inv_emit; [|exact I]. intros e s. now apply extends_emit. }
  intros _.
  apply triple_bind with (Mid := fun _ s => extends_by before trained_once s).
  - destruct (Z.to_nat n) as [|k] eqn:Ek; [lia|]. cbn [restarts_loop].
    apply triple_bind with (Mid := fun _ s => extends_by before trained_once s).
    + unfold train_neural_network.
      apply triple_bind with (Mid := fun _ s => extends_by before trained_once s).
      * apply triple_emit; [exact Hwidth|].
        intros s [added [Ht _]].
        exists (added ++ [EvTrain 0 layers training validation]).
        cbn [emit update snd trace]. rewrite Ht, app_assoc. split; [reflexivity|].
        exists layers, training, validation. split; [|exact Hne].
        apply in_or_app. right. now left.
      * intros _. apply inv_lift.
    + intros [nn loss].
      destruct (improves None loss); apply inv_restarts_loop; auto; intros; exact I.
  - intro best. eapply inv_seq; [apply inv_emit; [exact Hkeep|exact I]|].
    intros _. apply inv_ret.
Qed.

Lemma reduce_widths :
  triple (fun s => parameters_of_width d s /\ extends_by before (fun _ => True) s)
    (reduce max_basis_size return_all restarts save hidden_layers num_workers
       full_solutions_file full_velocity_fields_file reuse)
    (training_of_width d)
    (fun _ s => extends_by before trained_once s).
Proof.
  unfold reduce.
  assert (Hgrow : forall added added' : list event, True -> True) by auto.
  assert (HInv : forall (e : event) (s : reductor),
             parameters_of_width d s /\ extends_by before (fun _ => True) s ->
             parameters_of_width d (snd (emit e s)) /\
             extends_by before (fun _ => True) (snd (emit e s))).
  { intros e s [Hw He]. split; [exact Hw|]. now apply extends_emit. }
  assert (HInvT : forall (e : event) (s : reductor),
             True /\ extends_by before (fun _ => True) s ->
             True /\ extends_by before (fun _ => True) (snd (emit e s))).
  { intros e s [_ He]. split; [exact I|]. now apply extends_emit. }
  assert (Hkeep : forall (e : event) (s : reductor),
             extends_by before trained_once s ->
             extends_by before trained_once (snd (emit e s)))
    by (intros e s; apply extends_emit, trained_once_app).
  eapply inv_seq; [apply inv_assert|intros _].
  apply triple_bind with
    (Mid := fun _ s => (0 < as_int restarts)%Z /\
                       (parameters_of_width d s /\ extends_by before (fun _ => True) s)).
  { apply triple_assert. intros Hb s Hs. split; [|exact Hs].
    apply andb_prop in Hb. destruct Hb as [_ Hb]. now apply Z.ltb_lt in Hb. }
  intros _. apply triple_pure. intro Hrestarts.
  eapply inv_seq; [apply inv_emit; [exact HInv|exact I]|intros _].
  apply triple_bind with
    (Mid := fun sols s => Forall (fun p => length (components (fst p)) = d) sols /\
                          (True /\ extends_by before (fun _ => True) s)).
  { eapply triple_weaken;
      [apply (triple_extends Hgrow compute_full_solutions_widths)|auto|].
    cbv beta. tauto. }
  intro sols. apply triple_pure. intro Hsols.
  eapply inv_seq.
  { apply inv_register_full_solutions; try (intros; exact I); auto. }
  intro fields.
  do 2 (eapply inv_seq; [apply inv_emit; [exact HInvT|exact I]|intros _]).
  eapply inv_seq; [apply inv_lift|intros [basis singular_values]].
  eapply inv_seq; [apply inv_emit; [exact HInvT|exact I]|intros _].
  eapply inv_seq; [apply inv_lift|intro rc].
  do 2 (eapply inv_seq; [apply inv_emit; [exact HInvT|exact I]|intros _]).
  set (pairs := shuffle (training_pairs sols rc)).
  assert (Hpairs : Forall (fun p : pair_ => length (fst p) = d) pairs).
  { unfold pairs. eapply Permutation_Forall; [apply shuffle_permutation|].
    unfold training_pairs. rewrite Forall_map. apply Forall_forall.
    intros [[mu u] coeff] Hin. apply in_combine_l in Hin. cbn [fst].
    rewrite Forall_forall in Hsols. exact (Hsols _ Hin). }
  apply triple_bind with
    (Mid := fun _ s => training_slice pairs ++ validation_slice pairs <> [] /\
                       (True /\ extends_by before (fun _ => True) s)).
  { eapply triple_weaken;
      [apply (triple_extends Hgrow
                (compute_normalization_given (training_slice pairs) (validation_slice pairs)))
      |auto|].
    cbv beta. tauto. }
  intros _. apply triple_pure. intro Hgiven.
  assert (Hvalid : validation_slice pairs <> []).
  { intro Hnil. apply Hgiven. unfold validation_slice, training_slice in *.
    destruct pairs as [|p rest]; [reflexivity|].
    rewrite Nat.add_1_r in Hnil. discriminate. }
  apply triple_bind with
    (Mid := fun training s =>
              Forall (fun p : pair_ => length (fst p) = d) training /\
              (True /\ extends_by before (fun _ => True) s)).
  { eapply triple_weaken;
      [apply (triple_extends Hgrow
                (normalize_widths
                   (Forall_skipn_keep _ Hpairs
                    : Forall _ (training_slice pairs))))
      |auto|].
    cbv beta. tauto. }
  intro training. apply triple_pure. intro Htraining.
  apply triple_bind with
    (Mid := fun validation s =>
              (Forall (fun p : pair_ => length (fst p) = d) validation /\
               validation <> []) /\
              extends_by before (fun _ => True) s).
  { eapply triple_weaken;
      [apply (triple_extends Hgrow
                (normalize_widths
                   (Forall_firstn_keep _ Hpairs
                    : Forall _ (validation_slice pairs))))
      |auto|].
    cbv beta. intros out s [[Hw Hlen] He]. split; [|exact He]. split; [exact Hw|].
    intro Hnil. apply Hvalid. apply length_zero_iff_nil.
    rewrite <- Hlen, Hnil. reflexivity. }
  intro validation. apply triple_pure. intros [Hvalidation Hnonempty].
  apply triple_bind with (Mid := fun _ s => extends_by before trained_once s).
  { apply multiple_restarts_training_trains; [exact Hrestarts| |exact Hnonempty].
    split; [reflexivity|]. split; assumption. }
  intros [best_ann best_loss].
  eapply inv_seq; [apply inv_emit; [exact Hkeep|exact I]|intros _].
  eapply inv_seq; [apply inv_build_rom|intro rom].
  destruct return_all; apply inv_ret.
Qed.

End WidthRuns.

(** C9, as the code has it: in every call of [reduce], each training run
    gets a network whose input layer has width one, whatever the
    parameters are, while each training and validation input is the tensor
    of the components of a parameter: when all parameters have [d]
    components, every input has [d] entries, one entry only for [d = 1].
    A call that returns has trained the first restart, on a validation set
    that is not empty. *)
Theorem reduce_input_width {T : Type} {NumT : Num T} {C : Collaborators T}
    (max_basis_size : value) (return_all : bool) (restarts : value)
    (save : bool) (hidden_layers : list nat) (num_workers : Z)
    (full_solutions_file full_velocity_fields_file : option string) (reuse : bool)
    (d : nat) (self : reductor) :
  Forall (fun mu => length (components mu) = d) (training_set self) ->
  (forall path sols,
     given_path full_solutions_file = Some path ->
     load_full_solutions path = Ok sols ->
     Forall (fun p => length (components (fst p)) = d) sols) ->
  let run := reduce max_basis_size return_all restarts save hidden_layers num_workers
               full_solutions_file full_velocity_fields_file reuse self in
  exists added,
    trace (snd run) = trace self ++ added /\
    Forall (training_of_width d) added /\
    (forall out, fst run = Ok out -> trained_once added).
Proof.
  intros Hset Hload run.
  assert (Hpre : parameters_of_width d self /\
                 extends_by (trace self) (fun _ => True) self).
  { split; [exact Hset|]. exists []. now rewrite app_nil_r. }
  destruct (triple_run self
              (@reduce_widths T NumT C max_basis_size return_all restarts save hidden_layers
                 num_workers full_solutions_file full_velocity_fields_file reuse d
                 (trace self) Hload) Hpre) as [[added [Htrace Hall]] Hok].
  fold run in Htrace, Hok.
  exists added. split; [exact Htrace|]. split; [exact Hall|].
  intros out Hout. destruct (Hok out Hout) as [added' [Htrace' Honce]].
  rewrite Htrace in Htrace'. apply app_inv_head in Htrace'. now subst added'.
Qed.

Lemma reduce_input_width_witness :
  let run := reduce (C := Toy.collaborators_Q) (PyInt 1) true (PyInt 3) false [20; 20] 1
               None None true Toy.reductor_three in
  (exists out, fst run = Ok out) /\
  exists added,
    trace (snd run) = trace Toy.reductor_three ++ added /\
    Forall (training_of_width (C := Toy.collaborators_Q) 1) added /\
    trained_once added.
Proof.
  intro run.
  assert (Hrun : exists out, fst run = Ok out) by (eexists; vm_compute; reflexivity).
  split; [exact Hrun|].
  destruct (@reduce_input_width Q Num_Q Toy.collaborators_Q (PyInt 1) true (PyInt 3) false
              [20; 20] 1%Z None None true 1 Toy.reductor_three)
    as [added [Htrace [Hall Honce]]].
  - repeat constructor.
  - intros path sols Hpath. discriminate.
  - exists added. split; [exact Htrace|]. split; [exact Hall|].
    destruct Hrun as [out Hout]. exact (Honce out Hout).
Defined.

(** C9, counterexample: for parameters that are points of the plane, the
    network is built with an input layer of width one and is handed a
    validation input of two entries, the two coordinates of a parameter,
    and not a one-element tensor. *)
Lemma reduce_plane_inputs_counterexample :
  let run := reduce (C := Toy.collaborators_plane) (PyInt 1) true (PyInt 1) false [4] 1
               None None true Toy.reductor_plane in
  exists rom out input coefficients,
    fst run = Ok (rom, Some out) /\
    out_validation_data out = [(input, coefficients)] /\
    In (EvTrain 0 [1; 4; 1] (out_training_data out) (out_validation_data out))
       (trace (snd run)) /\
    length input = 2 /\
    length input <> 1.
Proof.
  intro run. eexists. eexists. eexists. eexists.
  split; [vm_compute; reflexivity|].
  split; [vm_compute; reflexivity|].
  split; [|split; [reflexivity|discriminate]].
  vm_compute. repeat first [left; reflexivity|right].
Qed.

End ReductorRunSpec.

(* ===================================================================== *)
(** ** models.py *)
(* ===================================================================== *)

Module ModelsSpec.

Import Np NpViews NpFacts LinspaceFacts Models.

Lemma shape_eqb_refl (s : list nat) : shape_eqb s s = true.
Proof. unfold shape_eqb. destruct (list_eq_dec Nat.eq_dec s s); congruence. Qed.

Lemma positive_int_inv (n : value) : positive_int n = true -> (0 < as_int n)%Z.
Proof.
  unfold positive_int. intro H. apply andb_prop in H. destruct H as [_ H].
  now apply Z.ltb_lt.
Qed.

(** The stacked grid of two one-dimensional grids. *)
Lemma stacked_pair (xs ts : list Q) :
  exists XY,
    match meshgrid 0%Q [xs; ts] with
    | [XX; YY] => stack_last 0%Q [transpose 0%Q XX; transpose 0%Q YY]
    | _ => Raise ValueError
    end = Ok XY /\
    shape XY = [length xs; length ts; 2] /\
    forall i j, i < length xs -> j < length ts ->
      get 0%Q XY [i; j; 0] = nth i xs 0%Q /\ get 0%Q XY [i; j; 1] = nth j ts 0%Q.
Proof.
  unfold meshgrid. cbn [length seq map meshgrid_shape meshgrid_axis Nat.ltb Nat.leb nth].
  set (XX := build [length ts; length xs] (fun idx => nth (nth 1 idx 0) xs 0%Q)).
  set (YY := build [length ts; length xs] (fun idx => nth (nth 0 idx 0) ts 0%Q)).
  unfold stack_last.
  assert (Hsx : shape (transpose 0%Q XX) = [length xs; length ts]) by reflexivity.
  assert (Hsy : shape (transpose 0%Q YY) = [length xs; length ts]) by reflexivity.
  cbn [forallb]. rewrite Hsx, Hsy, shape_eqb_refl. cbn [andb app length].
  eexists. split; [reflexivity|]. split; [reflexivity|].
  intros i j Hi Hj. split.
  - rewrite get_build by (repeat constructor; assumption || lia).
    cbn [last removelast nth].
    rewrite get_transpose by (repeat constructor; assumption).
    cbn [rev app]. unfold XX. rewrite get_build by (repeat constructor; assumption).
    reflexivity.
  - rewrite get_build by (repeat constructor; assumption || lia).
    cbn [last removelast nth].
    rewrite get_transpose by (repeat constructor; assumption).
    cbn [rev app]. unfold YY. rewrite get_build by (repeat constructor; assumption).
    reflexivity.
Qed.

(** X20: the grid of the analytical model.  A model that the
    constructor accepted can always build its grid: [solve] evaluates the
    exact solution once, after the grid is built and the message logged, on
    an array of shape [(n_x, n_t, 2)] whose entry [(i, j)] is the pair of
    the [i]-th point in space and the [j]-th point in time, and returns
    what the exact solution returns. *)
Theorem analytical_solve_grid (Mu U : Type) (exact : ndarray Q -> Mu -> result U)
    (nx nt : value) (xmin xmax tmin tmax : Q) (label : string)
    (self : AnalyticalModel Mu U) (mu : Mu) (log : list log_record) :
  analytical_init exact nx nt xmin xmax tmin tmax label = Ok self ->
  exists XY xs ts,
    linspace xmin xmax (as_int nx) = Ok xs /\ length xs = Z.to_nat (as_int nx) /\
    linspace tmin tmax (as_int nt) = Ok ts /\ length ts = Z.to_nat (as_int nt) /\
    1 <= length xs /\ 1 <= length ts /\
    space_time_grid self = Ok XY /\
    shape XY = [length xs; length ts; 2] /\
    (forall i j, i < length xs -> j < length ts ->
       get 0%Q XY [i; j; 0] = nth i xs 0%Q /\ get 0%Q XY [i; j; 1] = nth j ts 0%Q) /\
    analytical_solve self mu log =
      (exact XY mu, log ++ [LogBlock "Sampling analytical solution for mu=..." []]).
Proof.
  unfold analytical_init.
  destruct (positive_int nx) eqn:Hx; [|discriminate].
  destruct (positive_int nt) eqn:Ht; [|discriminate].
  intro E. injection E as <-.
  apply positive_int_inv in Hx, Ht.
  destruct (@linspace_defined xmin xmax (as_int nx) ltac:(lia)) as [xs [Exs Hxs]].
  destruct (@linspace_defined tmin tmax (as_int nt) ltac:(lia)) as [ts [Ets Hts]].
  destruct (stacked_pair xs ts) as [XY [Hstack [Hshape Hentries]]].
  assert (Hgrid : space_time_grid
                    {| exact_solution := exact; n_x := nx; n_t := nt;
                       x_min := xmin; x_max := xmax; t_min := tmin; t_max := tmax;
                       name := label |} = Ok XY).
  { unfold space_time_grid. cbn [x_min x_max t_min t_max n_x n_t].
    rewrite Exs, Ets. exact Hstack. }
  exists XY, xs, ts. repeat (split; [assumption || lia|]).
  unfold analytical_solve.
  erewrite bind_ok by (unfold lift; rewrite Hgrid; reflexivity).
  erewrite bind_ok by reflexivity. reflexivity.
Qed.

Lemma analytical_solve_grid_witness :
  exists self XY xs ts,
    analytical_init (fun XY (mu : Q) => Ok (Qmult (get 0%Q XY [1; 0; 0]) mu))
      (PyInt 3) (PyInt 2) 0%Q 1%Q 0%Q 1%Q "AnalyticalModel" = Ok self /\
    linspace 0%Q 1%Q 3 = Ok xs /\ length xs = 3 /\
    linspace 0%Q 1%Q 2 = Ok ts /\ length ts = 2 /\
    1 <= length xs /\ 1 <= length ts /\
    space_time_grid self = Ok XY /\
    shape XY = [length xs; length ts; 2] /\
    (forall i j, i < length xs -> j < length ts ->
       get 0%Q XY [i; j; 0] = nth i xs 0%Q /\ get 0%Q XY [i; j; 1] = nth j ts 0%Q) /\
    analytical_solve self 2%Q [] =
      (Ok (Qmult (get 0%Q XY [1; 0; 0]) 2%Q),
       [] ++ [LogBlock "Sampling analytical solution for mu=..." []]).
Proof.
  eexists.
  destruct (@analytical_solve_grid Q Q (fun XY (mu : Q) => Ok (Qmult (get 0%Q XY [1; 0; 0]) mu))
              (PyInt 3) (PyInt 2) 0%Q 1%Q 0%Q 1%Q "AnalyticalModel"%string _ 2%Q []
              eq_refl) as [XY [xs [ts H]]].
  exists XY, xs, ts. split; [reflexivity|]. exact H.
Defined.

(** X21: the wrapped pyMOR model.  When pyMOR returns a matrix of [n]
    rows and [m] columns, [solve] succeeds exactly when [m] is the number of
    points of the spatial shape, and raises [ValueError] otherwise; the
    function it returns has the shape [(n, *spatial_shape)], and for
    [n >= 1] [visualize] hands the matrix that pyMOR returned back to
    pyMOR. *)
Theorem wrapped_solve_round_trip (Mu A : Type) (self : WrappedpyMORModel Mu A) (mu : Mu)
    (n m : nat) (buffer : list A) (tr : list (wrapped_event A)) :
  model_solve self mu = Ok (mk_ndarray [n; m] buffer) ->
  let logged := tr ++ [WrappedLog A (LogBlock "Calling pyMOR to solve for mu=..." [])] in
  (n * m = n * size (spatial_shape self) ->
   wrapped_solve self mu tr =
     (Ok {| to_numpy := mk_ndarray (n :: spatial_shape self) buffer |}, logged) /\
   (1 <= n ->
    forall tr',
      wrapped_visualize self {| to_numpy := mk_ndarray (n :: spatial_shape self) buffer |} tr' =
        (Ok tt, tr' ++ [WrappedVisualize (mk_ndarray [n; m] buffer)]))) /\
  (n * m <> n * size (spatial_shape self) ->
   wrapped_solve self mu tr = (Raise ValueError, logged)).
Proof.
  intros Hsolve logged.
  assert (Hsize : size (shape (mk_ndarray [n; m] buffer)) = n * m)
    by (cbn; lia).
  split.
  - intro Heq. split.
    + unfold wrapped_solve.
      erewrite bind_ok by reflexivity.
      erewrite bind_ok by (unfold lift; rewrite Hsolve; reflexivity).
      erewrite bind_ok by reflexivity.
      unfold reshape. rewrite Hsize.
      change (size (n :: spatial_shape self)) with (n * size (spatial_shape self)).
      rewrite <- Heq, Nat.eqb_refl. reflexivity.
    + intros Hn tr'. unfold wrapped_visualize. cbn [to_numpy].
      erewrite bind_ok by reflexivity.
      unfold reshape_first. cbn [shape data].
      change (size (n :: spatial_shape self)) with (n * size (spatial_shape self)).
      destruct (Nat.eqb_spec n 0) as [|_]; [lia|].
      rewrite Nat.mul_comm, Nat.Div0.mod_mul. cbn [orb negb Nat.eqb].
      rewrite Nat.div_mul by lia.
      assert (Hm : size (spatial_shape self) = m) by nia.
      rewrite Hm. reflexivity.
  - intro Hne. unfold wrapped_solve.
    erewrite bind_ok by reflexivity.
    erewrite bind_ok by (unfold lift; rewrite Hsolve; reflexivity).
    erewrite bind_ok by reflexivity.
    unfold reshape. rewrite Hsize.
    change (size (n :: spatial_shape self)) with (n * size (spatial_shape self)).
    destruct (Nat.eqb_spec (n * m) (n * size (spatial_shape self))) as [|_]; [contradiction|].
    reflexivity.
Qed.

Lemma wrapped_solve_round_trip_witness :
  let self := {| model_solve := fun _ : unit => Ok (mk_ndarray [2; 3] [1; 2; 3; 4; 5; 6]);
                 spatial_shape := [3];
                 wrapped_name := "WrappedpyMORModel" |} in
  (2 * 3 = 2 * size (spatial_shape self) ->
   wrapped_solve self tt [] =
     (Ok {| to_numpy := mk_ndarray (2 :: spatial_shape self) [1; 2; 3; 4; 5; 6] |},
      [] ++ [WrappedLog nat (LogBlock "Calling pyMOR to solve for mu=..." [])]) /\
   (1 <= 2 ->
    forall tr',
      wrapped_visualize self
        {| to_numpy := mk_ndarray (2 :: spatial_shape self) [1; 2; 3; 4; 5; 6] |} tr' =
        (Ok tt, tr' ++ [WrappedVisualize (mk_ndarray [2; 3] [1; 2; 3; 4; 5; 6])]))) /\
  (2 * 3 <> 2 * size (spatial_shape self) ->
   wrapped_solve self tt [] =
     (Raise ValueError,
      [] ++ [WrappedLog nat (LogBlock "Calling pyMOR to solve for mu=..." [])])).
Proof.
  intro self.
  exact (@wrapped_solve_round_trip unit nat self tt 2 3 [1; 2; 3; 4; 5; 6] [] eq_refl).
Defined.

End ModelsSpec.

(* ===================================================================== *)
(** ** examples/test_registration.py *)
(* ===================================================================== *)

Module RegistrationTestSpec.

Import Reductor RegistrationTest.

(** X22: the projection of [examples/test_registration.py].  Entry
    [(i, j)] of its coefficient matrix is the dot product of basis vector
    [j] with velocity field [i] after the product operator was applied to
    the field, or with the field itself for the L2 product; the matrix has
    one row per field and one column per basis vector.  Entry [(i, k)] of
    the projected fields is the sum over the basis vectors of coefficient
    [(i, j)] times component [k] of basis vector [j]. *)
Theorem test_projection {T : Type} {NumT : Num T} {C : Collaborators T}
    (l2_prod : bool) (reduced_vector_fields full_vector_fields : list VelocityField)
    (rc : Np.ndarray T) :
  reduced_coefficients l2_prod reduced_vector_fields full_vector_fields = Ok rc ->
  Np.shape rc = [length full_vector_fields; length reduced_vector_fields] /\
  (forall i j v b,
     nth_error full_vector_fields i = Some v ->
     nth_error reduced_vector_fields j = Some b ->
     Np.get zero rc [i; j] = Np.vdot (to_numpy_flatten b) (prod_field l2_prod v) /\
     (l2_prod = false -> Np.get zero rc [i; j] = product_inner v (to_numpy_flatten b))) /\
  exists projected D,
    projected_vector_fields reduced_vector_fields rc = Ok projected /\
    Forall (fun b => length (to_numpy_flatten b) = D) reduced_vector_fields /\
    Np.shape projected = [length full_vector_fields; D] /\
    forall i k, i < length full_vector_fields -> k < D ->
      Np.get zero projected [i; k] =
      Np.sum_upto (length reduced_vector_fields)
        (fun j => mul (nth k (nth j (map to_numpy_flatten reduced_vector_fields) []) zero)
                      (Np.get zero rc [i; j])).
Proof.
  unfold reduced_coefficients.
  destruct (Np.stack_rows (map to_numpy_flatten reduced_vector_fields))
    as [snapshot_matrix|] eqn:Ea; [|discriminate].
  destruct (Np.stack_rows (map (prod_field l2_prod) full_vector_fields))
    as [prod_fields|] eqn:Eb; [|discriminate].
  destruct (Np.dot snapshot_matrix (Np.transpose zero prod_fields)) as [c|] eqn:Ec;
    [|discriminate].
  intro E. injection E as <-.
  destruct (ReductorSpec.stacked_product _ _ Ea Eb Ec)
    as [[D [Hrows _]] [Hshape Hentries]].
  rewrite !length_map in Hshape, Hentries. rewrite Forall_map in Hrows.
  assert (Hne : reduced_vector_fields <> []) by (intro H; subst; discriminate).
  destruct (ReductorSpec.transpose_matrix c Hshape) as [Hst Hget].
  split; [exact Hst|]. split.
  - intros i j v b Hv Hb.
    assert (Hi : i < length full_vector_fields) by (apply nth_error_Some; congruence).
    assert (Hj : j < length reduced_vector_fields) by (apply nth_error_Some; congruence).
    assert (Hentry : Np.get zero (Np.transpose zero c) [i; j] =
                     Np.vdot (to_numpy_flatten b) (prod_field l2_prod v)).
    { rewrite Hget, Hentries by assumption. f_equal.
      - rewrite (nth_indep _ [] (to_numpy_flatten b)) by (rewrite length_map; exact Hj).
        rewrite map_nth. f_equal. now apply nth_error_nth.
      - rewrite (nth_indep _ [] (prod_field l2_prod v)) by (rewrite length_map; exact Hi).
        rewrite map_nth. f_equal. now apply nth_error_nth. }
    split; [exact Hentry|]. intros ->. exact Hentry.
  - assert (Hstack : Np.stack_rows (map to_numpy_flatten reduced_vector_fields) =
                     Ok (Np.mk_ndarray [length (map to_numpy_flatten reduced_vector_fields); D]
                           (concat (map to_numpy_flatten reduced_vector_fields)))).
    { apply ReductorRunFacts.stack_rows_defined.
      - destruct reduced_vector_fields; [congruence|discriminate].
      - now rewrite Forall_map. }
    rewrite length_map in Hstack.
    unfold projected_vector_fields. rewrite Hstack.
    set (B := Np.mk_ndarray [length reduced_vector_fields; D]
                (concat (map to_numpy_flatten reduced_vector_fields))).
    assert (HB : Np.shape B = [length reduced_vector_fields; D]) by reflexivity.
    destruct (ReductorSpec.transpose_matrix B HB) as [HBt HBget].
    destruct (ReductorSpec.transpose_matrix (Np.transpose zero c) Hst) as [Hct Hcget].
    destruct (Np.dot (Np.transpose zero B) (Np.transpose zero (Np.transpose zero c)))
      as [p|e] eqn:Ep.
    + destruct (ReductorSpec.dot_inv _ _ Ep) as [m' [n' [p' [Ha [Hb [Hc [_ Hentries']]]]]]].
      rewrite HBt in Ha. injection Ha as <- <-.
      rewrite Hct in Hb. injection Hb as <-.
      destruct (ReductorSpec.transpose_matrix p Hc) as [Hpt Hpget].
      exists (Np.transpose zero p), D. split; [reflexivity|].
      split; [exact Hrows|]. split; [exact Hpt|].
      intros i k Hi Hk. rewrite Hpget, Hentries' by assumption.
      apply ReductorSpec.sum_upto_ext. intros j Hj.
      rewrite HBget, Hcget by assumption. f_equal.
      unfold B. rewrite <- (length_map to_numpy_flatten reduced_vector_fields).
      apply ReductorSpec.get_rows; rewrite ?length_map; try assumption.
      now rewrite Forall_map.
    + exfalso. unfold Np.dot in Ep. rewrite HBt, Hct, Nat.eqb_refl in Ep. discriminate.
Qed.

Lemma test_projection_witness :
  exists rc,
    reduced_coefficients (C := Toy.collaborators_Q) false [[(1 # 2)%Q]] [[1%Q]; [3%Q]] =
      Ok rc /\
    Np.shape rc = [2; 1] /\
    (forall i j v b,
       nth_error [[1%Q]; [3%Q]] i = Some v ->
       nth_error [[(1 # 2)%Q]] j = Some b ->
       Np.get zero rc [i; j] =
         Np.vdot (to_numpy_flatten (Collaborators := Toy.collaborators_Q) b)
           (prod_field (C := Toy.collaborators_Q) false v) /\
       (false = false ->
        Np.get zero rc [i; j] =
          product_inner (C := Toy.collaborators_Q) v
            (to_numpy_flatten (Collaborators := Toy.collaborators_Q) b))) /\
    exists projected D,
      projected_vector_fields (C := Toy.collaborators_Q) [[(1 # 2)%Q]] rc = Ok projected /\
      Forall (fun b => length (to_numpy_flatten (Collaborators := Toy.collaborators_Q) b) = D)
        [[(1 # 2)%Q]] /\
      Np.shape projected = [2; D] /\
      forall i k, i < 2 -> k < D ->
        Np.get zero projected [i; k] =
        Np.sum_upto 1
          (fun j => mul (nth k (nth j (map (to_numpy_flatten
                                             (Collaborators := Toy.collaborators_Q))
                                         [[(1 # 2)%Q]]) []) zero)
                        (Np.get zero rc [i; j])).
Proof.
  eexists. split; [vm_compute; reflexivity|].
  apply (@test_projection Q Num_Q Toy.collaborators_Q false [[(1 # 2)%Q]] [[1%Q]; [3%Q]]).
  vm_compute. reflexivity.
Defined.





End RegistrationTestSpec.
